(** * keenetic-routes: router session protocol and route synchronization

    A shallow embedding of the Go packages [routes] and [keenetic] of
    vladpi/keenetic-routes, together with models of the few functions of
    Go's standard library they call ([strings], [strconv], [net], the
    digests, [unicode/utf8] and the encoder of [encoding/json]), and the
    properties of the specification proved (or refuted) about them.

    Conventions.  A Go [string] is a Rocq [string] (a sequence of bytes);
    a Go [int] and a byte are [Z]; a slice is a [list], the nil slice and the
    empty slice both being [[]]; a Go map is a [gmap]; a function returning
    [(T, error)] returns a [Result T]. *)

From Stdlib Require Import ZArith String Ascii List Bool Lia.
From stdpp Require Import gmap strings list sorting.

Local Open Scope Z_scope.

(** ** Errors *)

Inductive Result (E A : Type) : Type :=
| Ok (a : A)
| Err (e : E).
Arguments Ok {E A} a.
Arguments Err {E A} e.

Definition isOk {E A} (r : Result E A) : bool :=
  match r with Ok _ => true | Err _ => false end.

(** ** Bytes and characters *)

Definition byteOf (c : ascii) : Z := Z.of_N (N_of_ascii c).
Definition charOf (b : Z) : ascii := ascii_of_N (Z.to_N (b mod 256)).

Definition isDigit (c : ascii) : bool :=
  (48 <=? byteOf c) && (byteOf c <=? 57).

Definition digitVal (c : ascii) : Z := byteOf c - 48.

Definition strLen (s : string) : Z := Z.of_nat (String.length s).

Definition isEmpty (s : string) : bool :=
  match s with EmptyString => true | String _ _ => false end.

(** ** Slices *)

(** Cuts a list in pieces of [n] elements, the last one maybe shorter;
    [fuel] bounds their number. *)
Fixpoint chunks {A} (fuel : nat) (n : nat) (l : list A) : list (list A) :=
  match fuel with
  | O => []
  | S fuel' =>
      match l with
      | [] => []
      | _ => take n l :: chunks fuel' n (drop n l)
      end
  end.

(** ** Package strings *)

Module Strings.

(** [strings.HasPrefix]. *)
Fixpoint HasPrefix (s prefix : string) : bool :=
  match prefix, s with
  | EmptyString, _ => true
  | String p prefix', String c s' => Ascii.eqb p c && HasPrefix s' prefix'
  | String _ _, EmptyString => false
  end.

(** [strings.Contains]. *)
Fixpoint Contains (s substr : string) : bool :=
  HasPrefix s substr ||
  match s with
  | EmptyString => false
  | String _ s' => Contains s' substr
  end.

(** The six ASCII space characters of [unicode.IsSpace]:
    '\t', '\n', '\v', '\f', '\r', ' '. *)
Definition asciiSpace (c : ascii) : bool :=
  let b := byteOf c in ((9 <=? b) && (b <=? 13)) || (b =? 32).

(** The two-byte UTF-8 encodings of white space: U+0085 and U+00A0. *)
Definition space2 (c1 c2 : ascii) : bool :=
  (byteOf c1 =? 194) && ((byteOf c2 =? 133) || (byteOf c2 =? 160)).

(** The three-byte UTF-8 encodings of white space: U+1680, U+2000..U+200A,
    U+2028, U+2029, U+202F, U+205F and U+3000. *)
Definition space3 (c1 c2 c3 : ascii) : bool :=
  let b1 := byteOf c1 in
  let b2 := byteOf c2 in
  let b3 := byteOf c3 in
  ((b1 =? 225) && (b2 =? 154) && (b3 =? 128))
  || ((b1 =? 226) && (b2 =? 128)
      && (((128 <=? b3) && (b3 <=? 138)) || (b3 =? 168) || (b3 =? 169) || (b3 =? 175)))
  || ((b1 =? 226) && (b2 =? 129) && (b3 =? 159))
  || ((b1 =? 227) && (b2 =? 128) && (b3 =? 128)).

(** The loop of [strings.TrimLeftFunc]: drops the leading runes of one, two
    or three bytes that [p1], [p2] and [p3] recognise. *)
Fixpoint trimRunes (p1 : ascii -> bool) (p2 : ascii -> ascii -> bool)
    (p3 : ascii -> ascii -> ascii -> bool) (l : list ascii) : list ascii :=
  match l with
  | c1 :: r1 =>
      if p1 c1 then trimRunes p1 p2 p3 r1 else
      match r1 with
      | c2 :: r2 =>
          if p2 c1 c2 then trimRunes p1 p2 p3 r2 else
          match r2 with
          | c3 :: r3 => if p3 c1 c2 c3 then trimRunes p1 p2 p3 r3 else l
          | [] => l
          end
      | [] => l
      end
  | [] => l
  end.

(** [strings.TrimLeftFunc(s, unicode.IsSpace)] on the bytes of [s]: a
    leading white-space rune is a leading occurrence of its encoding. *)
Definition trimLeftSpace : list ascii -> list ascii :=
  trimRunes asciiSpace space2 space3.

(** [strings.TrimRightFunc(s, unicode.IsSpace)], on the reversed bytes: the
    last rune is white space when the string ends with its encoding. *)
Definition trimRightSpaceRev : list ascii -> list ascii :=
  trimRunes asciiSpace (fun c1 c2 => space2 c2 c1) (fun c1 c2 c3 => space3 c3 c2 c1).

Definition trimRightSpace (l : list ascii) : list ascii :=
  rev (trimRightSpaceRev (rev l)).

(** [strings.TrimSpace]. *)
Definition TrimSpace (s : string) : string :=
  string_of_list_ascii (trimRightSpace (trimLeftSpace (list_ascii_of_string s))).

(** [strings.ToLower], on ASCII letters.  Bytes from 128 up are kept: the
    callers only compare the result with ASCII words none of whose letters
    is the lower case of a letter outside ASCII. *)
Definition lowerByte (c : ascii) : ascii :=
  let b := byteOf c in
  if (65 <=? b) && (b <=? 90) then charOf (b + 32) else c.

Fixpoint ToLower (s : string) : string :=
  match s with
  | EmptyString => EmptyString
  | String c s' => String (lowerByte c) (ToLower s')
  end.

Fixpoint trimLeftByte (c : ascii) (l : list ascii) : list ascii :=
  match l with
  | x :: r => if Ascii.eqb x c then trimLeftByte c r else l
  | [] => []
  end.

(** [strings.Trim(s, cutset)] for a cutset of one ASCII character. *)
Definition Trim1 (s : string) (c : ascii) : string :=
  string_of_list_ascii
    (rev (trimLeftByte c (rev (trimLeftByte c (list_ascii_of_string s))))).

End Strings.

(** ** Package strconv *)

Module Strconv.

Definition digitChar (d : Z) : ascii := charOf (48 + d).

Fixpoint uitoaAux (fuel : nat) (n : Z) (acc : string) : string :=
  let acc' := String (digitChar (n mod 10)) acc in
  match fuel with
  | O => acc'
  | S fuel' => if n <? 10 then acc' else uitoaAux fuel' (n / 10) acc'
  end.

(** The decimal digits of a number that is not negative. *)
Definition Uitoa (n : Z) : string :=
  uitoaAux (Z.to_nat (Z.log2 n)) n EmptyString.

(** [strconv.Itoa], and the verb [%d] of [fmt]. *)
Definition Itoa (n : Z) : string :=
  if n <? 0 then String "-"%char (Uitoa (- n)) else Uitoa n.

Fixpoint digits (s : string) (acc : Z) : option Z :=
  match s with
  | EmptyString => Some acc
  | String c s' => if isDigit c then digits s' (acc * 10 + digitVal c) else None
  end.

Definition minInt : Z := - 2 ^ 63.
Definition maxInt : Z := 2 ^ 63 - 1.

(** [strconv.Atoi] on a 64-bit platform: an optional sign and decimal
    digits, the value within the range of [int]; anything else is an
    error. *)
Definition Atoi (s : string) : option Z :=
  let '(neg, body) :=
    match s with
    | String "-"%char r => (true, r)
    | String "+"%char r => (false, r)
    | _ => (false, s)
    end in
  if isEmpty body then None else
  match digits body 0 with
  | None => None
  | Some n =>
      let v := if neg then - n else n in
      if (minInt <=? v) && (v <=? maxInt) then Some v else None
  end.

End Strconv.

(** ** Package net (and net/netip) *)

Module Net.

(** [net.IP] and [net.IPMask] are byte slices; nil is [[]]. *)
Definition IP := list Z.
Definition IPMask := list Z.

Definition IPv4len : nat := 4.
Definition IPv6len : nat := 16.

(** [netip.Addr]: an IPv4 address, or an IPv6 address with its zone. *)
Inductive Addr : Type :=
| Addr4 (a b c d : Z)
| Addr6 (bytes : list Z) (zone : string).

(** The loop of [netip.parseIPv4Fields]: [first] says that the index is 0,
    [prev] is the byte before the current one, [fields] the octets stored
    so far. *)
Fixpoint parseIPv4Loop (s : string) (first : bool) (prev : ascii)
    (fields : list Z) (val : Z) (pos digLen : nat) : option (list Z) :=
  match s with
  | EmptyString =>
      if (pos <? 3)%nat then None else Some (fields ++ [val])
  | String c rest =>
      if isDigit c then
        if (digLen =? 1)%nat && (val =? 0) then None
        else
          let val' := val * 10 + digitVal c in
          if 255 <? val' then None
          else parseIPv4Loop rest false c fields val' pos (S digLen)
      else if Ascii.eqb c "."%char then
        if first || isEmpty rest || Ascii.eqb prev "."%char then None
        else if (pos =? 3)%nat then None
        else parseIPv4Loop rest false c (fields ++ [val]) 0 (S pos) O
      else None
  end.

Definition parseIPv4Fields (s : string) : option (list Z) :=
  parseIPv4Loop s true "000"%char [] 0 O O.

(** [netip.parseIPv4]. *)
Definition parseIPv4 (s : string) : option Addr :=
  match parseIPv4Fields s with
  | Some [a; b; c; d] => Some (Addr4 a b c d)
  | _ => None
  end.

Definition hexVal (c : ascii) : option Z :=
  let b := byteOf c in
  if (48 <=? b) && (b <=? 57) then Some (b - 48)
  else if (97 <=? b) && (b <=? 102) then Some (b - 97 + 10)
  else if (65 <=? b) && (b <=? 70) then Some (b - 65 + 10)
  else None.

(** The inner loop of [netip.parseIPv6]: the hex digits of one group.
    Gives the number of digits, the value and the rest of the string. *)
Fixpoint hexGroup (s : string) (off : nat) (acc : Z) : option (nat * Z * string) :=
  match s with
  | EmptyString => Some (off, acc, s)
  | String c rest =>
      match hexVal c with
      | None => Some (off, acc, s)
      | Some v =>
          let acc' := (Z.shiftl acc 4 + v) mod 2 ^ 32 in
          if (3 <? off)%nat then None
          else if 65535 <? acc' then None
          else hexGroup rest (S off) acc'
      end
  end.

(** Writes [vals] into [ip] from index [i] on. *)
Fixpoint setBytes (ip : list Z) (i : nat) (vals : list Z) : list Z :=
  match vals with
  | [] => ip
  | v :: vals' => setBytes (<[i := v]> ip) (S i) vals'
  end.

(** The main loop of [netip.parseIPv6], [for i < 16].  Every turn adds at
    least 2 to [i], so 8 turns are enough; [fuel] counts them.  Gives the
    rest of the string, [i], the bytes and the position of the
    ellipsis ([-1] when there is none). *)
Fixpoint parseIPv6Loop (fuel : nat) (s : string) (i : nat) (ip : list Z)
    (ellipsis : Z) : option (string * nat * list Z * Z) :=
  if (16 <=? i)%nat then Some (s, i, ip, ellipsis) else
  match fuel with
  | O => None
  | S fuel' =>
      match hexGroup s O 0 with
      | None => None
      | Some (off, acc, rest) =>
          if (off =? 0)%nat then None else
          match rest with
          | EmptyString =>
              Some (EmptyString, (i + 2)%nat,
                    setBytes ip i [Z.shiftr acc 8; Z.land acc 255], ellipsis)
          | String c rest1 =>
              if Ascii.eqb c "."%char then
                if (ellipsis <? 0) && negb (i =? 12)%nat then None
                else if (16 <? i + 4)%nat then None
                else
                  match parseIPv4Fields s with
                  | None => None
                  | Some fields =>
                      Some (EmptyString, (i + 4)%nat, setBytes ip i fields, ellipsis)
                  end
              else
                let ip' := setBytes ip i [Z.shiftr acc 8; Z.land acc 255] in
                let i' := (i + 2)%nat in
                if negb (Ascii.eqb c ":"%char) then None
                else
                  match rest1 with
                  | EmptyString => None
                  | String c2 rest2 =>
                      if Ascii.eqb c2 ":"%char then
                        if 0 <=? ellipsis then None
                        else if isEmpty rest2
                             then Some (EmptyString, i', ip', Z.of_nat i')
                             else parseIPv6Loop fuel' rest2 i' ip' (Z.of_nat i')
                      else parseIPv6Loop fuel' rest1 i' ip' ellipsis
                  end
          end
      end
  end.

(** Splits [s] at the first [c]: [None] when [c] does not occur. *)
Fixpoint cut (c : ascii) (s : string) : option (string * string) :=
  match s with
  | EmptyString => None
  | String x s' =>
      if Ascii.eqb x c then Some (EmptyString, s')
      else match cut c s' with
           | Some (l, r) => Some (String x l, r)
           | None => None
           end
  end.

(** The start of [netip.parseIPv6]: the zone after the first '%', which
    must not be empty when there is one. *)
Definition splitZone (inp : string) : option (string * string) :=
  match cut "%"%char inp with
  | Some (s, zone) => if isEmpty zone then None else Some (s, zone)
  | None => Some (inp, EmptyString)
  end.

(** "Might have leading ellipsis": the rest of the string, the position of
    the ellipsis, and whether the string was the ellipsis alone. *)
Definition leadingEllipsis (s : string) : string * Z * bool :=
  match s with
  | String c1 (String c2 s') =>
      if Ascii.eqb c1 ":"%char && Ascii.eqb c2 ":"%char
      then (s', 0, isEmpty s') else (s, -1, false)
  | _ => (s, -1, false)
  end.

(** The end of [netip.parseIPv6]: the whole string must be used, and the
    ellipsis is expanded. *)
Definition expandEllipsis (zone : string)
    (parsed : option (string * nat * list Z * Z)) : option Addr :=
  match parsed with
  | None => None
  | Some (rest, i, ip, ellipsis) =>
      if negb (isEmpty rest) then None
      else if (i <? 16)%nat then
        if ellipsis <? 0 then None
        else
          let e := Z.to_nat ellipsis in
          let n := (16 - i)%nat in
          Some (Addr6 (take e ip ++ replicate n 0 ++ take (i - e) (drop e ip)) zone)
      else if 0 <=? ellipsis then None
      else Some (Addr6 ip zone)
  end.

(** [netip.parseIPv6]. *)
Definition parseIPv6 (inp : string) : option Addr :=
  match splitZone inp with
  | None => None
  | Some (s, zone) =>
      let zeros := replicate 16 0 in
      let '(s0, ellipsis0, onlyEllipsis) := leadingEllipsis s in
      if onlyEllipsis then Some (Addr6 zeros zone)
      else expandEllipsis zone (parseIPv6Loop 8 s0 O zeros ellipsis0)
  end.

(** [netip.ParseAddr]: the first of '.', ':' and '%' decides the family. *)
Fixpoint parseAddrScan (whole s : string) : option Addr :=
  match s with
  | EmptyString => None
  | String c s' =>
      if Ascii.eqb c "."%char then parseIPv4 whole
      else if Ascii.eqb c ":"%char then parseIPv6 whole
      else if Ascii.eqb c "%"%char then None
      else parseAddrScan whole s'
  end.

Definition ParseAddr (s : string) : option Addr := parseAddrScan s s.

Definition v4InV6Prefix : list Z := replicate 10 0 ++ [255; 255].

Definition As16 (a : Addr) : list Z :=
  match a with
  | Addr4 a b c d => v4InV6Prefix ++ [a; b; c; d]
  | Addr6 bytes _ => bytes
  end.

Definition Zone (a : Addr) : string :=
  match a with Addr4 _ _ _ _ => EmptyString | Addr6 _ z => z end.

Definition BitLen (a : Addr) : Z :=
  match a with Addr4 _ _ _ _ => 32 | Addr6 _ _ => 128 end.

(** [net.ParseIP]: the 16-byte form of the address, nil ([[]]) when [s] is
    not an address or carries a zone. *)
Definition ParseIP (s : string) : IP :=
  match ParseAddr s with
  | Some a => if isEmpty (Zone a) then As16 a else []
  | None => []
  end.

Definition isZeros (l : list Z) : bool := forallb (Z.eqb 0) l.

Definition eqBytes (l1 l2 : list Z) : bool :=
  (length l1 =? length l2)%nat && forallb (fun p => fst p =? snd p) (combine l1 l2).

(** [IP.To4]: nil ([[]]) when the address is not an IPv4 address. *)
Definition To4 (ip : IP) : IP :=
  if (length ip =? IPv4len)%nat then ip
  else if (length ip =? IPv6len)%nat
          && isZeros (take 10 ip)
          && (nth 10 ip 0 =? 255) && (nth 11 ip 0 =? 255)
       then drop 12 ip
       else [].

Definition isNil (ip : list Z) : bool :=
  match ip with [] => true | _ => false end.

(** [net.CIDRMask(ones, bits)] for [0 <= ones <= bits], [bits] 32 or 128. *)
Fixpoint cidrMaskBytes (l : nat) (n : Z) : list Z :=
  match l with
  | O => []
  | S l' =>
      if 8 <=? n then 255 :: cidrMaskBytes l' (n - 8)
      else Z.land (Z.lnot (Z.shiftr 255 n)) 255 :: cidrMaskBytes l' 0
  end.

Definition CIDRMask (ones bits : Z) : IPMask :=
  cidrMaskBytes (Z.to_nat (bits / 8)) ones.

(** [net.IPv4Mask]. *)
Definition IPv4Mask (a b c d : Z) : IPMask := [a; b; c; d].

Definition allFF (l : list Z) : bool := forallb (Z.eqb 255) l.

(** [IP.Mask]. *)
Definition Mask (ip : IP) (mask : IPMask) : IP :=
  let mask :=
    if (length mask =? IPv6len)%nat && (length ip =? IPv4len)%nat && allFF (take 12 mask)
    then drop 12 mask else mask in
  let ip :=
    if (length mask =? IPv4len)%nat && (length ip =? IPv6len)%nat
       && eqBytes (take 12 ip) v4InV6Prefix
    then drop 12 ip else ip in
  if negb (length ip =? length mask)%nat then []
  else map (fun p => Z.land (fst p) (snd p)) (combine ip mask).

(** The leading one bits of a byte, [for v&0x80 != 0 { n++; v <<= 1 }],
    with what is left of the byte. *)
Fixpoint leadingOnes (fuel : nat) (v n : Z) : Z * Z :=
  match fuel with
  | O => (n, v)
  | S fuel' =>
      if negb (Z.land v 128 =? 0)
      then leadingOnes fuel' (Z.shiftl v 1 mod 256) (n + 1)
      else (n, v)
  end.

(** [net.simpleMaskLength]: [-1] when the mask is not ones then zeros. *)
Fixpoint simpleMaskLengthFrom (mask : list Z) (n : Z) : Z :=
  match mask with
  | [] => n
  | v :: rest =>
      if v =? 255 then simpleMaskLengthFrom rest (n + 8)
      else
        let '(n', v') := leadingOnes 8 v n in
        if negb (v' =? 0) then -1
        else if isZeros rest then n' else -1
  end.

Definition simpleMaskLength (mask : IPMask) : Z := simpleMaskLengthFrom mask 0.

(** [IPMask.Size]. *)
Definition Size (m : IPMask) : Z * Z :=
  let ones := simpleMaskLength m in
  if ones =? -1 then (0, 0) else (ones, Z.of_nat (length m) * 8).

Definition hexDigit (d : Z) : ascii :=
  if d <? 10 then charOf (48 + d) else charOf (97 + d - 10).

(** [net.hexString]: two lower-case hex digits a byte. *)
Fixpoint hexString (b : list Z) : string :=
  match b with
  | [] => EmptyString
  | v :: rest =>
      String (hexDigit (Z.shiftr v 4)) (String (hexDigit (Z.land v 15)) (hexString rest))
  end.

(** The dotted decimal form of four bytes. *)
Definition string4 (a b c d : Z) : string :=
  Strconv.Uitoa a +:+ "." +:+ Strconv.Uitoa b +:+ "." +:+ Strconv.Uitoa c
    +:+ "." +:+ Strconv.Uitoa d.

(** [netip.appendHex]: a 16-bit group in lower-case hex, no leading zeros. *)
Definition appendHex (x : Z) : string :=
  let d3 := Z.shiftr x 12 in
  let d2 := Z.land (Z.shiftr x 8) 15 in
  let d1 := Z.land (Z.shiftr x 4) 15 in
  let d0 := Z.land x 15 in
  let s0 := String (hexDigit d0) EmptyString in
  let s1 := String (hexDigit d1) s0 in
  let s2 := String (hexDigit d2) s1 in
  if 4096 <=? x then String (hexDigit d3) s2
  else if 256 <=? x then s2
  else if 16 <=? x then s1
  else s0.

(** The eight 16-bit groups of a 16-byte address. *)
Fixpoint groups16 (b : list Z) : list Z :=
  match b with
  | hi :: lo :: rest => (hi * 256 + lo) :: groups16 rest
  | _ => []
  end.

(** The index after the run of zero groups that starts at [j]. *)
Fixpoint zeroRunEnd (g : list Z) (j : nat) : nat :=
  match g with
  | x :: rest => if x =? 0 then zeroRunEnd rest (S j) else j
  | [] => j
  end.

(** The first loop of [netip.Addr.appendTo6]: the longest run of at least
    two zero groups, the first one when several are as long. *)
Fixpoint longestZeroRun (g : list Z) (i : nat) (zs ze : nat) : nat * nat :=
  match g with
  | [] => (zs, ze)
  | _ :: rest =>
      let j := zeroRunEnd g i in
      let l := (j - i)%nat in
      let '(zs', ze') :=
        if (2 <=? l)%nat && (ze - zs <? l)%nat then (i, j) else (zs, ze) in
      longestZeroRun rest (S i) zs' ze'
  end.

(** The second loop of [netip.Addr.appendTo6]: the groups of the run
    [zs..ze) are replaced by one "::". *)
Fixpoint appendGroups (g : list Z) (i : nat) (zs ze : nat) : string :=
  match g with
  | [] => EmptyString
  | x :: rest =>
      if (zs <=? i)%nat && (i <? ze)%nat then
        (if (i =? zs)%nat then "::" else "") +:+ appendGroups rest (S i) zs ze
      else
        (if (0 <? i)%nat && negb (i =? ze)%nat then ":" else "")
          +:+ appendHex x +:+ appendGroups rest (S i) zs ze
  end.

Definition string6 (b : list Z) : string :=
  let g := groups16 b in
  let '(zs, ze) := longestZeroRun g O 255%nat 255%nat in
  appendGroups g O zs ze.

(** [IP.String]. *)
Definition IPString (ip : IP) : string :=
  if (length ip =? 0)%nat then "<nil>"
  else if negb (length ip =? IPv4len)%nat && negb (length ip =? IPv6len)%nat
  then "?" +:+ hexString ip
  else
    match To4 ip with
    | [a; b; c; d] => string4 a b c d
    | _ => string6 ip
    end.

(** [IPMask.String]. *)
Definition MaskString (m : IPMask) : string :=
  if (length m =? 0)%nat then "<nil>" else hexString m.

(** [net.IPNet]. *)
Record IPNet : Type := mkIPNet { NetIP : IP; NetMask : IPMask }.

(** [net.dtoi]: the decimal number at the start of [s], the number of
    bytes it takes, and whether there is one (below [0xFFFFFF]). *)
Fixpoint dtoiLoop (s : string) (n : Z) (i : nat) : Z * nat * bool :=
  match s with
  | String c rest =>
      if isDigit c then
        let n' := n * 10 + digitVal c in
        if 16777215 <=? n' then (16777215, i, false)
        else dtoiLoop rest n' (S i)
      else if (i =? 0)%nat then (0, O, false) else (n, i, true)
  | EmptyString => if (i =? 0)%nat then (0, O, false) else (n, i, true)
  end.

Definition dtoi (s : string) : Z * nat * bool := dtoiLoop s 0 O.

(** [net.ParseCIDR]: the address and the network, or an error. *)
Definition ParseCIDR (s : string) : option (IP * IPNet) :=
  match cut "/"%char s with
  | None => None
  | Some (addr, mask) =>
      match ParseAddr addr with
      | None => None
      | Some ipAddr =>
          if negb (isEmpty (Zone ipAddr)) then None else
          let '(n, i, ok) := dtoi mask in
          if negb ok || negb (i =? String.length mask)%nat
             || (n <? 0) || (BitLen ipAddr <? n)
          then None
          else
            let m := CIDRMask n (BitLen ipAddr) in
            let addr16 := As16 ipAddr in
            Some (addr16, mkIPNet (Mask addr16 m) m)
      end
  end.

(** [net.networkNumberAndMask]. *)
Definition networkNumberAndMask (n : IPNet) : option (IP * IPMask) :=
  let ip4 := To4 (NetIP n) in
  let ip := if isNil ip4 then NetIP n else ip4 in
  if isNil ip4 && negb (length ip =? IPv6len)%nat then None
  else
    let m := NetMask n in
    if (length m =? IPv4len)%nat then
      if negb (length ip =? IPv4len)%nat then None else Some (ip, m)
    else if (length m =? IPv6len)%nat then
      if (length ip =? IPv4len)%nat then Some (ip, drop 12 m) else Some (ip, m)
    else None.

(** [IPNet.String]. *)
Definition IPNetString (n : IPNet) : string :=
  match networkNumberAndMask n with
  | None => "<nil>"
  | Some (nn, m) =>
      let l := simpleMaskLength m in
      if l =? -1 then IPString nn +:+ "/" +:+ MaskString m
      else IPString nn +:+ "/" +:+ Strconv.Uitoa l
  end.

End Net.

(** ** Packages crypto/md5, crypto/sha256 and encoding/hex *)

Module Crypto.

Definition bytesOf (s : string) : list Z := map byteOf (list_ascii_of_string s).

Definition w32 (x : Z) : Z := x mod 2 ^ 32.

Definition rotl32 (x n : Z) : Z :=
  w32 (Z.lor (Z.shiftl x n) (Z.shiftr x (32 - n))).

Definition rotr32 (x n : Z) : Z :=
  w32 (Z.lor (Z.shiftr x n) (Z.shiftl x (32 - n))).

Definition not32 (x : Z) : Z := w32 (Z.lnot x).

(** The bytes of a [w]-byte number, least significant first. *)
Fixpoint leBytes (w : nat) (x : Z) : list Z :=
  match w with
  | O => []
  | S w' => (x mod 256) :: leBytes w' (x / 256)
  end.

Definition beBytes (w : nat) (x : Z) : list Z := rev (leBytes w x).

Definition leWord (b : list Z) : Z := fold_right (fun x acc => x + 256 * acc) 0 b.
Definition beWord (b : list Z) : Z := fold_left (fun acc x => 256 * acc + x) b 0.

(** The message with its padding: a one bit, zeros up to 56 modulo 64, and
    the length in bits on 8 bytes. *)
Definition pad (lenBytes : nat -> Z -> list Z) (msg : list Z) : list Z :=
  let l := Z.of_nat (length msg) in
  let zeros := Z.to_nat ((55 - l) mod 64) in
  msg ++ [128] ++ replicate zeros 0 ++ lenBytes 8%nat (8 * l).

Definition words (toWord : list Z -> Z) (block : list Z) : list Z :=
  map toWord (chunks 16 4 block).

Definition blocks (padded : list Z) : list (list Z) :=
  chunks (length padded) 64 padded.

(** *** MD5 (RFC 1321) *)

Definition md5K : list Z :=
  [ 3614090360; 3905402710; 606105819; 3250441966; 4118548399; 1200080426;
    2821735955; 4249261313; 1770035416; 2336552879; 4294925233; 2304563134;
    1804603682; 4254626195; 2792965006; 1236535329; 4129170786; 3225465664;
    643717713; 3921069994; 3593408605; 38016083; 3634488961; 3889429448;
    568446438; 3275163606; 4107603335; 1163531501; 2850285829; 4243563512;
    1735328473; 2368359562; 4294588738; 2272392833; 1839030562; 4259657740;
    2763975236; 1272893353; 4139469664; 3200236656; 681279174; 3936430074;
    3572445317; 76029189; 3654602809; 3873151461; 530742520; 3299628645;
    4096336452; 1126891415; 2878612391; 4237533241; 1700485571; 2399980690;
    4293915773; 2240044497; 1873313359; 4264355552; 2734768916; 1309151649;
    4149444226; 3174756917; 718787259; 3951481745 ].

Definition md5S : list Z :=
  [ 7; 12; 17; 22; 7; 12; 17; 22; 7; 12; 17; 22; 7; 12; 17; 22;
    5; 9; 14; 20; 5; 9; 14; 20; 5; 9; 14; 20; 5; 9; 14; 20;
    4; 11; 16; 23; 4; 11; 16; 23; 4; 11; 16; 23; 4; 11; 16; 23;
    6; 10; 15; 21; 6; 10; 15; 21; 6; 10; 15; 21; 6; 10; 15; 21 ].

Definition md5Round (M : list Z) (st : Z * Z * Z * Z) (i : nat) : Z * Z * Z * Z :=
  let '(A, B, C, D) := st in
  let iz := Z.of_nat i in
  let '(F, g) :=
    if iz <? 16 then (Z.lor (Z.land B C) (Z.land (not32 B) D), iz)
    else if iz <? 32 then (Z.lor (Z.land D B) (Z.land (not32 D) C), (5 * iz + 1) mod 16)
    else if iz <? 48 then (Z.lxor (Z.lxor B C) D, (3 * iz + 5) mod 16)
    else (Z.lxor C (Z.lor B (not32 D)), (7 * iz) mod 16) in
  let F := w32 (F + A + nth i md5K 0 + nth (Z.to_nat g) M 0) in
  (D, w32 (B + rotl32 F (nth i md5S 0)), B, C).

Definition md5Block (h : Z * Z * Z * Z) (block : list Z) : Z * Z * Z * Z :=
  let '(a0, b0, c0, d0) := h in
  let '(A, B, C, D) := fold_left (md5Round (words leWord block)) (seq 0 64) h in
  (w32 (a0 + A), w32 (b0 + B), w32 (c0 + C), w32 (d0 + D)).

(** [md5.Sum]. *)
Definition md5Sum (data : list Z) : list Z :=
  let '(a, b, c, d) :=
    fold_left md5Block (blocks (pad leBytes data))
      (1732584193, 4023233417, 2562383102, 271733878) in
  leBytes 4 a ++ leBytes 4 b ++ leBytes 4 c ++ leBytes 4 d.

(** *** SHA-256 (FIPS 180-4) *)

Definition sha256K : list Z :=
  [ 1116352408; 1899447441; 3049323471; 3921009573; 961987163; 1508970993;
    2453635748; 2870763221; 3624381080; 310598401; 607225278; 1426881987;
    1925078388; 2162078206; 2614888103; 3248222580; 3835390401; 4022224774;
    264347078; 604807628; 770255983; 1249150122; 1555081692; 1996064986;
    2554220882; 2821834349; 2952996808; 3210313671; 3336571891; 3584528711;
    113926993; 338241895; 666307205; 773529912; 1294757372; 1396182291;
    1695183700; 1986661051; 2177026350; 2456956037; 2730485921; 2820302411;
    3259730800; 3345764771; 3516065817; 3600352804; 4094571909; 275423344;
    430227734; 506948616; 659060556; 883997877; 958139571; 1322822218;
    1537002063; 1747873779; 1955562222; 2024104815; 2227730452; 2361852424;
    2428436474; 2756734187; 3204031479; 3329325298 ].

Definition sha256H : list Z :=
  [ 1779033703; 3144134277; 1013904242; 2773480762;
    1359893119; 2600822924; 528734635; 1541459225 ].

(** The message schedule: word [i] from the words [i-16], [i-15], [i-7]
    and [i-2]. *)
Definition schedule (w : list Z) (i : nat) : list Z :=
  let w15 := nth (i - 15) w 0 in
  let w2 := nth (i - 2) w 0 in
  let s0 := Z.lxor (Z.lxor (rotr32 w15 7) (rotr32 w15 18)) (Z.shiftr w15 3) in
  let s1 := Z.lxor (Z.lxor (rotr32 w2 17) (rotr32 w2 19)) (Z.shiftr w2 10) in
  w ++ [w32 (nth (i - 16) w 0 + s0 + nth (i - 7) w 0 + s1)].

Definition sha256Round (w : list Z) (st : list Z) (i : nat) : list Z :=
  match st with
  | [a; b; c; d; e; f; g; h] =>
      let S1 := Z.lxor (Z.lxor (rotr32 e 6) (rotr32 e 11)) (rotr32 e 25) in
      let ch := Z.lxor (Z.land e f) (Z.land (not32 e) g) in
      let t1 := w32 (h + S1 + ch + nth i sha256K 0 + nth i w 0) in
      let S0 := Z.lxor (Z.lxor (rotr32 a 2) (rotr32 a 13)) (rotr32 a 22) in
      let maj := Z.lxor (Z.lxor (Z.land a b) (Z.land a c)) (Z.land b c) in
      let t2 := w32 (S0 + maj) in
      [w32 (t1 + t2); a; b; c; w32 (d + t1); e; f; g]
  | _ => st
  end.

Definition sha256Block (h : list Z) (block : list Z) : list Z :=
  let w := fold_left schedule (seq 16 48) (words beWord block) in
  let st := fold_left (sha256Round w) (seq 0 64) h in
  map (fun p => w32 (fst p + snd p)) (combine h st).

(** [sha256.Sum256]. *)
Definition sha256Sum256 (data : list Z) : list Z :=
  concat (map (beBytes 4) (fold_left sha256Block (blocks (pad beBytes data)) sha256H)).

(** [hex.EncodeToString]: two lower-case hex digits a byte. *)
Definition EncodeToString (b : list Z) : string := Net.hexString b.

(** The hex digest of a string, as [auth] computes both of its digests. *)
Definition md5Hex (s : string) : string := EncodeToString (md5Sum (bytesOf s)).
Definition sha256Hex (s : string) : string := EncodeToString (sha256Sum256 (bytesOf s)).

End Crypto.

(** ** Package unicode/utf8 *)

Module Utf8.

Definition RuneError : Z := 65533.   (* U+FFFD *)
Definition RuneSelf : Z := 128.
Definition MaxRune : Z := 1114111.   (* U+10FFFF *)

(** The table [first] with the accept ranges: for the first byte of a
    sequence of more than one byte, the size of the sequence and the range
    of its second byte; [None] for the bytes that start no such sequence. *)
Definition leading (s0 : Z) : option (nat * Z * Z) :=
  if (s0 <? 194) || (244 <? s0) then None
  else if s0 <? 224 then Some (2%nat, 128, 191)
  else if s0 =? 224 then Some (3%nat, 160, 191)
  else if s0 =? 237 then Some (3%nat, 128, 159)
  else if s0 <? 240 then Some (3%nat, 128, 191)
  else if s0 =? 240 then Some (4%nat, 144, 191)
  else if s0 =? 244 then Some (4%nat, 128, 143)
  else Some (4%nat, 128, 191).

(** A continuation byte: between [locb] and [hicb]. *)
Definition continuation (b : Z) : bool := (128 <=? b) && (b <=? 191).

(** [utf8.DecodeRuneInString]: the first rune of [s] and its width in
    bytes; [(RuneError, 1)] when the encoding is not valid, [(RuneError, 0)]
    when [s] is empty. *)
Definition DecodeRuneInString (s : string) : Z * nat :=
  match s with
  | EmptyString => (RuneError, 0%nat)
  | String c0 r0 =>
      let s0 := byteOf c0 in
      if s0 <? RuneSelf then (s0, 1%nat)
      else
        match leading s0 with
        | None => (RuneError, 1%nat)
        | Some (sz, lo, hi) =>
            if (String.length s <? sz)%nat then (RuneError, 1%nat)
            else
              match r0 with
              | EmptyString => (RuneError, 1%nat)
              | String c1 r1 =>
                  let s1 := byteOf c1 in
                  if (s1 <? lo) || (hi <? s1) then (RuneError, 1%nat)
                  else if (sz <=? 2)%nat
                  then (Z.lor (Z.shiftl (Z.land s0 31) 6) (Z.land s1 63), 2%nat)
                  else
                    match r1 with
                    | EmptyString => (RuneError, 1%nat)
                    | String c2 r2 =>
                        let s2 := byteOf c2 in
                        if negb (continuation s2) then (RuneError, 1%nat)
                        else if (sz <=? 3)%nat
                        then (Z.lor (Z.lor (Z.shiftl (Z.land s0 15) 12)
                                           (Z.shiftl (Z.land s1 63) 6))
                                    (Z.land s2 63), 3%nat)
                        else
                          match r2 with
                          | EmptyString => (RuneError, 1%nat)
                          | String c3 _ =>
                              let s3 := byteOf c3 in
                              if negb (continuation s3) then (RuneError, 1%nat)
                              else (Z.lor (Z.lor (Z.lor (Z.shiftl (Z.land s0 7) 18)
                                                        (Z.shiftl (Z.land s1 63) 12))
                                                 (Z.shiftl (Z.land s2 63) 6))
                                          (Z.land s3 63), 4%nat)
                          end
                    end
              end
        end
  end.

(** The first [n] bytes of a string, and the string without them. *)
Fixpoint takeBytes (n : nat) (s : string) : string :=
  match n, s with
  | S n', String c s' => String c (takeBytes n' s')
  | _, _ => EmptyString
  end.

Fixpoint dropBytes (n : nat) (s : string) : string :=
  match n, s with
  | S n', String _ s' => dropBytes n' s'
  | _, _ => s
  end.

(** The loop of [utf8.ValidString], rune by rune: no rune of the string
    decodes to [RuneError] with the width 1.  A rune takes one byte at
    least, so [fuel] bytes of fuel are enough for [fuel] bytes. *)
Fixpoint validRunes (fuel : nat) (s : string) : bool :=
  match fuel, s with
  | _, EmptyString => true
  | O, String _ _ => true
  | S fuel', String c rest =>
      if byteOf c <? RuneSelf then validRunes fuel' rest
      else
        let '(_, size) := DecodeRuneInString s in
        if (size =? 1)%nat then false
        else validRunes fuel' (dropBytes size s)
  end.

(** [utf8.ValidString]. *)
Definition ValidString (s : string) : bool := validRunes (String.length s) s.

(** [utf8.EncodeRune] (and [AppendRune]): the UTF-8 encoding of a rune, that
    of [RuneError] for a surrogate or a value out of range. *)
Definition EncodeRune (r : Z) : string :=
  let three (r : Z) : string :=
    String (charOf (Z.lor 224 (Z.shiftr r 12)))
      (String (charOf (Z.lor 128 (Z.land (Z.shiftr r 6) 63)))
         (String (charOf (Z.lor 128 (Z.land r 63))) EmptyString)) in
  if (0 <=? r) && (r <=? 127) then String (charOf r) EmptyString
  else if (0 <=? r) && (r <=? 2047) then
    String (charOf (Z.lor 192 (Z.shiftr r 6)))
      (String (charOf (Z.lor 128 (Z.land r 63))) EmptyString)
  else if (r <? 0) || (MaxRune <? r) || ((55296 <=? r) && (r <=? 57343))
  then three RuneError
  else if r <=? 65535 then three r
  else
    String (charOf (Z.lor 240 (Z.shiftr r 18)))
      (String (charOf (Z.lor 128 (Z.land (Z.shiftr r 12) 63)))
         (String (charOf (Z.lor 128 (Z.land (Z.shiftr r 6) 63)))
            (String (charOf (Z.lor 128 (Z.land r 63))) EmptyString))).

End Utf8.

(** ** Package encoding/json: the encoder *)

Module Json.

Definition quote : ascii := "034"%char.
Definition backslash : ascii := "092"%char.

(** A text between double quotes. *)
Definition quoted (s : string) : string :=
  String quote (s +:+ String quote EmptyString).

Definition hex : string := "0123456789abcdef".

(** [hex[d]]. *)
Definition hexAt (d : Z) : ascii :=
  match String.get (Z.to_nat d) hex with
  | Some c => c
  | None => "0"%char
  end.

(** [htmlSafeSet]: the ASCII characters that are written as they are: all
    from the space on but the double quote, the backslash and the three
    characters <, > and & of HTML. *)
Definition htmlSafeSet (b : Z) : bool :=
  (32 <=? b) && (b <? 128)
  && negb ((b =? 34) || (b =? 92) || (b =? 38) || (b =? 60) || (b =? 62)).

(** The switch of [appendString] on an ASCII byte that is not safe (as from
    Go 1.22, which writes the backspace and the form feed with their
    letters; before, with their four hex digits, which denote the same
    characters). *)
Definition escape (c : ascii) : string :=
  let b := byteOf c in
  if (b =? 92) || (b =? 34) then String backslash (String c EmptyString)
  else if b =? 8 then String backslash "b"
  else if b =? 12 then String backslash "f"
  else if b =? 10 then String backslash "n"
  else if b =? 13 then String backslash "r"
  else if b =? 9 then String backslash "t"
  else String backslash
         ("u00" +:+ String (hexAt (Z.shiftr b 4)) (String (hexAt (Z.land b 15)) EmptyString)).

(** The loop of [appendString] (with [escapeHTML], as [json.Marshal] calls
    it), rune by rune from the byte [i] on: [src] is [src[i:]].  What the
    loop copies later in one piece, [src[start:i]], is written here as it is
    passed.  The rune is decoded from four bytes at most, which is all that
    [DecodeRuneInString] reads.  A turn passes one byte at least. *)
Fixpoint appendRunes (fuel : nat) (src : string) : string :=
  match fuel, src with
  | S fuel', String c rest =>
      let b := byteOf c in
      if b <? Utf8.RuneSelf then
        (if htmlSafeSet b then String c EmptyString else escape c)
        +:+ appendRunes fuel' rest
      else
        let '(r, size) := Utf8.DecodeRuneInString src in
        if (r =? Utf8.RuneError) && (size =? 1)%nat
        then String backslash "ufffd" +:+ appendRunes fuel' rest
        else if (r =? 8232) || (r =? 8233)
        then String backslash ("u202" +:+ String (hexAt (Z.land r 15)) EmptyString)
             +:+ appendRunes fuel' (Utf8.dropBytes size src)
        else Utf8.takeBytes size src +:+ appendRunes fuel' (Utf8.dropBytes size src)
  | _, _ => EmptyString
  end.

(** [appendString]: the JSON string literal of a Go string. *)
Definition appendString (src : string) : string :=
  quoted (appendRunes (String.length src) src).

(** The elements of an array or the members of an object, with commas. *)
Fixpoint join (parts : list string) : string :=
  match parts with
  | [] => EmptyString
  | [p] => p
  | p :: parts' => p +:+ "," +:+ join parts'
  end.

Definition array (elements : list string) : string := "[" +:+ join elements +:+ "]".
Definition object (members : list string) : string := "{" +:+ join members +:+ "}".

(** A member of an object: its name and the text of its value. *)
Definition member (name value : string) : string :=
  appendString name +:+ ":" +:+ value.

(** [json.Marshal] of a [map[string]string]: the members in the order of
    their keys, as [strings.Compare] orders them. *)
Definition MarshalStringMap (m : gmap string string) : string :=
  let keys := merge_sort (fun a b => Is_true (String.leb a b)) (elements (dom m)) in
  object (map (fun k => member k (appendString (default "" (m !! k)))) keys).

(** [json.Marshal] of a bool and of an int. *)
Definition MarshalBool (b : bool) : string := if b then "true" else "false".
Definition MarshalInt (n : Z) : string := Strconv.Itoa n.

End Json.

(** ** Package routes *)

Module routes.

(** *** routeview.go *)

(** [RouteView] is a minimal interface for converting external routes. *)
Class RouteView (A : Type) : Type := {
  HostValue : A -> string;
  NetworkValue : A -> string;
  IPValue : A -> string;
  MaskValue : A -> string;
  PrefixValue : A -> Z;
  PrefixLenValue : A -> Z;
  CommentValue : A -> string;
  GatewayValue : A -> string;
  InterfaceValue : A -> string;
  AutoValue : A -> bool;
  RejectValue : A -> bool
}.

Definition isIPv4OrCIDR (s : string) : bool :=
  if Strings.Contains s "/" then
    match Net.ParseCIDR s with
    | None => false
    | Some (ip, _) => negb (Net.isNil (Net.To4 ip))
    end
  else
    let ip := Net.ParseIP s in
    if Net.isNil ip then false else negb (Net.isNil (Net.To4 ip)).

(** [fmt.Sprintf("%s/%d", network, prefix)]. *)
Definition withPrefix (network : string) (prefix : Z) : string :=
  network +:+ "/" +:+ Strconv.Itoa prefix.

(** [RouteDest] extracts destination from a route: "host" (IPv4 or CIDR),
    or "network"/"ip" + "mask"/"prefix".  Returns empty string if the
    destination is missing or not IPv4. *)
Definition RouteDest {A} `{RouteView A} (r : A) : string :=
  let h := HostValue r in
  if negb (isEmpty h) then
    if negb (isIPv4OrCIDR h) then "" else h
  else
    let network := NetworkValue r in
    let network := if isEmpty network then IPValue r else network in
    if isEmpty network then ""
    else if Net.isNil (Net.To4 (Net.ParseIP network)) then ""
    else
      let prefix := PrefixValue r in
      if (0 <? prefix) && (prefix <=? 32) then withPrefix network prefix
      else
        let prefix := PrefixLenValue r in
        if (0 <? prefix) && (prefix <=? 32) then withPrefix network prefix
        else
          let maskStr := MaskValue r in
          if isEmpty maskStr then network
          else
            let maskIP := Net.ParseIP maskStr in
            if Net.isNil maskIP then network
            else
              match Net.To4 maskIP with
              | [] => network
              | maskIP =>
                  let '(ones, _) :=
                    Net.Size (Net.IPv4Mask (nth 0 maskIP 0) (nth 1 maskIP 0)
                                           (nth 2 maskIP 0) (nth 3 maskIP 0)) in
                  withPrefix network ones
              end.

(** The [stubRoute] of parser_test.go: every accessor returns its field. *)
Record stubRoute : Type := mkStub {
  host : string; network : string; ip : string; mask : string;
  prefix : Z; prefixLen : Z;
  stubComment : string; stubGateway : string; stubIface : string;
  stubAuto : bool; stubReject : bool
}.

#[export] Instance stubRoute_view : RouteView stubRoute := {|
  HostValue := host; NetworkValue := network; IPValue := ip; MaskValue := mask;
  PrefixValue := prefix; PrefixLenValue := prefixLen;
  CommentValue := stubComment; GatewayValue := stubGateway;
  InterfaceValue := stubIface; AutoValue := stubAuto; RejectValue := stubReject
|}.

(** *** yaml.go *)

(** [Route] is a full route: host plus all Keenetic parameters. *)
Record Route : Type := mkRoute {
  Host : string;
  Comment : string;
  Gateway : string;
  Interface : string;
  Auto : bool;
  Reject : bool
}.

(** Modelled from the spec: the field [Domains] ("an ordered list of domains
    to be resolved"), which resolve.go reads and the declaration of the
    struct under src/ does not have.  The other fields are those of yaml.go:
    [RouteGroup] is a YAML group: shared params and list of hosts. *)
Record RouteGroup : Type := mkRouteGroup {
  GroupComment : string;
  GroupGateway : string;
  GroupInterface : string;
  GroupAuto : bool;
  GroupReject : bool;
  Hosts : list string;
  Domains : list string
}.

(** [RoutesFile] is the root YAML structure. *)
Record RoutesFile : Type := mkRoutesFile { Routes : list RouteGroup }.

(** The errors of [normalizeHost]. *)
Inductive HostError : Type :=
| EmptyHost            (* "empty host" *)
| InvalidCIDR          (* the error of net.ParseCIDR *)
| InvalidIPv4CIDR      (* "invalid IPv4 CIDR" *)
| InvalidIP            (* "invalid IP" *)
| InvalidIPv4.         (* "invalid IPv4" *)

(** [normalizeHost] validates and normalizes "IP" or "IP/CIDR" to a string
    form suitable for Keenetic host field. *)
Definition normalizeHost (s : string) : Result HostError string :=
  let s := Strings.TrimSpace s in
  if isEmpty s then Err EmptyHost
  else if Strings.Contains s "/" then
    match Net.ParseCIDR s with
    | None => Err InvalidCIDR
    | Some (ip, n) =>
        if Net.isNil (Net.To4 ip) then Err InvalidIPv4CIDR
        else Ok (Net.IPNetString n)
    end
  else
    let ip := Net.ParseIP s in
    if Net.isNil ip then Err InvalidIP
    else if Net.isNil (Net.To4 ip) then Err InvalidIPv4
    else Ok (Net.IPString ip).

(** How an error message names a group: [%q] of the comment, or ["#%d"] of
    a position. *)
Inductive Label : Type :=
| Quoted (comment : string)
| Position (n : Z).

(** The errors of a lookup: the resolver's own, or a literal address that
    is not IPv4. *)
Inductive LookupError : Type :=
| IPv6NotSupported      (* "IPv6 is not supported" *)
| ResolverError (msg : string).

(** The errors of the package, by their format strings. *)
Inductive Error : Type :=
| ErrExactlyOne (group : Label)
    (* "group L: set exactly one of gateway or interface" *)
| ErrHost (group : string) (h : string) (e : HostError)
    (* "group %q host %q: %w" *)
| ErrEmptyDomain (group : Label)
    (* "group L: empty domain entry" *)
| ErrDomain (group : Label) (domain : string) (e : LookupError)
    (* "group L domain %q: %w" *)
| ErrNoIPv4 (group : Label) (domain : string).
    (* "group L domain %q: no IPv4 records found" *)

Definition routeOf (g : RouteGroup) (norm : string) : Route :=
  {| Host := norm; Comment := GroupComment g; Gateway := GroupGateway g;
     Interface := GroupInterface g; Auto := GroupAuto g; Reject := GroupReject g |}.

(** The inner loop of [FlattenToEntries], over the hosts of one group. *)
Fixpoint flattenHosts (g : RouteGroup) (hosts : list string) (out : list Route)
    : Result Error (list Route) :=
  match hosts with
  | [] => Ok out
  | h :: hosts' =>
      match normalizeHost h with
      | Err e => Err (ErrHost (GroupComment g) h e)
      | Ok norm => flattenHosts g hosts' (out ++ [routeOf g norm])
      end
  end.

(** The outer loop of [FlattenToEntries], over the groups. *)
Fixpoint flattenGroups (groups : list RouteGroup) (out : list Route)
    : Result Error (list Route) :=
  match groups with
  | [] => Ok out
  | g :: groups' =>
      if (length (Hosts g) =? 0)%nat then flattenGroups groups' out
      else
        let hasGW := negb (isEmpty (GroupGateway g)) in
        let hasIface := negb (isEmpty (GroupInterface g)) in
        if Bool.eqb hasGW hasIface then Err (ErrExactlyOne (Quoted (GroupComment g)))
        else
          match flattenHosts g (Hosts g) out with
          | Err e => Err e
          | Ok out' => flattenGroups groups' out'
          end
  end.

(** [FlattenToEntries] converts RoutesFile to a slice of Route (one per
    host), normalizing hosts.  A nil file is [None]. *)
Definition FlattenToEntries (rf : option RoutesFile) : Result Error (list Route) :=
  match rf with
  | None => Ok []
  | Some rf =>
      if (length (Routes rf) =? 0)%nat then Ok []
      else flattenGroups (Routes rf) []
  end.

(** *** convert.go *)

(** [routeGroupKey] identifies a unique group by its shared route
    parameters. *)
Record routeGroupKey : Type := mkKey {
  comment : string;
  gateway : string;
  iface : string;
  auto : bool;
  reject : bool
}.

#[export] Instance routeGroupKey_eq_dec : EqDecision routeGroupKey.
Proof. solve_decision. Defined.

#[export] Instance routeGroupKey_countable : Countable routeGroupKey.
Proof.
  refine (inj_countable'
            (fun k => (comment k, gateway k, iface k, auto k, reject k))
            (fun t => let '(c, g, i, a, r) := t in mkKey c g i a r) _).
  intros []; reflexivity.
Defined.

Definition keyOf (r : Route) : routeGroupKey :=
  {| comment := Comment r; gateway := Gateway r; iface := Interface r;
     auto := Auto r; reject := Reject r |}.

(** One turn of the first loop of [ToYAML]: [grouped] and [order]. *)
Definition groupStep (st : gmap routeGroupKey (list string) * list routeGroupKey)
    (r : Route) : gmap routeGroupKey (list string) * list routeGroupKey :=
  let '(grouped, order) := st in
  if isEmpty (Host r) || negb (isIPv4OrCIDR (Host r)) then st
  else
    let k := keyOf r in
    let order' := match grouped !! k with
                  | Some _ => order
                  | None => order ++ [k]
                  end in
    (<[k := default [] (grouped !! k) ++ [Host r]]> grouped, order').

Definition groupOf (grouped : gmap routeGroupKey (list string)) (k : routeGroupKey)
    : RouteGroup :=
  {| GroupComment := comment k; GroupGateway := gateway k;
     GroupInterface := iface k; GroupAuto := auto k; GroupReject := reject k;
     Hosts := default [] (grouped !! k); Domains := [] |}.

(** [ToYAML] builds a RoutesFile from domain routes, grouping by comment
    and params. *)
Definition ToYAML (routesList : list Route) : RoutesFile :=
  let '(grouped, order) := fold_left groupStep routesList (∅, []) in
  {| Routes := map (groupOf grouped) order |}.

(** *** resolve.go *)

(** [ResolveSummary] describes the result of domain resolution. *)
Record ResolveSummary : Type := mkSummary {
  Groups : Z;
  DomainsResolved : Z;   (* the field Domains *)
  IPsAdded : Z
}.

(** [net.IPAddr]. *)
Record IPAddr : Type := mkIPAddr { AddrIP : Net.IP; AddrZone : string }.

(** [IPResolver] is a minimal DNS resolver interface.  The context of the
    call only bounds its time: running out of it is one of the errors. *)
Class IPResolver (R : Type) : Type := {
  LookupIPAddr : R -> string -> Result string (list IPAddr)
}.

Definition groupLabel (group : RouteGroup) (idx : Z) : Label :=
  if negb (isEmpty (GroupComment group)) then Quoted (GroupComment group)
  else Position (idx + 1).

(** The loop of [lookupIPv4] over the addresses of the answer. *)
Fixpoint keepIPv4 (addrs : list IPAddr) (seen : gset string) (ips : list string)
    : list string :=
  match addrs with
  | [] => ips
  | addr :: addrs' =>
      let ip4 := Net.To4 (AddrIP addr) in
      if negb (Net.isNil ip4) then
        let s := Net.IPString ip4 in
        if bool_decide (s ∈ seen) then keepIPv4 addrs' seen ips
        else keepIPv4 addrs' ({[s]} ∪ seen) (ips ++ [s])
      else keepIPv4 addrs' seen ips
  end.

Definition lookupIPv4 {R} `{IPResolver R} (resolver : R) (domain : string)
    : Result LookupError (list string) :=
  let ip := Net.ParseIP domain in
  if negb (Net.isNil ip) then
    let ip4 := Net.To4 ip in
    if negb (Net.isNil ip4) then Ok [Net.IPString ip4]
    else Err IPv6NotSupported
  else
    match LookupIPAddr resolver domain with
    | Err e => Err (ResolverError e)
    | Ok addrs => Ok (keepIPv4 addrs ∅ [])
    end.

(** The loop over [group.Hosts]: [seenHosts] and [mergedHosts]. *)
Fixpoint mergeHosts (hosts : list string) (seenHosts : gset string)
    (mergedHosts : list string) : gset string * list string :=
  match hosts with
  | [] => (seenHosts, mergedHosts)
  | h :: hosts' =>
      let trimmed := Strings.TrimSpace h in
      if isEmpty trimmed then mergeHosts hosts' seenHosts mergedHosts
      else if bool_decide (trimmed ∈ seenHosts) then mergeHosts hosts' seenHosts mergedHosts
      else mergeHosts hosts' ({[trimmed]} ∪ seenHosts) (mergedHosts ++ [trimmed])
  end.

(** The loop over the addresses of one domain. *)
Fixpoint mergeIPs (ips : list string) (seenHosts : gset string)
    (mergedHosts : list string) (summary : ResolveSummary)
    : gset string * list string * ResolveSummary :=
  match ips with
  | [] => (seenHosts, mergedHosts, summary)
  | ip :: ips' =>
      if bool_decide (ip ∈ seenHosts) then mergeIPs ips' seenHosts mergedHosts summary
      else mergeIPs ips' ({[ip]} ∪ seenHosts) (mergedHosts ++ [ip])
             {| Groups := Groups summary;
                DomainsResolved := DomainsResolved summary;
                IPsAdded := IPsAdded summary + 1 |}
  end.

(** The loop over [group.Domains].  Gives the merged hosts, or the error;
    the summary in both cases. *)
Fixpoint resolveGroupDomains {R} `{IPResolver R} (resolver : R)
    (group : RouteGroup) (i : Z) (domains : list string)
    (seenDomains seenHosts : gset string) (mergedHosts : list string)
    (summary : ResolveSummary) : ResolveSummary * Result Error (list string) :=
  match domains with
  | [] => (summary, Ok mergedHosts)
  | d :: domains' =>
      let domain := Strings.TrimSpace d in
      if isEmpty domain then (summary, Err (ErrEmptyDomain (groupLabel group i)))
      else if bool_decide (domain ∈ seenDomains)
      then resolveGroupDomains resolver group i domains' seenDomains seenHosts
             mergedHosts summary
      else
        let seenDomains := {[domain]} ∪ seenDomains in
        let summary := {| Groups := Groups summary;
                          DomainsResolved := DomainsResolved summary + 1;
                          IPsAdded := IPsAdded summary |} in
        match lookupIPv4 resolver domain with
        | Err e => (summary, Err (ErrDomain (groupLabel group i) domain e))
        | Ok ips =>
            if (length ips =? 0)%nat
            then (summary, Err (ErrNoIPv4 (groupLabel group i) domain))
            else
              let '(seenHosts, mergedHosts, summary) :=
                mergeIPs ips seenHosts mergedHosts summary in
              resolveGroupDomains resolver group i domains' seenDomains seenHosts
                mergedHosts summary
        end
  end.

Definition withHosts (g : RouteGroup) (hosts : list string) : RouteGroup :=
  {| GroupComment := GroupComment g; GroupGateway := GroupGateway g;
     GroupInterface := GroupInterface g; GroupAuto := GroupAuto g;
     GroupReject := GroupReject g; Hosts := hosts; Domains := Domains g |}.

(** The loop [for i := range rf.Routes]: [done] holds the groups before
    index [i], already updated in place, [todo] the groups from [i] on.
    Gives the groups as the call leaves them, the summary and the error. *)
Fixpoint resolveGroups {R} `{IPResolver R} (resolver : R)
    (done todo : list RouteGroup) (i : Z) (summary : ResolveSummary)
    : list RouteGroup * ResolveSummary * option Error :=
  match todo with
  | [] => (done, summary, None)
  | group :: todo' =>
      if (length (Domains group) =? 0)%nat
      then resolveGroups resolver (done ++ [group]) todo' (i + 1) summary
      else if Bool.eqb (isEmpty (GroupGateway group)) (isEmpty (GroupInterface group))
      then (done ++ todo, summary, Some (ErrExactlyOne (groupLabel group i)))
      else
        let summary := {| Groups := Groups summary + 1;
                          DomainsResolved := DomainsResolved summary;
                          IPsAdded := IPsAdded summary |} in
        let '(seenHosts, mergedHosts) := mergeHosts (Hosts group) ∅ [] in
        match resolveGroupDomains resolver group i (Domains group) ∅ seenHosts
                mergedHosts summary with
        | (summary, Err e) => (done ++ todo, summary, Some e)
        | (summary, Ok mergedHosts) =>
            resolveGroups resolver (done ++ [withHosts group mergedHosts]) todo'
              (i + 1) summary
        end
  end.

(** [ResolveDomainsWithResolver] resolves domains using the provided
    resolver.  The file is updated in place: the result carries it. *)
Definition ResolveDomainsWithResolver {R} `{IPResolver R}
    (rf : option RoutesFile) (resolver : R)
    : option RoutesFile * ResolveSummary * option Error :=
  let summary := mkSummary 0 0 0 in
  match rf with
  | None => (None, summary, None)
  | Some rf =>
      if (length (Routes rf) =? 0)%nat then (Some rf, summary, None)
      else
        let '(groups, summary, err) := resolveGroups resolver [] (Routes rf) 0 summary in
        (Some {| Routes := groups |}, summary, err)
  end.

End routes.

Import routes.

(** ** Package keenetic *)

Module keenetic.

(** *** The flexible scalar decoders (routes.go) *)

Definition routeBatchSize : nat := 50.

(** What the decoders use of [float64]: [strconv.ParseFloat(s, 64)]
    ([None] when it returns an error), the constant [0], [==],
    [math.Trunc] and the conversion [int(f)]. *)
Class Float64 (F : Type) : Type := {
  ParseFloat : string -> option F;
  fzero : F;
  feq : F -> F -> bool;
  Trunc : F -> F;
  toInt : F -> Z
}.

Definition firstByte (s : string) : option ascii :=
  match s with String c _ => Some c | EmptyString => None end.

Fixpoint lastByte (s : string) : option ascii :=
  match s with
  | EmptyString => None
  | String c EmptyString => Some c
  | String _ s' => lastByte s'
  end.

Definition quote : ascii := "034"%char.

(** The test that [s] has at least two bytes and starts and ends with a
    double quote. *)
Definition isQuoted (s : string) : bool :=
  (2 <=? strLen s)
  && bool_decide (firstByte s = Some quote)
  && bool_decide (lastByte s = Some quote).

(** The text the decoders look at: the data trimmed, and when it is
    quoted, the quotes removed and the inside trimmed again. *)
Definition unquote (s : string) : string :=
  if isQuoted s then Strings.TrimSpace (Strings.Trim1 s quote) else s.

Definition Boolish := bool.
Definition Intish := Z.
Definition Stringish := string.

(** [Boolish.UnmarshalJSON]: the receiver ([None] when it is nil) and
    the data give the receiver's new value and the error returned. *)
Definition Boolish_UnmarshalJSON {F} `{Float64 F} (b : option Boolish) (data : string)
    : option Boolish * option string :=
  match b with
  | None => (None, None)
  | Some _ =>
      let s := Strings.TrimSpace data in
      if isEmpty s || String.eqb s "null" then (Some false, None)
      else
        let s := unquote s in
        let l := Strings.ToLower s in
        if String.eqb l "true" || String.eqb l "1" || String.eqb l "yes"
        then (Some true, None)
        else if String.eqb l "false" || String.eqb l "0" || String.eqb l "no"
        then (Some false, None)
        else
          match ParseFloat s with
          | Some f => (Some (negb (feq f fzero)), None)
          | None => (Some false, None)
          end
  end.

(** [Intish.UnmarshalJSON]. *)
Definition Intish_UnmarshalJSON {F} `{Float64 F} (i : option Intish) (data : string)
    : option Intish * option string :=
  match i with
  | None => (None, None)
  | Some _ =>
      let s := Strings.TrimSpace data in
      if isEmpty s || String.eqb s "null" then (Some 0, None)
      else
        let s := unquote s in
        match Strconv.Atoi s with
        | Some n => (Some n, None)
        | None =>
            match ParseFloat s with
            | Some f =>
                if feq f (Trunc f) then (Some (toInt f), None)
                else (Some 0, None)
            | None => (Some 0, None)
            end
        end
  end.

(** *** The wire route *)

Record Route : Type := mkRoute {
  Host : option Stringish;
  Network : option Stringish;
  IP : option Stringish;
  Mask : option Stringish;
  Prefix : option Intish;
  PrefixLen : option Intish;
  Comment : option Stringish;
  Gateway : option Stringish;
  Interface : option Stringish;
  Auto : option Boolish;
  Reject : option Boolish;
  No : option bool
}.

Definition stringValue (v : option Stringish) : string :=
  match v with
  | None => ""
  | Some s => Strings.TrimSpace s
  end.

Definition boolValue (v : option Boolish) : bool :=
  match v with None => false | Some b => b end.

Definition intValue (v : option Intish) : Z :=
  match v with None => 0 | Some n => n end.

#[export] Instance Route_view : routes.RouteView Route := {|
  routes.HostValue r := stringValue (Host r);
  routes.NetworkValue r := stringValue (Network r);
  routes.IPValue r := stringValue (IP r);
  routes.MaskValue r := stringValue (Mask r);
  routes.PrefixValue r := intValue (Prefix r);
  routes.PrefixLenValue r := intValue (PrefixLen r);
  routes.CommentValue r := stringValue (Comment r);
  routes.GatewayValue r := stringValue (Gateway r);
  routes.InterfaceValue r := stringValue (Interface r);
  routes.AutoValue r := boolValue (Auto r);
  routes.RejectValue r := boolValue (Reject r)
|}.

Record RouteWrapper : Type := mkRouteWrapper { WrappedRoute : Route }.
Record RouteEnvelope : Type := mkRouteEnvelope { EnvelopeIP : RouteWrapper }.

Record ConfigSave : Type := mkConfigSave { Save : bool }.
Record SystemConfig : Type := mkSystemConfig { Configuration : ConfigSave }.
Record SaveConfig : Type := mkSaveConfig { System : SystemConfig }.

Definition routeEnvelope (route : Route) : RouteEnvelope :=
  {| EnvelopeIP := {| WrappedRoute := route |} |}.

Definition saveConfigPayload : SaveConfig :=
  {| System := {| Configuration := {| Save := true |} |} |}.

(** An element of a payload [[]any]: a route envelope or the save
    directive. *)
Inductive Item : Type :=
| EnvelopeItem (e : RouteEnvelope)
| SaveItem (s : SaveConfig).

(** *** Errors *)

Inductive Error : Type :=
| ErrAuthGet (e : string)             (* "auth GET: %w" *)
| ErrAuthGetStatus (status : Z)       (* "auth GET: unexpected status %d" *)
| ErrAuthMissing                      (* "auth: missing X-NDM-Realm or X-NDM-Challenge" *)
| ErrAuthPost (e : string)            (* "auth POST: %w" *)
| ErrAuthPostStatus (status : Z)      (* "auth POST: status %d" *)
| ErrBuildURL (e : string)            (* "build request URL: %w" *)
| ErrRequest (query : string) (e : string)   (* "request %s: %w" *)
| ErrStatus (query : string) (status : Z) (data : string)
                                      (* "request %s: status %d: %s" *)
| ErrDecode (e : string)              (* "decode routes: %w" *)
| ErrInvalidCIDR (h : string)         (* "invalid CIDR %q: %w" *)
| ErrAddRoutes (e : Error)            (* "add routes: %w" *)
| ErrAddRoutesBatch (i : Z) (e : Error)      (* "add routes batch at %d: %w" *)
| ErrUnsupported (h n i : string).
    (* "unsupported route destination (IPv4 only): host=%q network=%q ip=%q" *)

Definition emptyRoute : Route :=
  mkRoute None None None None None None None None None None None None.

Definition buildRoute (e : routes.Route) : Result Error Route :=
  let addressed : Result Error (option Stringish * option Stringish * option Stringish) :=
    if Strings.Contains (routes.Host e) "/" then
      match Net.ParseCIDR (routes.Host e) with
      | None => Err (ErrInvalidCIDR (routes.Host e))
      | Some (_, ipNet) =>
          Ok (None, Some (Net.IPString (Net.NetIP ipNet)),
              Some (Net.IPString (Net.NetMask ipNet)))
      end
    else Ok (Some (routes.Host e), None, None) in
  match addressed with
  | Err err => Err err
  | Ok (h, n, m) =>
      Ok {| Host := h; Network := n; IP := None; Mask := m;
            Prefix := None; PrefixLen := None;
            Comment := Some (routes.Comment e);
            Gateway := if negb (isEmpty (routes.Gateway e))
                       then Some (routes.Gateway e) else None;
            Interface := if negb (isEmpty (routes.Interface e))
                         then Some (routes.Interface e) else None;
            Auto := Some (routes.Auto e);
            Reject := if routes.Reject e then Some true else None;
            No := None |}
  end.

Fixpoint toDomainRoutesLoop (raw : list Route) (out : list routes.Route)
    : Result Error (list routes.Route) :=
  match raw with
  | [] => Ok out
  | r :: raw' =>
      let dest := routes.RouteDest r in
      if isEmpty dest
      then Err (ErrUnsupported (routes.HostValue r) (routes.NetworkValue r)
                               (routes.IPValue r))
      else toDomainRoutesLoop raw'
             (out ++ [ {| routes.Host := dest;
                          routes.Comment := routes.CommentValue r;
                          routes.Gateway := routes.GatewayValue r;
                          routes.Interface := routes.InterfaceValue r;
                          routes.Auto := routes.AutoValue r;
                          routes.Reject := routes.RejectValue r |} ])
  end.

Definition toDomainRoutes (raw : list Route) : Result Error (list routes.Route) :=
  toDomainRoutesLoop raw [].

(** *** The JSON encoding of the wire types *)

(** What [json.Marshal] writes for the types of the package, by their
    field tags.  A field of pointer type with [omitempty] is left out when
    the pointer is nil; the other fields are always written.  [Stringish],
    [Intish] and [Boolish] have no marshaller of their own: they are written
    as a string, an int and a bool. *)
Definition omitempty {A : Type} (name : string) (enc : A -> string) (v : option A)
    : list string :=
  match v with
  | None => []
  | Some x => [Json.member name (enc x)]
  end.

Definition MarshalRoute (r : Route) : string :=
  Json.object
    (omitempty "host" Json.appendString (Host r)
     ++ omitempty "network" Json.appendString (Network r)
     ++ omitempty "ip" Json.appendString (IP r)
     ++ omitempty "mask" Json.appendString (Mask r)
     ++ omitempty "prefix" Json.MarshalInt (Prefix r)
     ++ omitempty "prefixlen" Json.MarshalInt (PrefixLen r)
     ++ omitempty "comment" Json.appendString (Comment r)
     ++ omitempty "gateway" Json.appendString (Gateway r)
     ++ omitempty "interface" Json.appendString (Interface r)
     ++ omitempty "auto" Json.MarshalBool (Auto r)
     ++ omitempty "reject" Json.MarshalBool (Reject r)
     ++ omitempty "no" Json.MarshalBool (No r)).

Definition MarshalRouteEnvelope (e : RouteEnvelope) : string :=
  Json.object
    [Json.member "ip"
       (Json.object [Json.member "route" (MarshalRoute (WrappedRoute (EnvelopeIP e)))])].

Definition MarshalSaveConfig (s : SaveConfig) : string :=
  Json.object
    [Json.member "system"
       (Json.object
          [Json.member "configuration"
             (Json.object
                [Json.member "save" (Json.MarshalBool (Save (Configuration (System s))))])])].

Definition MarshalItem (it : Item) : string :=
  match it with
  | EnvelopeItem e => MarshalRouteEnvelope e
  | SaveItem s => MarshalSaveConfig s
  end.

(** [json.Marshal] of a payload [[]any].  (The payloads of the package are
    never nil: the save directive is always appended.) *)
Definition MarshalPayload (payload : list Item) : string :=
  Json.array (map MarshalItem payload).

(** *** The HTTP client (client.go) *)

Inductive Method : Type := GET | POST.

(** An [http.Request]: [ReqBody] holds the bytes of the body, [None] when
    there is no body; [ContentType] is the header, empty when it is not
    set. *)
Record HttpRequest : Type := mkRequest {
  ReqMethod : Method;
  ReqURL : string;
  ContentType : string;
  ReqBody : option string
}.

(** An [http.Response], its body read. *)
Record HttpResponse : Type := mkResponse {
  StatusCode : Z;
  Header : gmap string string;
  RespBody : string
}.

(** [Header.Get]: the empty string when the header is absent. *)
Definition HeaderGet (h : gmap string string) (key : string) : string :=
  default "" (h !! key).

Definition StatusOK : Z := 200.
Definition StatusUnauthorized : Z := 401.

(** What the client calls and this repository does not define: the
    [http.Client] with its cookie jar and the router behind it, a state [S]
    that every exchange may change ([Do]; an error stands for a request that
    cannot be built, sent or read); [url.JoinPath]; and [json.Unmarshal]
    into a slice of routes. *)
Class Platform (S : Type) : Type := {
  Do : S -> HttpRequest -> S * Result string HttpResponse;
  JoinPath : string -> string -> Result string string;
  UnmarshalRoutes : string -> Result string (list Route)
}.

(** [Client] is an HTTP client for Keenetic NDMS RCI API with session
    auth. *)
Record Client (S : Type) : Type := mkClient {
  baseURL : string;
  login : string;
  password : string;
  httpClient : S;
  authed : bool
}.
Arguments mkClient {S}.
Arguments baseURL {S}.
Arguments login {S}.
Arguments password {S}.
Arguments httpClient {S}.
Arguments authed {S}.

(** A method of the client: from the client to the result, the client as
    the call leaves it, and the requests sent, in order. *)
Definition M (S A : Type) : Type :=
  Client S -> Result Error A * Client S * list HttpRequest.

Definition ret {S A} (a : A) : M S A := fun c => (Ok a, c, []).

Definition fail {S A} (e : Error) : M S A := fun c => (Err e, c, []).

Definition bind {S A B} (m : M S A) (f : A -> M S B) : M S B :=
  fun c =>
    match m c with
    | (Ok a, c', sent) =>
        let '(r, c'', sent') := f a c' in (r, c'', sent ++ sent')
    | (Err e, c', sent) => (Err e, c', sent)
    end.

Notation "x <- m ;; k" := (bind m (fun x => k))
  (at level 100, m at next level, right associativity).
Notation "m ;;; k" := (bind m (fun _ => k))
  (at level 100, right associativity).

Definition setAuthed {S} (b : bool) : M S unit :=
  fun c => (Ok tt, mkClient (baseURL c) (login c) (password c) (httpClient c) b, []).

Definition self {S} : M S (Client S) := fun c => (Ok c, c, []).

(** One exchange: [httpClient.Do(req)] and the reading of the body. *)
Definition send {S} `{Platform S} (req : HttpRequest) : M S (Result string HttpResponse) :=
  fun c =>
    let '(s', r) := Do (httpClient c) req in
    (Ok r, mkClient (baseURL c) (login c) (password c) s' (authed c), [req]).

(** [errors] of another call, wrapped. *)
Definition wrap {S A} (f : Error -> Error) (m : M S A) : M S A :=
  fun c =>
    match m c with
    | (Err e, c', sent) => (Err (f e), c', sent)
    | r => r
    end.

Definition authURL {S} (c : Client S) : string := baseURL c +:+ "/auth".

(** The body of the POST of [auth], before it is marshalled. *)
Definition authBody (login password realm challenge : string) : gmap string string :=
  let md5Hex := Crypto.md5Hex (login +:+ ":" +:+ realm +:+ ":" +:+ password) in
  let shaInput := challenge +:+ md5Hex in
  let shaHex := Crypto.sha256Hex shaInput in
  <["password" := shaHex]> (<["login" := login]> ∅).

(** [auth] performs NDMS auth: GET auth, on 401 compute
    MD5(login:realm:password) then SHA256(challenge+md5_hex), POST auth.
    ([json.Marshal] of a map of strings does not fail.) *)
Definition auth {S} `{Platform S} : M S unit :=
  c <- self ;;
  if authed c then ret tt
  else
    r <- send (mkRequest GET (authURL c) "" None) ;;
    match r with
    | Err e => fail (ErrAuthGet e)
    | Ok getResp =>
        if StatusCode getResp =? StatusOK then setAuthed true
        else if negb (StatusCode getResp =? StatusUnauthorized)
        then fail (ErrAuthGetStatus (StatusCode getResp))
        else
          let realm := HeaderGet (Header getResp) "X-NDM-Realm" in
          let challenge := HeaderGet (Header getResp) "X-NDM-Challenge" in
          if isEmpty realm || isEmpty challenge then fail ErrAuthMissing
          else
            let body := authBody (login c) (password c) realm challenge in
            let bodyBytes := Json.MarshalStringMap body in
            r <- send (mkRequest POST (authURL c) "application/json" (Some bodyBytes)) ;;
            match r with
            | Err e => fail (ErrAuthPost e)
            | Ok postResp =>
                if negb (StatusCode postResp =? StatusOK)
                then fail (ErrAuthPostStatus (StatusCode postResp))
                else setAuthed true
            end
    end.

(** [doRequest]: GET when there is no body, POST with a JSON body
    otherwise.  Gives the status and the data. *)
Definition doRequest {S} `{Platform S} (u query : string) (bodyBytes : option string)
    : M S (Z * string) :=
  let req :=
    match bodyBytes with
    | None => mkRequest GET u "" None
    | Some b => mkRequest POST u "application/json" (Some b)
    end in
  r <- send req ;;
  match r with
  | Err e => fail (ErrRequest query e)
  | Ok resp => ret (StatusCode resp, RespBody resp)
  end.

(** [Request] performs a request after ensuring auth.  GET if body is nil,
    POST with JSON body otherwise.  The bodies of the package are payloads,
    and [json.Marshal] of a payload does not fail. *)
Definition Request {S} `{Platform S} (query : string) (body : option (list Item))
    : M S string :=
  auth ;;;
  c <- self ;;
  match JoinPath (baseURL c) query with
  | Err e => fail (ErrBuildURL e)
  | Ok u =>
      let bodyBytes :=
        match body with
        | None => None
        | Some payload => Some (MarshalPayload payload)
        end in
      r <- doRequest u query bodyBytes ;;
      r' <- (if fst r =? StatusUnauthorized then
               setAuthed false ;;;
               auth ;;;
               doRequest u query bodyBytes
             else ret r) ;;
      if negb (fst r' =? StatusOK)
      then fail (ErrStatus query (fst r') (snd r'))
      else ret (snd r')
  end.

(** *** The route operations (routes.go) *)

(** [GetRoutes] returns current static routes from the router
    (GET rci/ip/route). *)
Definition GetRoutes {S} `{Platform S} : M S (list Route) :=
  data <- Request "rci/ip/route" None ;;
  match UnmarshalRoutes data with
  | Err e => fail (ErrDecode e)
  | Ok routes => ret routes
  end.

(** [GetDomainRoutes] returns current static routes converted to the
    domain model. *)
Definition GetDomainRoutes {S} `{Platform S} : M S (list routes.Route) :=
  raw <- GetRoutes ;;
  match toDomainRoutes raw with
  | Err e => fail e
  | Ok out => ret out
  end.




(** The inner loop of [AddRoutes], over the entries of one batch. *)
Fixpoint batchPayload (batch : list routes.Route) (payload : list Item)
    : Result Error (list Item) :=
  match batch with
  | [] => Ok payload
  | e :: batch' =>
      match buildRoute e with
      | Err err => Err (ErrAddRoutes err)
      | Ok route => batchPayload batch' (payload ++ [EnvelopeItem (routeEnvelope route)])
      end
  end.

(** The outer loop of [AddRoutes],
    [for i := 0; i < len(entries); i += routeBatchSize].  Every turn adds
    50 to [i], so [len(entries)] turns are enough; [fuel] counts them. *)
Fixpoint addBatches {S} `{Platform S} (fuel : nat) (entries : list routes.Route)
    (i : nat) : M S unit :=
  if negb (i <? length entries)%nat then ret tt
  else
    match fuel with
    | O => ret tt
    | S fuel' =>
        let end_ := Nat.min (i + routeBatchSize) (length entries) in
        let batch := drop i (take end_ entries) in
        match batchPayload batch [] with
        | Err e => fail e
        | Ok payload =>
            let payload := payload ++ [SaveItem saveConfigPayload] in
            wrap (ErrAddRoutesBatch (Z.of_nat i))
                 (Request "rci/" (Some payload)) ;;;
            addBatches fuel' entries (i + routeBatchSize)%nat
        end
    end.

(** [AddRoutes] adds static routes from entries (each with its own
    params), then save.  Sends in batches. *)
Definition AddRoutes {S} `{Platform S} (entries : list routes.Route) : M S unit :=
  if (length entries =? 0)%nat then ret tt
  else addBatches (length entries) entries 0.

End keenetic.

(** * Vocabulary of the properties *)

(** ** Groups and resolvers *)

(** A group breaks the rule "exactly one of gateway or interface" when it
    sets both or neither. *)
Definition breaksRule (g : RouteGroup) : bool :=
  Bool.eqb (isEmpty (GroupGateway g)) (isEmpty (GroupInterface g)).

(** A resolver for examples: a table from names to answers; a name that is
    not in the table does not resolve. *)
Definition tableResolver : Type := list (string * list IPAddr).

Fixpoint tableLookup (t : tableResolver) (name : string)
    : Result string (list IPAddr) :=
  match t with
  | [] => Err "no such host"%string
  | (n, addrs) :: t' => if String.eqb n name then Ok addrs else tableLookup t' name
  end.

#[export] Instance tableResolver_resolver : IPResolver tableResolver :=
  {| LookupIPAddr := tableLookup |}.

(** Groups for examples: a well-formed one, one that sets both gateway and
    interface, and one that sets neither and has no comment. *)
Definition groupOk : RouteGroup :=
  mkRouteGroup "ok" "10.0.0.1" "" false false ["8.8.8.8"%string] ["dns.example"%string].
Definition groupBoth : RouteGroup :=
  mkRouteGroup "both" "10.0.0.1" "Wireguard0" false false
    ["1.1.1.1"%string] ["one.example"%string].
Definition groupNeither : RouteGroup :=
  mkRouteGroup "" "" "" false false ["1.1.1.1"%string] ["one.example"%string].
Definition dnsTable : tableResolver :=
  [("dns.example"%string, [mkIPAddr [8; 8; 4; 4] ""])].

(** ** Destinations and addresses *)

(** The network address of a record without host: [network], or [ip] when
    [network] is empty. *)
Definition networkOf {A : Type} `{RouteView A} (r : A) : string :=
  if isEmpty (NetworkValue r) then IPValue r else NetworkValue r.

(** A prefix length that counts: from 1 to 32. *)
Definition validPrefix (p : Z) : bool := (0 <? p) && (p <=? 32).

(** The bit length of a mask string, by [net.IPv4Mask(...).Size()]; [None]
    when the string is empty or is not an IPv4 address. *)
Definition maskBits (maskStr : string) : option Z :=
  if isEmpty maskStr then None
  else
    match Net.To4 (Net.ParseIP maskStr) with
    | [] => None
    | m => Some (fst (Net.Size (Net.IPv4Mask (nth 0 m 0) (nth 1 m 0) (nth 2 m 0) (nth 3 m 0))))
    end.

(** The dotted mask of a prefix length, as [buildRoute] prints it. *)
Definition maskOfPrefix (p : Z) : string := Net.IPString (Net.CIDRMask p 32).

Definition maskRoundTrip (p : Z) : bool :=
  match maskBits (maskOfPrefix p) with
  | Some ones => ones =? p
  | None => false
  end.

Fixpoint allChars (P : ascii -> bool) (s : string) : bool :=
  match s with
  | EmptyString => true
  | String c s' => P c && allChars P s'
  end.

(** The characters of an address without zone: hex digits, '.' and ':'. *)
Definition addrChar (c : ascii) : bool :=
  match Net.hexVal c with
  | Some _ => true
  | None => Ascii.eqb c "."%char || Ascii.eqb c ":"%char
  end.

Definition digitOrDot (c : ascii) : bool := isDigit c || Ascii.eqb c "."%char.

(** An IPv6 address: [net.ParseIP] accepts it and [To4] is nil. *)
Definition isIPv6Addr (s : string) : bool :=
  negb (Net.isNil (Net.ParseIP s)) && Net.isNil (Net.To4 (Net.ParseIP s)).

(** An IPv6 CIDR: [net.ParseCIDR] accepts it and [To4] of the address is
    nil. *)
Definition isIPv6CIDR (s : string) : bool :=
  match Net.ParseCIDR s with
  | Some (ip, _) => Net.isNil (Net.To4 ip)
  | None => false
  end.

(** An IPv6 value: an IPv6 address or an IPv6 CIDR. *)
Definition isIPv6 (s : string) : bool := isIPv6Addr s || isIPv6CIDR s.

(** Whether [l] starts with a rune that [trimRunes] drops. *)
Definition startsRune (p1 : ascii -> bool) (p2 : ascii -> ascii -> bool)
    (p3 : ascii -> ascii -> ascii -> bool) (l : list ascii) : bool :=
  match l with
  | c1 :: r1 =>
      p1 c1 ||
      match r1 with
      | c2 :: r2 =>
          p2 c1 c2 ||
          match r2 with
          | c3 :: _ => p3 c1 c2 c3
          | [] => false
          end
      | [] => false
      end
  | [] => false
  end.

(** A byte that neither starts nor ends the encoding of a white-space rune:
    a printable ASCII character. *)
Definition plain (c : ascii) : bool := (33 <=? byteOf c) && (byteOf c <? 128).

(** ** Normal forms *)

(** The destination that flattening gives for a host of a group: the
    normal form of a valid one. *)
Definition normalForm (h : string) : string :=
  match normalizeHost h with
  | Ok n => n
  | Err _ => h
  end.

(** The group of the key [k] with the hosts [hosts]. *)
Definition groupWith (k : routeGroupKey) (hosts : list string) : RouteGroup :=
  {| GroupComment := comment k; GroupGateway := gateway k;
     GroupInterface := iface k; GroupAuto := auto k; GroupReject := reject k;
     Hosts := hosts; Domains := [] |}.

(** A route with its destination in normal form. *)
Definition normalRoute (r : routes.Route) : routes.Route :=
  {| routes.Host := normalForm (routes.Host r); routes.Comment := routes.Comment r;
     routes.Gateway := routes.Gateway r; routes.Interface := routes.Interface r;
     routes.Auto := routes.Auto r; routes.Reject := routes.Reject r |}.

(** ** Flexible scalars *)

(** The text the decoders decide on: the data trimmed and unquoted. *)
Definition scalarText (data : string) : string :=
  keenetic.unquote (Strings.TrimSpace data).

(** Null or empty data. *)
Definition isNullish (data : string) : bool :=
  isEmpty (Strings.TrimSpace data) || String.eqb (Strings.TrimSpace data) "null".

Definition saysTrue (data : string) : bool :=
  let l := Strings.ToLower (scalarText data) in
  String.eqb l "true" || String.eqb l "1" || String.eqb l "yes".

Definition saysFalse (data : string) : bool :=
  let l := Strings.ToLower (scalarText data) in
  String.eqb l "false" || String.eqb l "0" || String.eqb l "no".

(** For examples, floats that are the whole numbers in decimal, exactly. *)
#[export] Instance wholeFloats : keenetic.Float64 Z := {|
  keenetic.ParseFloat := Strconv.Atoi;
  keenetic.fzero := 0;
  keenetic.feq := Z.eqb;
  keenetic.Trunc := fun f => f;
  keenetic.toInt := fun f => f
|}.

(** ** JSON texts *)

(** An example text, written with the apostrophe for the double quote. *)
Fixpoint fromSingle (s : string) : string :=
  match s with
  | EmptyString => EmptyString
  | String c s' =>
      String (if Ascii.eqb c "'"%char then Json.quote else c) (fromSingle s')
  end.

(** What an escape of one letter stands for (RFC 8259, section 7). *)
Definition unescape (e : ascii) : option ascii :=
  let b := byteOf e in
  if (b =? 34) || (b =? 92) || (b =? 47) then Some e
  else if b =? 98 then Some (charOf 8)
  else if b =? 102 then Some (charOf 12)
  else if b =? 110 then Some (charOf 10)
  else if b =? 114 then Some (charOf 13)
  else if b =? 116 then Some (charOf 9)
  else None.

(** The code point of the four hex digits of an escape. *)
Definition hex4 (h1 h2 h3 h4 : ascii) : option Z :=
  match Net.hexVal h1, Net.hexVal h2, Net.hexVal h3, Net.hexVal h4 with
  | Some d1, Some d2, Some d3, Some d4 => Some (((d1 * 16 + d2) * 16 + d3) * 16 + d4)
  | _, _, _, _ => None
  end.

(** The string that the inside of a JSON string literal in UTF-8 denotes,
    up to its closing quote, which must end the text (RFC 8259, section
    7): a byte outside an escape stands for itself, an escape of one letter
    for its character, an escape of four hex digits for the UTF-8 encoding
    of its code point.  [None] for a text that is no literal: a control
    character, an unknown escape, no closing quote or text after it.  An
    escape of a surrogate, which [json.Marshal] never writes, is not read
    either. *)
Fixpoint readChars (s : string) : option string :=
  match s with
  | EmptyString => None
  | String c rest =>
      if Ascii.eqb c Json.quote then (if isEmpty rest then Some EmptyString else None)
      else if Ascii.eqb c Json.backslash then
        match rest with
        | EmptyString => None
        | String e rest' =>
            if Ascii.eqb e "u"%char then
              match rest' with
              | String h1 (String h2 (String h3 (String h4 rest''))) =>
                  match hex4 h1 h2 h3 h4 with
                  | Some r =>
                      if (55296 <=? r) && (r <=? 57343) then None
                      else
                        match readChars rest'' with
                        | Some t => Some (Utf8.EncodeRune r +:+ t)
                        | None => None
                        end
                  | None => None
                  end
              | _ => None
              end
            else
              match unescape e, readChars rest' with
              | Some b, Some t => Some (String b t)
              | _, _ => None
              end
        end
      else if byteOf c <? 32 then None
      else
        match readChars rest with
        | Some t => Some (String c t)
        | None => None
        end
  end.

(** The string that a JSON string literal denotes. *)
Definition readString (literal : string) : option string :=
  match literal with
  | String c rest => if Ascii.eqb c Json.quote then readChars rest else None
  | EmptyString => None
  end.

(** The characters that [json.Marshal] writes as they are. *)
Definition jsonPlain (c : ascii) : bool := Json.htmlSafeSet (byteOf c).

(** The lower-case hex digits. *)
Definition hexChar (c : ascii) : bool :=
  let b := byteOf c in
  ((48 <=? b) && (b <=? 57)) || ((97 <=? b) && (b <=? 102)).

(** ** The session client and its routers *)

(** Runs the plumbing of the client monad. *)
Ltac run :=
  cbv beta iota zeta delta
    [keenetic.bind keenetic.ret keenetic.fail keenetic.self keenetic.send
     keenetic.setAuthed keenetic.wrap keenetic.httpClient keenetic.authed
     keenetic.baseURL keenetic.login keenetic.password fst snd];
  cbn [app].

(** The digest that the router expects as password: the lower-case hex
    SHA-256 of the challenge followed by the lower-case hex MD5 of
    "login:realm:password". *)
Definition passwordDigest (login password realm challenge : string) : string :=
  Crypto.sha256Hex
    (challenge +:+ Crypto.md5Hex (login +:+ ":" +:+ realm +:+ ":" +:+ password)).

(** The JSON object of the two members [login] and [password], from the
    literal of the login and the digest. *)
Definition sessionText (loginLiteral digest : string) : string :=
  fromSingle "{'login':" +:+ loginLiteral +:+ fromSingle ",'password':'" +:+ digest
    +:+ fromSingle "'}".

(** The probe and the POST of the handshake. *)
Definition authProbe {S : Type} (c : keenetic.Client S) : keenetic.HttpRequest :=
  keenetic.mkRequest keenetic.GET (keenetic.authURL c) "" None.

Definition authPost {S : Type} (c : keenetic.Client S) (realm challenge : string)
    : keenetic.HttpRequest :=
  keenetic.mkRequest keenetic.POST (keenetic.authURL c) "application/json"
    (Some (sessionText (Json.appendString (keenetic.login c))
             (passwordDigest (keenetic.login c) (keenetic.password c) realm challenge))).

(** The client with another transport state and flag. *)
Definition withState {S : Type} (c : keenetic.Client S) (s : S) (a : bool)
    : keenetic.Client S :=
  keenetic.mkClient (keenetic.baseURL c) (keenetic.login c) (keenetic.password c) s a.

(** The request of [doRequest]. *)
Definition requestOf (u : string) (bodyBytes : option string) : keenetic.HttpRequest :=
  match bodyBytes with
  | None => keenetic.mkRequest keenetic.GET u "" None
  | Some b => keenetic.mkRequest keenetic.POST u "application/json" (Some b)
  end.

(** The bytes of the body of a request, from the payload. *)
Definition marshalled (body : option (list keenetic.Item)) : option string :=
  match body with
  | None => None
  | Some payload => Some (keenetic.MarshalPayload payload)
  end.

(** A router keeps the session open for the requests to [u]: in every
    state of [inSession] it answers such a request with 200 and stays in
    [inSession]. *)
Definition accepts {S : Type} `{keenetic.Platform S} (inSession : S -> Prop) (u : string)
    : Prop :=
  forall (s : S) (req : keenetic.HttpRequest),
    inSession s -> keenetic.ReqURL req = u ->
    exists (s' : S) (resp : keenetic.HttpResponse),
      keenetic.Do s req = (s', Ok resp)
      /\ keenetic.StatusCode resp = keenetic.StatusOK
      /\ inSession s'.

(** The persist directive, as it is sent. *)
Definition persistText : string :=
  fromSingle "{'system':{'configuration':{'save':true}}}".

(** The envelope of a wire record, as it is sent. *)
Definition envelopeText (r : keenetic.Route) : string :=
  fromSingle "{'ip':{'route':" +:+ keenetic.MarshalRoute r +:+ "}}".

(** The wire record that the specification asks for an entry: the host for
    a destination without prefix, the network address and the dotted mask
    for a destination with a prefix; the comment and the auto flag; the
    gateway and the interface that are set; the reject flag when it is true;
    no delete directive. *)
Definition wireRecord (e : routes.Route) : keenetic.Route :=
  let some (s : string) : option keenetic.Stringish :=
    if isEmpty s then None else Some s in
  {| keenetic.Host :=
       match Net.ParseCIDR (routes.Host e) with
       | Some _ => None
       | None => Some (routes.Host e)
       end;
     keenetic.Network :=
       match Net.ParseCIDR (routes.Host e) with
       | Some (_, n) => Some (Net.IPString (Net.NetIP n))
       | None => None
       end;
     keenetic.IP := None;
     keenetic.Mask :=
       match Net.ParseCIDR (routes.Host e) with
       | Some (_, n) => Some (Net.IPString (Net.NetMask n))
       | None => None
       end;
     keenetic.Prefix := None;
     keenetic.PrefixLen := None;
     keenetic.Comment := Some (routes.Comment e);
     keenetic.Gateway := some (routes.Gateway e);
     keenetic.Interface := some (routes.Interface e);
     keenetic.Auto := Some (routes.Auto e);
     keenetic.Reject := if routes.Reject e then Some true else None;
     keenetic.No := None |}.

(** The JSON array of a batch: the envelopes of the wire records of its
    entries, in order, then the persist directive. *)
Definition batchText (batch : list routes.Route) : string :=
  Json.array (map (fun e => envelopeText (wireRecord e)) batch ++ [persistText]).

Definition batchRequest (u : string) (batch : list routes.Route) : keenetic.HttpRequest :=
  keenetic.mkRequest keenetic.POST u "application/json" (Some (batchText batch)).

(** The batches of a list of entries: pieces of 50, in order. *)
Definition batches (entries : list routes.Route) : list (list routes.Route) :=
  chunks (length entries) keenetic.routeBatchSize entries.



(** For examples, [url.JoinPath] on a base without final slash and a
    relative path, and [json.Unmarshal] on two texts: the empty list, and
    the list of the route to 8.8.8.8 with the comment "test". *)
Definition routerURL : string := "http://192.168.1.1".

Definition exampleJoinPath (base query : string) : Result string string :=
  Ok (base +:+ "/" +:+ query).

Definition stock : list keenetic.Route :=
  [ keenetic.mkRoute (Some "8.8.8.8"%string) None None None None None
      (Some "test"%string) None None None None None ].

Definition stockText : string := fromSingle "[{'host':'8.8.8.8','comment':'test'}]".

Definition exampleUnmarshalRoutes (data : string) : Result string (list keenetic.Route) :=
  if String.eqb data "[]" then Ok []
  else if String.eqb data stockText then Ok stock
  else Err "unexpected JSON"%string.

(** A router with sessions, in the manner of the server of
    [TestClientGetRoutesAuthFlow].  Out of a session it answers GET /auth
    with 401, the realm and the challenge, and any request to another path
    with 401; POST /auth is answered 200, and opens the session, when the
    body is the JSON object of the login and of the digest of the password,
    401 when it is not.  In a session every request is answered 200, a GET
    with the listing of the routes. *)
Record sessionRouter : Type := mkSessionRouter {
  srRealm : string;
  srChallenge : string;
  srLogin : string;
  srPassword : string;
  listing : string;
  loggedIn : bool
}.

Definition sessionDo (s : sessionRouter) (req : keenetic.HttpRequest)
    : sessionRouter * Result string keenetic.HttpResponse :=
  let expected :=
    sessionText (Json.appendString (srLogin s))
      (passwordDigest (srLogin s) (srPassword s) (srRealm s) (srChallenge s)) in
  let data :=
    match keenetic.ReqMethod req with
    | keenetic.GET => listing s
    | keenetic.POST => ""%string
    end in
  if loggedIn s then (s, Ok (keenetic.mkResponse 200 ∅ data))
  else if String.eqb (keenetic.ReqURL req) (routerURL +:+ "/auth") then
    match keenetic.ReqMethod req, keenetic.ReqBody req with
    | keenetic.GET, _ =>
        (s, Ok (keenetic.mkResponse 401
                  (<["X-NDM-Realm"%string := srRealm s]>
                     (<["X-NDM-Challenge"%string := srChallenge s]> ∅)) ""))
    | keenetic.POST, Some body =>
        if String.eqb body expected
        then (mkSessionRouter (srRealm s) (srChallenge s) (srLogin s) (srPassword s)
                (listing s) true,
              Ok (keenetic.mkResponse 200 ∅ ""))
        else (s, Ok (keenetic.mkResponse 401 ∅ ""))
    | keenetic.POST, None => (s, Ok (keenetic.mkResponse 400 ∅ ""))
    end
  else (s, Ok (keenetic.mkResponse 401 ∅ "")).

#[export] Instance sessionRouter_platform : keenetic.Platform sessionRouter := {|
  keenetic.Do := sessionDo;
  keenetic.JoinPath := exampleJoinPath;
  keenetic.UnmarshalRoutes := exampleUnmarshalRoutes
|}.

(** The client of the scenario of the specification: login "user",
    password "pass", on a router without session. *)
Definition exampleRouter (login realm challenge : string) : sessionRouter :=
  mkSessionRouter realm challenge login "pass" stockText false.

Definition exampleClient (login realm challenge : string) : keenetic.Client sessionRouter :=
  keenetic.mkClient routerURL login "pass" (exampleRouter login realm challenge) false.

(** The session of the example router: it is open, and the listing is the
    one of the example. *)
Definition exampleSession (s : sessionRouter) : Prop :=
  loggedIn s = true /\ listing s = stockText.

(** The server of [TestClientAddRoutesBatching] and of
    [TestClientDeleteAllRoutesEmpty]: every request is answered 200, a GET
    with the JSON of the route list, here the empty one. *)
Record openRouter : Type := mkOpenRouter { received : nat }.

Definition openDo (s : openRouter) (req : keenetic.HttpRequest)
    : openRouter * Result string keenetic.HttpResponse :=
  (mkOpenRouter (S (received s)),
   Ok (keenetic.mkResponse 200 ∅
         (match keenetic.ReqMethod req with
          | keenetic.GET => "[]"
          | keenetic.POST => ""
          end))).

#[export] Instance openRouter_platform : keenetic.Platform openRouter := {|
  keenetic.Do := openDo;
  keenetic.JoinPath := exampleJoinPath;
  keenetic.UnmarshalRoutes := exampleUnmarshalRoutes
|}.

Definition openClient : keenetic.Client openRouter :=
  keenetic.mkClient routerURL "user" "pass" (mkOpenRouter 0) false.

(** The entries of [TestClientAddRoutesBatching]: 10.0.0.1 to 10.0.0.55 by
    the gateway 10.0.0.1. *)
Definition testEntries : list routes.Route :=
  map (fun i => routes.mkRoute ("10.0.0." +:+ Strconv.Itoa (Z.of_nat i + 1)) ""
                  "10.0.0.1" "" false false)
      (seq 0 55).

(** ** Resolution *)

(** A host as resolution leaves it: trimmed and not empty. *)
Definition clean (h : string) : Prop :=
  Strings.TrimSpace h = h /\ h <> ""%string.

(** What resolution keeps true of the hosts it has merged and the set of
    the hosts it has seen: the set is the set of the merged hosts, no host
    is merged twice, and every merged host is clean. *)
Definition merging (seenHosts : gset string) (mergedHosts : list string) : Prop :=
  seenHosts = list_to_set mergedHosts
  /\ NoDup mergedHosts
  /\ Forall clean mergedHosts.

(** A group with the host 8.8.8.8 and two domains: the first resolves to
    8.8.8.8 and 8.8.4.4, the second is the literal address 1.2.3.4.  The
    first run adds two addresses, the second none. *)
Definition groupDNS : RouteGroup :=
  mkRouteGroup "dns" "10.0.0.1" "" false false
    [" 8.8.8.8 "%string] ["dns.example"; "1.2.3.4"]%string.

Definition groupDNSResolved : RouteGroup :=
  mkRouteGroup "dns" "10.0.0.1" "" false false
    ["8.8.8.8"; "8.8.4.4"; "1.2.3.4"]%string ["dns.example"; "1.2.3.4"]%string.

Definition dnsAnswers : tableResolver :=
  [("dns.example"%string,
    [mkIPAddr [8; 8; 8; 8] ""; mkIPAddr [8; 8; 4; 4] "";
     mkIPAddr [32; 1; 72; 96; 72; 96; 0; 0; 0; 0; 0; 0; 0; 0; 136; 136] ""])].

(** * Properties *)

(** ** Tests of the model *)

Example TrimSpace_ex1 : Strings.TrimSpace "  1.1.1.1  " = "1.1.1.1"%string.
Proof. reflexivity. Qed.

Example Itoa_ex1 : Strconv.Itoa 255 = "255"%string /\ Strconv.Itoa 0 = "0"%string
  /\ Strconv.Itoa 1000 = "1000"%string /\ Strconv.Itoa (-42) = "-42"%string
  /\ Strconv.Itoa 9 = "9"%string /\ Strconv.Itoa 10 = "10"%string.
Proof. repeat split; vm_compute; reflexivity. Qed.

Example Atoi_ex1 : Strconv.Atoi "-12" = Some (-12) /\ Strconv.Atoi "+7" = Some 7
  /\ Strconv.Atoi "" = None /\ Strconv.Atoi "1.0" = None /\ Strconv.Atoi "-" = None
  /\ Strconv.Atoi "9223372036854775808" = None
  /\ Strconv.Atoi "-9223372036854775808" = Some (- 2 ^ 63).
Proof. repeat split; vm_compute; reflexivity. Qed.

Example ParseIP_ex1 :
  Net.To4 (Net.ParseIP "8.8.8.8") = [8; 8; 8; 8]
  /\ Net.ParseIP "2001:db8::1" = [32; 1; 13; 184; 0; 0; 0; 0; 0; 0; 0; 0; 0; 0; 0; 1]
  /\ Net.To4 (Net.ParseIP "2001:db8::1") = []
  /\ Net.ParseIP "not-an-ip" = []
  /\ Net.ParseIP "1.2.3" = [] /\ Net.ParseIP "1.2.3.4.5" = []
  /\ Net.ParseIP "01.2.3.4" = [] /\ Net.ParseIP "256.2.3.4" = []
  /\ Net.ParseIP "1.2.3.4 " = [] /\ Net.ParseIP "fe80::1%eth0" = []
  /\ Net.To4 (Net.ParseIP "::ffff:1.2.3.4") = [1; 2; 3; 4]
  /\ Net.ParseIP "::" = replicate 16 0
  /\ Net.ParseIP "1:2:3:4:5:6:7:8" = [0; 1; 0; 2; 0; 3; 0; 4; 0; 5; 0; 6; 0; 7; 0; 8]
  /\ Net.ParseIP "1:2:3:4:5:6:7::" = [0; 1; 0; 2; 0; 3; 0; 4; 0; 5; 0; 6; 0; 7; 0; 0]
  /\ Net.ParseIP "1:2:3:4:5:6:7:8::" = []
  /\ Net.ParseIP "1:2:3:4:5:6:7:8:9" = []
  /\ Net.ParseIP "12345::" = [] /\ Net.ParseIP ":1::" = [] /\ Net.ParseIP "1::2::3" = [].
Proof. repeat split; vm_compute; reflexivity. Qed.

Example IPString_ex1 :
  Net.IPString (Net.ParseIP "2001:db8::1") = "2001:db8::1"%string
  /\ Net.IPString (Net.ParseIP "1:0:0:2:0:0:0:3") = "1:0:0:2::3"%string
  /\ Net.IPString (Net.ParseIP "::") = "::"%string
  /\ Net.IPString (Net.ParseIP "1::") = "1::"%string
  /\ Net.IPString (Net.ParseIP "::1") = "::1"%string
  /\ Net.IPString (Net.ParseIP "1:0:3:4:5:6:7:8") = "1:0:3:4:5:6:7:8"%string
  /\ Net.IPString (Net.ParseIP "FFFF:ffff::") = "ffff:ffff::"%string
  /\ Net.IPString (Net.ParseIP "::ffff:1.2.3.4") = "1.2.3.4"%string
  /\ Net.IPString [] = "<nil>"%string
  /\ Net.IPString [1; 171] = "?01ab"%string.
Proof. repeat split; vm_compute; reflexivity. Qed.

Example ParseCIDR_ex1 :
  (Net.IPNetString <$> (snd <$> Net.ParseCIDR "192.168.0.0/16")) = Some "192.168.0.0/16"%string
  /\ (Net.IPNetString <$> (snd <$> Net.ParseCIDR "10.0.0.5/24")) = Some "10.0.0.0/24"%string
  /\ (Net.IPNetString <$> (snd <$> Net.ParseCIDR "10.0.0.5/024")) = Some "10.0.0.0/24"%string
  /\ Net.ParseCIDR "10.0.0.0/33" = None
  /\ Net.ParseCIDR "10.0.0.0/" = None
  /\ Net.ParseCIDR "10.0.0.0/8/8" = None
  /\ (Net.IPNetString <$> (snd <$> Net.ParseCIDR "2001:db8::/32")) = Some "2001:db8::/32"%string
  /\ (Net.IPNetString <$> (snd <$> Net.ParseCIDR "::ffff:1.2.3.4/120")) = Some "1.2.3.0/24"%string
  /\ (Net.IPNetString <$> (snd <$> Net.ParseCIDR "::ffff:1.2.3.4/64")) = Some "::/64"%string
  /\ (Net.IPNetString <$> (snd <$> Net.ParseCIDR "0.0.0.0/0")) = Some "0.0.0.0/0"%string.
Proof. repeat split; vm_compute; reflexivity. Qed.

Example Size_ex1 :
  Net.Size (Net.IPv4Mask 255 255 255 0) = (24, 32)
  /\ Net.Size (Net.IPv4Mask 255 0 255 0) = (0, 0)
  /\ Net.Size (Net.IPv4Mask 255 255 254 0) = (23, 32)
  /\ Net.Size (Net.IPv4Mask 0 0 0 0) = (0, 32)
  /\ Net.Size (Net.IPv4Mask 255 255 255 255) = (32, 32)
  /\ Net.Size (Net.IPv4Mask 255 255 253 0) = (0, 0).
Proof. repeat split; vm_compute; reflexivity. Qed.

Example md5_vectors :
  Crypto.md5Hex "" = "d41d8cd98f00b204e9800998ecf8427e"%string
  /\ Crypto.md5Hex "abc" = "900150983cd24fb0d6963f7d28e17f72"%string
  /\ Crypto.md5Hex "user:realm:pass" = "8493fbc53ba582fb4c044c456bdc40eb"%string
  /\ Crypto.md5Hex "aaaaaaaaaaaaaaaaaaaaaaaaaaaaaaaaaaaaaaaaaaaaaaaaaaaaaaaaaaaaaaaa"
     = "014842d480b571495a4a0363793f7367"%string.
Proof. repeat split; vm_compute; reflexivity. Qed.

Example sha256_vectors :
  Crypto.sha256Hex ""
  = "e3b0c44298fc1c149afbf4c8996fb92427ae41e4649b934ca495991b7852b855"%string
  /\ Crypto.sha256Hex "abc"
     = "ba7816bf8f01cfea414140de5dae2223b00361a396177a9cb410ff61f20015ad"%string
  /\ Crypto.sha256Hex "aaaaaaaaaaaaaaaaaaaaaaaaaaaaaaaaaaaaaaaaaaaaaaaaaaaaaaaaaaaaaaaa"
     = "ffe054fe7ae0cb6dc65c3af9b61d5209f439851db43d0ba5997337df154668eb"%string.
Proof. repeat split; vm_compute; reflexivity. Qed.

Example normalizeHost_tests :
  normalizeHost "8.8.8.8" = Ok "8.8.8.8"%string
  /\ normalizeHost "  1.1.1.1  " = Ok "1.1.1.1"%string
  /\ normalizeHost "192.168.0.0/16" = Ok "192.168.0.0/16"%string
  /\ normalizeHost "2001:db8::1" = Err InvalidIPv4
  /\ normalizeHost "2001:db8::/32" = Err InvalidIPv4CIDR
  /\ normalizeHost "" = Err EmptyHost
  /\ normalizeHost "not-an-ip" = Err InvalidIP
  /\ normalizeHost "10.0.0.0/33" = Err InvalidCIDR.
Proof. repeat split; vm_compute; reflexivity. Qed.

Example RouteDest_tests :
  RouteDest (mkStub "8.8.8.8" "" "" "" 0 0 "test" "10.0.0.1" "" true false) = "8.8.8.8"%string
  /\ RouteDest (mkStub "" "192.168.0.0" "" "255.255.255.0" 0 0 "test" "10.0.0.1" "" true false)
     = "192.168.0.0/24"%string
  /\ RouteDest (mkStub "2001:db8::1" "" "" "" 0 0 "ipv6" "" "" false false) = ""%string.
Proof. repeat split; vm_compute; reflexivity. Qed.

Example ToYAML_test :
  ToYAML [ mkRoute "8.8.8.8" "test" "10.0.0.1" "" true false;
           mkRoute "192.168.0.0/24" "test" "10.0.0.1" "" true false;
           mkRoute "2001:db8::1" "ipv6" "" "" false false ]
  = {| Routes := [ mkRouteGroup "test" "10.0.0.1" "" true false
                     ["8.8.8.8"; "192.168.0.0/24"]%string [] ] |}.
Proof. vm_compute. reflexivity. Qed.

(** ** Flattening: the gateway/interface check *)

Section Flatten.

Lemma flattenGroups_app (pre rest : list RouteGroup) (out out' : list routes.Route) :
  flattenGroups pre out = Ok out' ->
  flattenGroups (pre ++ rest) out = flattenGroups rest out'.
Proof.
  revert out. induction pre as [|g pre IH]; intros out Hpre; simpl in *.
  - congruence.
  - destruct (length (Hosts g) =? 0)%nat; [now apply IH|].
    destruct (Bool.eqb _ _); [discriminate|].
    destruct (flattenHosts g (Hosts g) out) as [o|e]; [now apply IH|discriminate].
Qed.

Lemma flattenGroups_skip (pre post : list RouteGroup) (g : RouteGroup)
    (out : list routes.Route) :
  Hosts g = [] ->
  flattenGroups (pre ++ g :: post) out = flattenGroups (pre ++ post) out.
Proof.
  intros Hg. revert out. induction pre as [|g0 pre IH]; intros out; simpl.
  - now rewrite Hg.
  - destruct (length (Hosts g0) =? 0)%nat; [apply IH|].
    destruct (Bool.eqb _ _); [reflexivity|].
    destruct (flattenHosts g0 (Hosts g0) out); [apply IH|reflexivity].
Qed.

Lemma flattenGroups_nil_file (groups : list RouteGroup) :
  FlattenToEntries (Some {| Routes := groups |}) = flattenGroups groups [].
Proof. unfold FlattenToEntries; simpl. now destruct groups. Qed.

End Flatten.

(** C10.  [FlattenToEntries] checks gateway/interface only on groups that
    have hosts: a group with no host is skipped entirely -- the file
    flattens as if the group were not there -- and raises no validation
    error, whatever its gateway and interface; alone in a file it flattens
    to no route. *)
Theorem FlattenToEntries_skips_hostless_group
    (pre post : list RouteGroup) (g : RouteGroup) :
  Hosts g = [] ->
  FlattenToEntries (Some {| Routes := pre ++ g :: post |})
  = FlattenToEntries (Some {| Routes := pre ++ post |})
  /\ FlattenToEntries (Some {| Routes := [g] |}) = Ok [].
Proof.
  intros Hg. rewrite !flattenGroups_nil_file. split.
  - now apply flattenGroups_skip.
  - simpl. now rewrite Hg.
Qed.

(** A group that sets both gateway and interface and has no host, between
    two well-formed groups. *)
Lemma FlattenToEntries_skips_hostless_group_witness :
  let g := mkRouteGroup "both" "10.0.0.1" "Wireguard0" false false [] [] in
  let a := mkRouteGroup "a" "10.0.0.1" "" false false ["8.8.8.8"%string] [] in
  let b := mkRouteGroup "b" "" "Wireguard0" false false ["1.1.1.1"%string] [] in
  breaksRule g = true
  /\ FlattenToEntries (Some {| Routes := [a; g; b] |})
     = Ok [ routes.mkRoute "8.8.8.8" "a" "10.0.0.1" "" false false;
            routes.mkRoute "1.1.1.1" "b" "" "Wireguard0" false false ]
  /\ FlattenToEntries (Some {| Routes := [g] |}) = Ok [].
Proof.
  intros g a b.
  pose proof (FlattenToEntries_skips_hostless_group [a] [b] g eq_refl) as [H1 H2].
  split; [reflexivity|]. split; [|exact H2].
  simpl app in H1. rewrite H1. vm_compute. reflexivity.
Defined.

(** ** Resolution: the gateway/interface check *)

Section Resolve.

Context {R : Type} `{IPResolver R} (resolver : R).

Lemma resolveGroups_app (pre rest done out : list RouteGroup) (i : Z)
    (s s' : ResolveSummary) :
  resolveGroups resolver done pre i s = (out, s', None) ->
  resolveGroups resolver done (pre ++ rest) i s
  = resolveGroups resolver out rest (i + Z.of_nat (length pre)) s'.
Proof.
  revert done i s. induction pre as [|g pre IH]; intros done i s Hpre; simpl in *.
  - inversion Hpre; subst. now rewrite Z.add_0_r.
  - replace (i + Z.of_nat (S (length pre)))
      with (i + 1 + Z.of_nat (length pre)) by lia.
    destruct (length (Domains g) =? 0)%nat; [now apply IH|].
    destruct (Bool.eqb _ _); [discriminate|].
    destruct (mergeHosts (Hosts g) ∅ []) as [seen merged].
    destruct (resolveGroupDomains _ _ _ _ _ _ _ _) as [s1 [m|e]];
      [now apply IH|discriminate].
Qed.

Lemma ResolveDomains_groups (groups : list RouteGroup) :
  ResolveDomainsWithResolver (Some {| Routes := groups |}) resolver
  = let '(out, s, err) := resolveGroups resolver [] groups 0 (mkSummary 0 0 0) in
    (Some {| Routes := out |}, s, err).
Proof.
  unfold ResolveDomainsWithResolver; simpl. now destruct groups.
Qed.

End Resolve.

(** C5, amended.  A group that sets both gateway and interface, or neither,
    and has at least one host makes flattening fail, when the groups before
    it flatten, with the validation error that names it by its quoted
    comment (the code quotes the comment as it is, also when it is empty).
    With at least one domain it makes resolution fail, when the groups
    before it resolve, with the validation error that names it by its
    quoted comment, or by its position (counted from 1) when it has no
    comment.  Without host it is skipped by flattening: the file flattens
    as if the group were not there.  Without domain it is skipped by
    resolution: it is kept as it is, it raises no error and changes no
    count, and resolution goes on with the groups after it. *)
Theorem rule_violation_names_group {R : Type} `{IPResolver R} (resolver : R)
    (pre post pre' : list RouteGroup) (g : RouteGroup) (s : ResolveSummary) :
  breaksRule g = true ->
  (Hosts g <> [] ->
   isOk (FlattenToEntries (Some {| Routes := pre |})) = true ->
   FlattenToEntries (Some {| Routes := pre ++ g :: post |})
   = Err (routes.ErrExactlyOne (Quoted (GroupComment g))))
  /\ (Domains g <> [] ->
      ResolveDomainsWithResolver (Some {| Routes := pre |}) resolver
      = (Some {| Routes := pre' |}, s, None) ->
      ResolveDomainsWithResolver (Some {| Routes := pre ++ g :: post |}) resolver
      = (Some {| Routes := pre' ++ g :: post |}, s,
         Some (routes.ErrExactlyOne
                 (if isEmpty (GroupComment g)
                  then Position (Z.of_nat (length pre) + 1)
                  else Quoted (GroupComment g)))))
  /\ (Hosts g = [] ->
      FlattenToEntries (Some {| Routes := pre ++ g :: post |})
      = FlattenToEntries (Some {| Routes := pre ++ post |}))
  /\ (Domains g = [] ->
      ResolveDomainsWithResolver (Some {| Routes := pre |}) resolver
      = (Some {| Routes := pre' |}, s, None) ->
      ResolveDomainsWithResolver (Some {| Routes := pre ++ [g] |}) resolver
      = (Some {| Routes := pre' ++ [g] |}, s, None)
      /\ ResolveDomainsWithResolver (Some {| Routes := pre ++ g :: post |}) resolver
         = (let '(out, s', err) :=
              resolveGroups resolver (pre' ++ [g]) post (Z.of_nat (length pre) + 1) s in
            (Some {| Routes := out |}, s', err))).
Proof.
  intros Hrule. unfold breaksRule in Hrule. split; [|split; [|split]].
  - intros Hhosts Hpre. rewrite flattenGroups_nil_file in *.
    destruct (flattenGroups pre []) as [out|e] eqn:E; [|discriminate].
    rewrite (flattenGroups_app _ _ _ _ E). simpl.
    destruct (Hosts g) as [|h hs]; [congruence|]. simpl.
    destruct (isEmpty (GroupGateway g)), (isEmpty (GroupInterface g));
      simpl in *; congruence.
  - intros Hdom Hpre. rewrite ResolveDomains_groups in *.
    destruct (resolveGroups resolver [] pre 0 (mkSummary 0 0 0)) as [[out s0] err] eqn:E.
    inversion Hpre; subst.
    rewrite (resolveGroups_app resolver _ _ _ _ _ _ _ E). simpl.
    destruct (Domains g) as [|d ds]; [congruence|]. simpl.
    rewrite Hrule. unfold groupLabel.
    destruct (isEmpty (GroupComment g)); reflexivity.
  - intros Hhosts. rewrite !flattenGroups_nil_file. now apply flattenGroups_skip.
  - intros Hdom Hpre. rewrite !ResolveDomains_groups in *.
    destruct (resolveGroups resolver [] pre 0 (mkSummary 0 0 0)) as [[out s0] err] eqn:E.
    inversion Hpre; subst.
    rewrite !(resolveGroups_app resolver _ _ _ _ _ _ _ E).
    cbn [resolveGroups]. rewrite Hdom. cbn [length Nat.eqb]. split; reflexivity.
Qed.

(** Groups that break the rule, each after a well-formed one.  The first
    has a comment and is named by it by flattening; the second has none and
    resolution names it "#2"; the third has a host and the fourth a domain
    only, and each is skipped where it has nothing. *)
Lemma rule_violation_names_group_witness :
  let hostOnly := mkRouteGroup "both" "10.0.0.1" "Wireguard0" false false
                    ["1.1.1.1"%string] [] in
  let domainOnly := mkRouteGroup "" "" "" false false [] ["one.example"%string] in
  FlattenToEntries (Some {| Routes := [groupOk; groupBoth] |})
  = Err (routes.ErrExactlyOne (Quoted "both"))
  /\ snd (ResolveDomainsWithResolver (Some {| Routes := [groupOk; groupNeither] |}) dnsTable)
     = Some (routes.ErrExactlyOne (Position 2))
  /\ FlattenToEntries (Some {| Routes := [groupOk; domainOnly; groupOk] |})
     = Ok [ routes.mkRoute "8.8.8.8" "ok" "10.0.0.1" "" false false;
            routes.mkRoute "8.8.8.8" "ok" "10.0.0.1" "" false false ]
  /\ ResolveDomainsWithResolver (Some {| Routes := [groupOk; hostOnly; groupOk] |}) dnsTable
     = (Some {| Routes := [ withHosts groupOk ["8.8.8.8"; "8.8.4.4"]%string; hostOnly;
                            withHosts groupOk ["8.8.8.8"; "8.8.4.4"]%string ] |},
        mkSummary 2 2 2, None).
Proof.
  intros hostOnly domainOnly. split; [|split; [|split]].
  - apply (proj1 (rule_violation_names_group dnsTable [groupOk] [] [] groupBoth
                    (mkSummary 0 0 0) eq_refl));
      [discriminate|vm_compute; reflexivity].
  - erewrite (proj1 (proj2 (rule_violation_names_group dnsTable [groupOk] [] _ groupNeither
                              _ eq_refl)));
      [reflexivity|discriminate|vm_compute; reflexivity].
  - pose proof (proj1 (proj2 (proj2 (rule_violation_names_group dnsTable [groupOk]
                                       [groupOk] [] domainOnly (mkSummary 0 0 0) eq_refl)))
                  eq_refl) as Hskip.
    simpl app in Hskip. rewrite Hskip. vm_compute. reflexivity.
  - assert (Hpre : ResolveDomainsWithResolver (Some {| Routes := [groupOk] |}) dnsTable
                   = (Some {| Routes := [withHosts groupOk ["8.8.8.8"; "8.8.4.4"]%string] |},
                      mkSummary 1 1 1, None)) by (vm_compute; reflexivity).
    pose proof (proj2 (proj2 (proj2 (proj2 (rule_violation_names_group dnsTable [groupOk]
                                              [groupOk] _ hostOnly _ eq_refl))) eq_refl Hpre))
      as Hskip.
    simpl app in Hskip. rewrite Hskip. vm_compute. reflexivity.
Defined.

(** C5 as stated fails: a group that sets both gateway and interface but has
    no host and no domain is skipped by flattening and by resolution, and
    neither reports an error.  And flattening names a group without comment
    by its empty comment, quoted, never by its position. *)
Lemma rule_violation_counterexample :
  breaksRule (mkRouteGroup "both" "10.0.0.1" "Wireguard0" false false [] []) = true
  /\ FlattenToEntries
       (Some {| Routes := [mkRouteGroup "both" "10.0.0.1" "Wireguard0" false false [] []] |})
     = Ok []
  /\ ResolveDomainsWithResolver
       (Some {| Routes := [mkRouteGroup "both" "10.0.0.1" "Wireguard0" false false [] []] |})
       ([] : tableResolver)
     = (Some {| Routes := [mkRouteGroup "both" "10.0.0.1" "Wireguard0" false false [] []] |},
        mkSummary 0 0 0, None)
  /\ breaksRule groupNeither = true
  /\ FlattenToEntries (Some {| Routes := [groupOk; groupNeither] |})
     = Err (routes.ErrExactlyOne (Quoted (GroupComment groupNeither)))
  /\ GroupComment groupNeither = EmptyString.
Proof. repeat split. Qed.


(** ** Destination derivation *)

Section RouteDest.

Context {A : Type} `{RouteView A}.

Lemma isEmpty_true (s : string) : isEmpty s = true <-> s = ""%string.
Proof. destruct s; simpl; split; congruence. Qed.

Lemma isEmpty_false (s : string) : isEmpty s = false <-> s <> ""%string.
Proof. destruct s; simpl; split; congruence. Qed.

Lemma isNil_true (l : list Z) : Net.isNil l = true <-> l = [].
Proof. destruct l; simpl; split; congruence. Qed.

Lemma isNil_false (l : list Z) : Net.isNil l = false <-> l <> [].
Proof. destruct l; simpl; split; congruence. Qed.

Lemma RouteDest_host (r : A) :
  HostValue r <> ""%string ->
  RouteDest r = if isIPv4OrCIDR (HostValue r) then HostValue r else ""%string.
Proof.
  intros Hh. unfold RouteDest. apply isEmpty_false in Hh. rewrite Hh. simpl.
  now destruct (isIPv4OrCIDR (HostValue r)).
Qed.

Lemma RouteDest_network (r : A) :
  HostValue r = ""%string ->
  networkOf r <> ""%string ->
  Net.To4 (Net.ParseIP (networkOf r)) <> [] ->
  RouteDest r =
    if validPrefix (PrefixValue r) then withPrefix (networkOf r) (PrefixValue r)
    else if validPrefix (PrefixLenValue r) then withPrefix (networkOf r) (PrefixLenValue r)
    else match maskBits (MaskValue r) with
         | Some ones => withPrefix (networkOf r) ones
         | None => networkOf r
         end.
Proof.
  intros Hh Hn Hv. unfold RouteDest, networkOf, validPrefix, maskBits in *.
  rewrite Hh. simpl.
  apply isEmpty_false in Hn. rewrite Hn. apply isNil_false in Hv. rewrite Hv.
  destruct ((0 <? PrefixValue r) && (PrefixValue r <=? 32)); [reflexivity|].
  destruct ((0 <? PrefixLenValue r) && (PrefixLenValue r <=? 32)); [reflexivity|].
  destruct (isEmpty (MaskValue r)); [reflexivity|].
  destruct (Net.ParseIP (MaskValue r)) as [|b bs] eqn:E; [reflexivity|].
  simpl Net.isNil. cbv iota.
  destruct (Net.To4 (b :: bs)) as [|m ms]; [reflexivity|].
  destruct (Net.Size _) as [ones bits]. reflexivity.
Qed.

Lemma maskBits_maskOfPrefix (p : Z) :
  1 <= p <= 32 -> maskBits (maskOfPrefix p) = Some p.
Proof.
  intros Hp.
  assert (Hall : forallb maskRoundTrip (map Z.of_nat (seq 1 32)) = true)
    by (vm_compute; reflexivity).
  rewrite forallb_forall in Hall.
  assert (Hin : In p (map Z.of_nat (seq 1 32))).
  { apply in_map_iff. exists (Z.to_nat p). split; [lia|]. apply in_seq. lia. }
  specialize (Hall p Hin). unfold maskRoundTrip in Hall.
  destruct (maskBits (maskOfPrefix p)) as [ones|]; [|discriminate].
  apply Z.eqb_eq in Hall. now subst.
Qed.

End RouteDest.

(** C3.  Destination derivation is a function of the record, and the three
    addressing styles agree.  A host that is a valid IPv4 address or CIDR is
    the destination, verbatim.  Without host, for a network address
    ([network], or [ip] when [network] is empty) that is IPv4, the prefix
    length is [prefix] when it is from 1 to 32, else [prefixlen] when it is
    from 1 to 32, else the bit length of the mask, else there is none and the
    destination is the bare network address.  So for every length [p] from 1
    to 32 a record with [prefix = p], a record with [prefixlen = p] and a
    record with the dotted mask of [p] and no prefix have the same
    destination, the network address followed by "/p"; the mask of 24 is
    "255.255.255.0". *)
Theorem RouteDest_styles_agree {A : Type} `{RouteView A} (r : A) :
  (HostValue r <> ""%string -> isIPv4OrCIDR (HostValue r) = true ->
   RouteDest r = HostValue r)
  /\ (HostValue r = ""%string -> networkOf r <> ""%string ->
      Net.To4 (Net.ParseIP (networkOf r)) <> [] ->
      RouteDest r =
        if validPrefix (PrefixValue r) then withPrefix (networkOf r) (PrefixValue r)
        else if validPrefix (PrefixLenValue r)
             then withPrefix (networkOf r) (PrefixLenValue r)
             else match maskBits (MaskValue r) with
                  | Some ones => withPrefix (networkOf r) ones
                  | None => networkOf r
                  end)
  /\ (forall (r1 r2 : A) (p : Z),
        1 <= p <= 32 ->
        HostValue r = ""%string -> HostValue r1 = ""%string -> HostValue r2 = ""%string ->
        networkOf r <> ""%string -> Net.To4 (Net.ParseIP (networkOf r)) <> [] ->
        networkOf r1 = networkOf r -> networkOf r2 = networkOf r ->
        PrefixValue r = p ->
        PrefixValue r1 = 0 -> PrefixLenValue r1 = p ->
        PrefixValue r2 = 0 -> PrefixLenValue r2 = 0 -> MaskValue r2 = maskOfPrefix p ->
        RouteDest r = networkOf r +:+ "/" +:+ Strconv.Itoa p
        /\ RouteDest r1 = RouteDest r
        /\ RouteDest r2 = RouteDest r)
  /\ maskOfPrefix 24 = "255.255.255.0"%string.
Proof.
  split; [|split; [|split]].
  - intros Hh Hv. rewrite RouteDest_host by assumption. now rewrite Hv.
  - apply RouteDest_network.
  - intros r1 r2 p Hp Hh Hh1 Hh2 Hn Hv Hn1 Hn2 Hp0 Hp1 Hl1 Hp2 Hl2 Hm2.
    assert (Hvp : validPrefix p = true) by (unfold validPrefix; lia).
    rewrite (RouteDest_network r), (RouteDest_network r1), (RouteDest_network r2);
      rewrite ?Hn1, ?Hn2; try assumption.
    rewrite Hp0, Hp1, Hl1, Hp2, Hl2, Hm2, Hvp.
    rewrite (maskBits_maskOfPrefix p Hp).
    replace (validPrefix 0) with false by reflexivity.
    repeat split; reflexivity.
  - reflexivity.
Qed.

(** The records of parser_test.go and their kin: the host "8.8.8.8", and
    the network 192.168.0.0 with prefix 24, with prefixlen 24 and with the
    mask 255.255.255.0. *)
Lemma RouteDest_styles_agree_witness :
  RouteDest (mkStub "8.8.8.8" "" "" "" 0 0 "test" "10.0.0.1" "" true false)
  = "8.8.8.8"%string
  /\ RouteDest (mkStub "" "192.168.0.0" "" "" 24 0 "test" "10.0.0.1" "" true false)
     = "192.168.0.0/24"%string
  /\ RouteDest (mkStub "" "" "192.168.0.0" "" 0 24 "test" "10.0.0.1" "" true false)
     = "192.168.0.0/24"%string
  /\ RouteDest (mkStub "" "192.168.0.0" "" "255.255.255.0" 0 0 "test" "10.0.0.1" "" true false)
     = "192.168.0.0/24"%string.
Proof.
  pose proof (RouteDest_styles_agree
                (mkStub "8.8.8.8" "" "" "" 0 0 "test" "10.0.0.1" "" true false)) as [Hhost _].
  pose proof (RouteDest_styles_agree
                (mkStub "" "192.168.0.0" "" "" 24 0 "test" "10.0.0.1" "" true false))
    as [_ [_ [Hagree _]]].
  specialize (Hagree
                (mkStub "" "" "192.168.0.0" "" 0 24 "test" "10.0.0.1" "" true false)
                (mkStub "" "192.168.0.0" "" "255.255.255.0" 0 0 "test" "10.0.0.1" "" true false)
                24).
  destruct Hagree as [H0 [H1 H2]];
    try reflexivity; try lia; try discriminate.
  split; [apply Hhost; [discriminate|reflexivity]|].
  rewrite H1, H2, H0. repeat split; reflexivity.
Defined.

(** ** Facts about strings *)

Section StringFacts.

Lemma append_cons (c : ascii) (s t : string) :
  String c s +:+ t = String c (s +:+ t).
Proof. reflexivity. Qed.

Lemma append_nil_l (s : string) : "" +:+ s = s.
Proof. reflexivity. Qed.

Lemma append_nil_r (s : string) : s +:+ "" = s.
Proof. induction s as [|c s IH]; [reflexivity|]. now rewrite append_cons, IH. Qed.

Lemma append_assoc (s t u : string) : (s +:+ t) +:+ u = s +:+ (t +:+ u).
Proof. induction s as [|c s IH]; [reflexivity|]. now rewrite !append_cons, IH. Qed.

End StringFacts.

(** ** What the address parsers accept *)

Section Charset.

Lemma allChars_app P (s1 s2 : string) :
  allChars P (s1 +:+ s2) = allChars P s1 && allChars P s2.
Proof.
  induction s1 as [|c s1 IH]; simpl; [reflexivity|].
  change (String c s1 +:+ s2) with (String c (s1 +:+ s2)). simpl.
  rewrite IH. now rewrite andb_assoc.
Qed.

Lemma allChars_impl (P Q : ascii -> bool) (s : string) :
  (forall c, P c = true -> Q c = true) ->
  allChars P s = true -> allChars Q s = true.
Proof.
  intros HPQ. induction s as [|c s IH]; simpl; [reflexivity|].
  intros [Hc Hs]%andb_prop. rewrite (HPQ _ Hc), (IH Hs). reflexivity.
Qed.

Lemma isDigit_addrChar c : isDigit c = true -> addrChar c = true.
Proof.
  unfold isDigit, addrChar, Net.hexVal. intros Hc. now rewrite Hc.
Qed.

Lemma digitOrDot_addrChar c : digitOrDot c = true -> addrChar c = true.
Proof.
  unfold digitOrDot. intros [Hc|Hc]%orb_prop.
  - now apply isDigit_addrChar.
  - unfold addrChar. rewrite Hc. now destruct (Net.hexVal c).
Qed.

Lemma parseIPv4Loop_chars s first prev fields val pos digLen r :
  Net.parseIPv4Loop s first prev fields val pos digLen = Some r ->
  allChars digitOrDot s = true.
Proof.
  revert first prev fields val pos digLen.
  induction s as [|c s IH]; intros first prev fields val pos digLen; simpl;
    [reflexivity|].
  unfold digitOrDot at 1.
  destruct (isDigit c) eqn:Ed; simpl.
  - destruct ((digLen =? 1)%nat && (val =? 0)); [discriminate|].
    destruct (255 <? val * 10 + digitVal c); [discriminate|]. apply IH.
  - destruct (Ascii.eqb c ".") eqn:Edot; [|discriminate]. simpl.
    destruct (first || isEmpty s || Ascii.eqb prev "."); [discriminate|].
    destruct (pos =? 3)%nat; [discriminate|]. apply IH.
Qed.

Lemma parseIPv4Fields_chars s r :
  Net.parseIPv4Fields s = Some r -> allChars addrChar s = true.
Proof.
  intros Hs. apply (allChars_impl digitOrDot); [apply digitOrDot_addrChar|].
  eapply parseIPv4Loop_chars. exact Hs.
Qed.

Lemma hexGroup_chars s off acc off' acc' rest :
  Net.hexGroup s off acc = Some (off', acc', rest) ->
  exists pre, s = pre +:+ rest /\ allChars addrChar pre = true.
Proof.
  revert off acc. induction s as [|c s IH]; intros off acc; simpl.
  - intros [= <- <- <-]. exists ""%string. split; reflexivity.
  - destruct (Net.hexVal c) as [v|] eqn:Ev.
    + destruct (3 <? off)%nat; [discriminate|].
      destruct (65535 <? _); [discriminate|].
      intros Hg. destruct (IH _ _ Hg) as [pre [-> Hpre]].
      exists (String c pre). split; [reflexivity|]. simpl.
      unfold addrChar at 1. now rewrite Ev.
    + intros [= <- <- <-]. exists ""%string. split; reflexivity.
Qed.

Lemma parseIPv6Loop_chars fuel s i ip e rest i' ip' e' :
  Net.parseIPv6Loop fuel s i ip e = Some (rest, i', ip', e') ->
  exists pre, s = pre +:+ rest /\ allChars addrChar pre = true.
Proof.
  revert s i ip e. induction fuel as [|fuel IH]; intros s i ip e;
    cbn [Net.parseIPv6Loop].
  - destruct (16 <=? i)%nat; [|discriminate].
    intros [= <- <- <- <-]. exists ""%string. split; reflexivity.
  - destruct (16 <=? i)%nat.
    { intros [= <- <- <- <-]. exists ""%string. split; reflexivity. }
    destruct (Net.hexGroup s 0 0) as [[[off acc] rest1]|] eqn:Eg; [|discriminate].
    destruct (off =? 0)%nat; [discriminate|].
    destruct (hexGroup_chars _ _ _ _ _ _ Eg) as [pre1 [Hs Hpre1]].
    destruct rest1 as [|c rest2].
    { intros [= <- <- <- <-]. exists s. split.
      - now rewrite append_nil_r.
      - rewrite Hs. rewrite allChars_app, Hpre1. reflexivity. }
    destruct (Ascii.eqb c ".") eqn:Edot.
    { destruct ((e <? 0) && negb (i =? 12)%nat); [discriminate|].
      destruct (16 <? i + 4)%nat; [discriminate|].
      destruct (Net.parseIPv4Fields s) as [fields|] eqn:E4; [|discriminate].
      intros [= <- <- <- <-]. exists s. split.
      - now rewrite append_nil_r.
      - eapply parseIPv4Fields_chars. exact E4. }
    destruct (Ascii.eqb c ":") eqn:Ecol; [|discriminate]. cbn [negb].
    apply Ascii.eqb_eq in Ecol. subst c.
    destruct rest2 as [|c2 rest3]; [discriminate|].
    destruct (Ascii.eqb c2 ":") eqn:Ec2.
    + apply Ascii.eqb_eq in Ec2. subst c2.
      destruct (0 <=? e); [discriminate|].
      destruct (isEmpty rest3) eqn:Er3.
      * intros [= <- <- <- <-]. apply isEmpty_true in Er3. subst rest3.
        exists (pre1 +:+ "::")%string. split.
        -- rewrite Hs. now rewrite append_nil_r.
        -- rewrite allChars_app, Hpre1. reflexivity.
      * intros Hl. destruct (IH _ _ _ _ Hl) as [pre [Hr Hpre]].
        exists (pre1 +:+ "::" +:+ pre)%string. split.
        -- rewrite Hs, Hr. now rewrite !append_assoc.
        -- rewrite !allChars_app, Hpre1, Hpre. reflexivity.
    + intros Hl. destruct (IH _ _ _ _ Hl) as [pre [Hr Hpre]].
      exists (pre1 +:+ ":" +:+ pre)%string. split.
      * rewrite Hs, Hr. now rewrite !append_assoc.
      * rewrite !allChars_app, Hpre1, Hpre. reflexivity.
Qed.

Lemma cut_spec c s l r :
  Net.cut c s = Some (l, r) -> s = l +:+ String c r.
Proof.
  revert l. induction s as [|x s IH]; intros l; simpl; [discriminate|].
  destruct (Ascii.eqb x c) eqn:E.
  - intros [= <- <-]. apply Ascii.eqb_eq in E. now subst.
  - destruct (Net.cut c s) as [[l' r']|]; [|discriminate].
    intros [= <- <-]. rewrite append_cons. f_equal. now apply IH.
Qed.

Lemma expandEllipsis_zone zone parsed a :
  Net.expandEllipsis zone parsed = Some a -> Net.Zone a = zone.
Proof.
  unfold Net.expandEllipsis.
  destruct parsed as [[[[rest i] ip] e]|]; [|discriminate].
  destruct (negb (isEmpty rest)); [discriminate|].
  destruct (i <? 16)%nat.
  - destruct (e <? 0); [discriminate|]. now intros [= <-].
  - destruct (0 <=? e); [discriminate|]. now intros [= <-].
Qed.

Lemma expandEllipsis_chars zone fuel s0 i ip e0 a :
  Net.expandEllipsis zone (Net.parseIPv6Loop fuel s0 i ip e0) = Some a ->
  allChars addrChar s0 = true.
Proof.
  unfold Net.expandEllipsis.
  destruct (Net.parseIPv6Loop fuel s0 i ip e0) as [[[[rest i'] ip'] e]|] eqn:El;
    [|discriminate].
  destruct (isEmpty rest) eqn:Er; [|discriminate]. intros _.
  apply isEmpty_true in Er. subst rest.
  destruct (parseIPv6Loop_chars _ _ _ _ _ _ _ _ _ El) as [pre [-> Hpre]].
  now rewrite append_nil_r.
Qed.

Lemma leadingEllipsis_spec s s0 e0 only :
  Net.leadingEllipsis s = (s0, e0, only) ->
  (s = s0 \/ s = "::" +:+ s0) /\ (only = true -> s0 = ""%string).
Proof.
  unfold Net.leadingEllipsis. destruct s as [|c1 [|c2 s']].
  - intros [= <- <- <-]. split; [now left|discriminate].
  - intros [= <- <- <-]. split; [now left|discriminate].
  - destruct (Ascii.eqb c1 ":" && Ascii.eqb c2 ":") eqn:E12.
    + apply andb_prop in E12 as [E1 E2]. apply Ascii.eqb_eq in E1, E2. subst c1 c2.
      intros [= <- <- <-]. split; [now right|]. apply isEmpty_true.
    + intros [= <- <- <-]. split; [now left|discriminate].
Qed.

Lemma parseIPv6_chars inp a :
  Net.parseIPv6 inp = Some a -> Net.Zone a = ""%string ->
  allChars addrChar inp = true.
Proof.
  unfold Net.parseIPv6, Net.splitZone.
  destruct (Net.cut "%" inp) as [[s zone]|] eqn:Ecut.
  { destruct zone as [|z zone]; [discriminate|]. cbn [isEmpty].
    destruct (Net.leadingEllipsis s) as [[s0 e0] only].
    destruct only.
    - intros [= <-]. discriminate.
    - intros Ha Hz. apply expandEllipsis_zone in Ha. congruence. }
  destruct (Net.leadingEllipsis inp) as [[s0 e0] only] eqn:El.
  apply leadingEllipsis_spec in El as [Hs Honly].
  destruct only.
  - intros _ _. rewrite (Honly eq_refl) in Hs. destruct Hs as [->| ->]; reflexivity.
  - intros Ha _. apply expandEllipsis_chars in Ha.
    destruct Hs as [->| ->]; [assumption|].
    rewrite allChars_app, Ha. reflexivity.
Qed.

Lemma parseAddrScan_chars whole s a :
  Net.parseAddrScan whole s = Some a -> Net.Zone a = ""%string ->
  allChars addrChar whole = true.
Proof.
  induction s as [|c s IH]; simpl; [discriminate|].
  destruct (Ascii.eqb c ".").
  { unfold Net.parseIPv4.
    destruct (Net.parseIPv4Fields whole) as [fields|] eqn:E4; [|discriminate].
    intros _ _. eapply parseIPv4Fields_chars. exact E4. }
  destruct (Ascii.eqb c ":"); [apply parseIPv6_chars|].
  destruct (Ascii.eqb c "%"); [discriminate|]. exact IH.
Qed.

(** An address that [net.ParseIP] accepts is made of hex digits, dots and
    colons. *)
Lemma ParseIP_chars s :
  Net.ParseIP s <> [] -> allChars addrChar s = true.
Proof.
  unfold Net.ParseIP, Net.ParseAddr.
  destruct (Net.parseAddrScan s s) as [a|] eqn:E; [|congruence].
  destruct (isEmpty (Net.Zone a)) eqn:Ez; [|congruence].
  intros _. apply isEmpty_true in Ez. eapply parseAddrScan_chars; eassumption.
Qed.

Lemma Contains_slash s :
  Strings.Contains s "/" = negb (allChars (fun x => negb (Ascii.eqb x "/"%char)) s).
Proof.
  induction s as [|c s IH]; [reflexivity|].
  cbn [Strings.Contains Strings.HasPrefix allChars]. rewrite IH.
  rewrite Ascii.eqb_sym.
  destruct (Ascii.eqb c "/"), s; simpl; try reflexivity;
    now destruct (allChars _ _).
Qed.

Lemma addrChar_not_slash c : addrChar c = true -> negb (Ascii.eqb c "/"%char) = true.
Proof.
  destruct (Ascii.eqb c "/") eqn:E; [|reflexivity].
  apply Ascii.eqb_eq in E. subst c. discriminate.
Qed.

(** So a string with a slash is not an address. *)
Lemma ParseIP_slash s :
  Strings.Contains s "/" = true -> Net.ParseIP s = [].
Proof.
  intros Hs. destruct (Net.ParseIP s) as [|b bs] eqn:E; [reflexivity|].
  assert (Hc : allChars addrChar s = true) by (apply ParseIP_chars; congruence).
  apply (allChars_impl _ _ _ addrChar_not_slash) in Hc.
  rewrite Contains_slash, Hc in Hs. discriminate.
Qed.

Lemma ParseCIDR_slash s r :
  Net.ParseCIDR s = Some r -> Strings.Contains s "/" = true.
Proof.
  unfold Net.ParseCIDR. destruct (Net.cut "/" s) as [[addr mask]|] eqn:E; [|discriminate].
  intros _. apply cut_spec in E. subst s. rewrite Contains_slash, allChars_app.
  simpl. now rewrite andb_false_r.
Qed.

End Charset.

(** ** IPv6 values *)

Lemma isIPv6_not_IPv4OrCIDR (s : string) :
  isIPv6 s = true -> isIPv4OrCIDR s = false.
Proof.
  unfold isIPv6, isIPv6Addr, isIPv6CIDR, isIPv4OrCIDR. intros Hs.
  destruct (Strings.Contains s "/") eqn:Ec.
  - rewrite (ParseIP_slash s Ec) in Hs. simpl in Hs.
    destruct (Net.ParseCIDR s) as [[ip n]|]; [|reflexivity]. now rewrite Hs.
  - destruct (Net.ParseCIDR s) as [[ip n]|] eqn:Ep.
    { apply ParseCIDR_slash in Ep. congruence. }
    rewrite orb_false_r in Hs. apply andb_prop in Hs as [H1 H2].
    apply negb_true_iff in H1. now rewrite H1, H2.
Qed.

Lemma isIPv6_To4_nil (s : string) :
  isIPv6 s = true -> Net.To4 (Net.ParseIP s) = [].
Proof.
  unfold isIPv6, isIPv6Addr, isIPv6CIDR. intros [Hs|Hs]%orb_prop.
  - apply andb_prop in Hs as [_ Hs]. now apply isNil_true.
  - destruct (Net.ParseCIDR s) as [[ip n]|] eqn:Ep; [|discriminate].
    apply ParseCIDR_slash in Ep. now rewrite (ParseIP_slash s Ep).
Qed.

(** C4, amended.  Destination derivation is a total function, and an IPv6
    value (an address or a CIDR that Go's net package parses and that is not
    IPv4) gives the empty destination when it is in the host field, or, the
    host being empty, in the field that gives the network address
    ([network], or [ip] when [network] is empty).  An IPv6 value in the mask
    field is ignored: for an IPv4 network address the destination is the one
    of a record without mask. *)
Theorem RouteDest_IPv6_empty {A : Type} `{RouteView A} (r : A) :
  (isIPv6 (HostValue r) = true -> RouteDest r = ""%string)
  /\ (HostValue r = ""%string -> isIPv6 (networkOf r) = true -> RouteDest r = ""%string)
  /\ (HostValue r = ""%string -> networkOf r <> ""%string ->
      Net.To4 (Net.ParseIP (networkOf r)) <> [] ->
      isIPv6 (MaskValue r) = true ->
      RouteDest r =
        if validPrefix (PrefixValue r) then withPrefix (networkOf r) (PrefixValue r)
        else if validPrefix (PrefixLenValue r)
             then withPrefix (networkOf r) (PrefixLenValue r)
             else networkOf r).
Proof.
  split; [|split].
  - intros H6. assert (Hne : HostValue r <> ""%string).
    { intros E. rewrite E in H6. discriminate. }
    rewrite RouteDest_host by assumption.
    now rewrite (isIPv6_not_IPv4OrCIDR _ H6).
  - intros Hh H6. unfold RouteDest. rewrite Hh. simpl.
    fold (networkOf r). destruct (isEmpty (networkOf r)); [reflexivity|].
    now rewrite (isIPv6_To4_nil _ H6).
  - intros Hh Hn Hv H6. rewrite RouteDest_network by assumption.
    unfold maskBits. rewrite (isIPv6_To4_nil _ H6).
    now destruct (isEmpty (MaskValue r)).
Qed.

(** The IPv6 record of parser_test.go, an IPv6 CIDR as host, an IPv6
    network, and an IPv6 mask on an IPv4 network. *)
Lemma RouteDest_IPv6_empty_witness :
  RouteDest (mkStub "2001:db8::1" "" "" "" 0 0 "ipv6" "" "" false false) = ""%string
  /\ RouteDest (mkStub "2001:db8::/32" "" "" "" 0 0 "ipv6" "" "" false false) = ""%string
  /\ RouteDest (mkStub "" "" "fe80::1" "" 64 0 "ipv6" "" "" false false) = ""%string
  /\ RouteDest (mkStub "" "192.168.0.0" "" "ffff:ffff::" 0 0 "" "" "" false false)
     = "192.168.0.0"%string.
Proof.
  split; [|split; [|split]].
  - apply (proj1 (RouteDest_IPv6_empty
                    (mkStub "2001:db8::1" "" "" "" 0 0 "ipv6" "" "" false false))).
    vm_compute. reflexivity.
  - apply (proj1 (RouteDest_IPv6_empty
                    (mkStub "2001:db8::/32" "" "" "" 0 0 "ipv6" "" "" false false))).
    vm_compute. reflexivity.
  - apply (proj1 (proj2 (RouteDest_IPv6_empty
                           (mkStub "" "" "fe80::1" "" 64 0 "ipv6" "" "" false false))));
      vm_compute; reflexivity.
  - etransitivity;
      [apply (proj2 (proj2 (RouteDest_IPv6_empty
                              (mkStub "" "192.168.0.0" "" "ffff:ffff::" 0 0 "" "" ""
                                 false false))));
       [reflexivity|discriminate|vm_compute; discriminate|vm_compute; reflexivity]
      |reflexivity].
Defined.

(** C4 as stated fails: with the IPv6 value "ffff:ffff::" as mask, or the IPv6
    value "fe80::1" as [ip] beside an IPv4 [network], the destination is
    the network address, not the empty string. *)
Lemma RouteDest_IPv6_counterexample :
  isIPv6 "ffff:ffff::" = true
  /\ RouteDest (mkStub "" "192.168.0.0" "" "ffff:ffff::" 0 0 "" "" "" false false)
     = "192.168.0.0"%string
  /\ isIPv6 "fe80::1" = true
  /\ RouteDest (mkStub "" "192.168.0.0" "fe80::1" "" 0 0 "" "" "" false false)
     = "192.168.0.0"%string.
Proof. repeat split; vm_compute; reflexivity. Qed.

(** ** Facts about [TrimSpace] *)

Section TrimFacts.

Variable p1 : ascii -> bool.
Variable p2 : ascii -> ascii -> bool.
Variable p3 : ascii -> ascii -> ascii -> bool.

Lemma trimRunes_fix (l : list ascii) :
  startsRune p1 p2 p3 l = false -> Strings.trimRunes p1 p2 p3 l = l.
Proof.
  destruct l as [|c1 [|c2 [|c3 l]]]; simpl; try reflexivity.
  - rewrite orb_false_r. now intros ->.
  - intros [-> [-> _]%orb_false_elim]%orb_false_elim. reflexivity.
  - intros [-> [-> ->]%orb_false_elim]%orb_false_elim. reflexivity.
Qed.

Lemma trimRunes_spec (n : nat) (l : list ascii) :
  (length l <= n)%nat ->
  startsRune p1 p2 p3 (Strings.trimRunes p1 p2 p3 l) = false
  /\ exists pre, l = pre ++ Strings.trimRunes p1 p2 p3 l.
Proof.
  revert l. induction n as [|n IH]; intros l Hl.
  - destruct l; [|simpl in Hl; lia]. split; [reflexivity|now exists []].
  - destruct l as [|c1 r1]; [split; [reflexivity|now exists []]|].
    simpl in Hl. cbn [Strings.trimRunes].
    destruct (p1 c1) eqn:E1.
    { destruct (IH r1 ltac:(lia)) as [Hs [pre Hpre]].
      split; [exact Hs|]. exists (c1 :: pre). simpl. now f_equal. }
    destruct r1 as [|c2 r2].
    { split; [simpl; now rewrite E1|now exists []]. }
    simpl in Hl. destruct (p2 c1 c2) eqn:E2.
    { destruct (IH r2 ltac:(lia)) as [Hs [pre Hpre]].
      split; [exact Hs|]. exists (c1 :: c2 :: pre). simpl. now do 2 f_equal. }
    destruct r2 as [|c3 r3].
    { split; [simpl; now rewrite E1, E2|now exists []]. }
    simpl in Hl. destruct (p3 c1 c2 c3) eqn:E3.
    { destruct (IH r3 ltac:(lia)) as [Hs [pre Hpre]].
      split; [exact Hs|]. exists (c1 :: c2 :: c3 :: pre). simpl. now do 3 f_equal. }
    split; [simpl; now rewrite E1, E2, E3|now exists []].
Qed.

Lemma trimRunes_starts (l : list ascii) :
  startsRune p1 p2 p3 (Strings.trimRunes p1 p2 p3 l) = false.
Proof. apply (trimRunes_spec (length l)). lia. Qed.

Lemma trimRunes_suffix (l : list ascii) :
  exists pre, l = pre ++ Strings.trimRunes p1 p2 p3 l.
Proof. apply (trimRunes_spec (length l)). lia. Qed.

Lemma trimRunes_idem (l : list ascii) :
  Strings.trimRunes p1 p2 p3 (Strings.trimRunes p1 p2 p3 l)
  = Strings.trimRunes p1 p2 p3 l.
Proof. apply trimRunes_fix, trimRunes_starts. Qed.

Lemma startsRune_prefix (p q : list ascii) :
  startsRune p1 p2 p3 (p ++ q) = false -> startsRune p1 p2 p3 p = false.
Proof.
  destruct p as [|c1 [|c2 [|c3 p]]]; simpl; try reflexivity.
  - intros [-> _]%orb_false_elim. reflexivity.
  - intros [-> [-> _]%orb_false_elim]%orb_false_elim. reflexivity.
  - intros [-> [-> ->]%orb_false_elim]%orb_false_elim. reflexivity.
Qed.

End TrimFacts.

Section TrimSpace.

Lemma plain_left (c : ascii) (l : list ascii) :
  plain c = true -> Strings.trimLeftSpace (c :: l) = c :: l.
Proof.
  unfold plain. intros Hc. apply trimRunes_fix.
  unfold startsRune, Strings.asciiSpace, Strings.space2, Strings.space3.
  assert (E1 : ((9 <=? byteOf c) && (byteOf c <=? 13) || (byteOf c =? 32)) = false) by lia.
  assert (E2 : (byteOf c =? 194) = false) by lia.
  assert (E3 : (byteOf c =? 225) = false) by lia.
  assert (E4 : (byteOf c =? 226) = false) by lia.
  assert (E5 : (byteOf c =? 227) = false) by lia.
  cbv zeta. rewrite E1, E2, E3, E4, E5. simpl.
  destruct l as [|c2 [|c3 l]]; reflexivity.
Qed.

Lemma plain_right (c : ascii) (l : list ascii) :
  plain c = true -> Strings.trimRightSpaceRev (c :: l) = c :: l.
Proof.
  unfold plain. intros Hc. apply trimRunes_fix.
  unfold startsRune, Strings.asciiSpace, Strings.space2, Strings.space3.
  assert (E1 : ((9 <=? byteOf c) && (byteOf c <=? 13) || (byteOf c =? 32)) = false) by lia.
  assert (E2 : ((byteOf c =? 133) || (byteOf c =? 160)) = false) by lia.
  assert (E3 : (byteOf c =? 128) = false) by lia.
  assert (E4 : ((128 <=? byteOf c) && (byteOf c <=? 138) || (byteOf c =? 168)
                || (byteOf c =? 169) || (byteOf c =? 175)) = false) by lia.
  assert (E5 : (byteOf c =? 159) = false) by lia.
  destruct l as [|c2 [|c3 l]]; cbv zeta; rewrite ?E1, ?E2, ?E3, ?E4, ?E5;
    rewrite ?andb_false_r; reflexivity.
Qed.

(** A string that starts and ends with a printable ASCII character is left
    as it is. *)
Lemma TrimSpace_plain (s : string) (c1 c2 : ascii) :
  keenetic.firstByte s = Some c1 -> keenetic.lastByte s = Some c2 ->
  plain c1 = true -> plain c2 = true ->
  Strings.TrimSpace s = s.
Proof.
  intros Hf Hl H1 H2. unfold Strings.TrimSpace, Strings.trimRightSpace.
  destruct s as [|c s]; [discriminate|]. simpl in Hf. injection Hf as ->.
  cbn [list_ascii_of_string]. rewrite (plain_left _ _ H1).
  assert (Hlast : exists l', rev (c1 :: list_ascii_of_string s) = c2 :: l').
  { clear H1 H2. revert c1 Hl. induction s as [|c s IH]; intros c1 Hl.
    - simpl in Hl. injection Hl as ->. now exists [].
    - change (keenetic.lastByte (String c1 (String c s)))
        with (keenetic.lastByte (String c s)) in Hl.
      destruct (IH _ Hl) as [l' Hl'].
      exists (l' ++ [c1]). cbn [list_ascii_of_string] in *.
      change (rev (c1 :: c :: list_ascii_of_string s))
        with (rev (c :: list_ascii_of_string s) ++ [c1]).
      now rewrite Hl'. }
  destruct Hlast as [l' Hl']. rewrite Hl', (plain_right _ _ H2), <- Hl'.
  rewrite rev_involutive.
  change (c1 :: list_ascii_of_string s) with (list_ascii_of_string (String c1 s)).
  apply string_of_list_ascii_of_string.
Qed.

Lemma TrimSpace_idem (s : string) :
  Strings.TrimSpace (Strings.TrimSpace s) = Strings.TrimSpace s.
Proof.
  unfold Strings.TrimSpace, Strings.trimRightSpace.
  rewrite list_ascii_of_string_of_list_ascii.
  set (l := Strings.trimLeftSpace (list_ascii_of_string s)).
  set (t := rev (Strings.trimRightSpaceRev (rev l))).
  assert (Hpre : exists q, l = t ++ q).
  { destruct (trimRunes_suffix Strings.asciiSpace (fun c1 c2 => Strings.space2 c2 c1)
                (fun c1 c2 c3 => Strings.space3 c3 c2 c1) (rev l)) as [pre Hpre].
    exists (rev pre). subst t. unfold Strings.trimRightSpaceRev.
    rewrite <- rev_app_distr, <- Hpre. now rewrite rev_involutive. }
  destruct Hpre as [q Hq].
  assert (Hl : startsRune Strings.asciiSpace Strings.space2 Strings.space3 l = false)
    by apply trimRunes_starts.
  rewrite Hq in Hl. apply startsRune_prefix in Hl.
  unfold Strings.trimLeftSpace at 1. rewrite (trimRunes_fix _ _ _ _ Hl).
  subst t. rewrite rev_involutive. unfold Strings.trimRightSpaceRev.
  now rewrite trimRunes_idem.
Qed.

End TrimSpace.

(** ** Valid destinations *)

Section Valid.

Lemma addrChar_plain (c : ascii) : addrChar c = true -> plain c = true.
Proof.
  unfold addrChar, Net.hexVal, plain.
  destruct ((48 <=? byteOf c) && (byteOf c <=? 57)) eqn:E1; [lia|].
  destruct ((97 <=? byteOf c) && (byteOf c <=? 102)) eqn:E2; [lia|].
  destruct ((65 <=? byteOf c) && (byteOf c <=? 70)) eqn:E3; [lia|].
  intros [Hc|Hc]%orb_prop; apply Ascii.eqb_eq in Hc; subst c; reflexivity.
Qed.

Lemma isDigit_plain (c : ascii) : isDigit c = true -> plain c = true.
Proof. intros Hc. now apply addrChar_plain, isDigit_addrChar. Qed.

Lemma allChars_first (P : ascii -> bool) (s : string) :
  allChars P s = true -> s <> ""%string ->
  exists c, keenetic.firstByte s = Some c /\ P c = true.
Proof.
  destruct s as [|c s]; [congruence|]. simpl. intros [Hc _]%andb_prop _. now exists c.
Qed.

Lemma allChars_last (P : ascii -> bool) (s : string) :
  allChars P s = true -> s <> ""%string ->
  exists c, keenetic.lastByte s = Some c /\ P c = true.
Proof.
  induction s as [|c s IH]; [congruence|]. simpl. intros [Hc Hs]%andb_prop _.
  destruct s as [|c' s]; [now exists c|]. apply IH; [assumption|discriminate].
Qed.

Lemma firstByte_app (s t : string) :
  s <> ""%string -> keenetic.firstByte (s +:+ t) = keenetic.firstByte s.
Proof. destruct s; [congruence|reflexivity]. Qed.

Lemma lastByte_app (s t : string) :
  t <> ""%string -> keenetic.lastByte (s +:+ t) = keenetic.lastByte t.
Proof.
  intros Ht. induction s as [|c s IH]; [reflexivity|].
  rewrite append_cons. rewrite <- IH.
  destruct (s +:+ t) eqn:E; [|reflexivity].
  destruct s; [rewrite append_nil_l in E; congruence|discriminate].
Qed.

Lemma dtoiLoop_digits (s : string) (n : Z) (i : nat) (n' : Z) (i' : nat) :
  Net.dtoiLoop s n i = (n', i', true) ->
  (i' <= i + String.length s)%nat
  /\ (i' = i + String.length s -> allChars isDigit s = true)%nat.
Proof.
  revert n i. induction s as [|c s IH]; intros n i; simpl.
  - destruct (i =? 0)%nat; [discriminate|]. intros [= <- <-]. split; [lia|reflexivity].
  - destruct (isDigit c) eqn:Ed.
    + destruct (16777215 <=? n * 10 + digitVal c); [discriminate|].
      intros Hl. apply IH in Hl as [Hle Hall]. split; [lia|].
      intros Hi. apply Hall. lia.
    + destruct (i =? 0)%nat; [discriminate|]. intros [= <- <-]. split; lia.
Qed.

Lemma ParseAddr_chars (s : string) (a : Net.Addr) :
  Net.ParseAddr s = Some a -> Net.Zone a = ""%string ->
  allChars addrChar s = true /\ s <> ""%string.
Proof.
  intros Ha Hz. split.
  - eapply parseAddrScan_chars; eassumption.
  - intros ->. discriminate.
Qed.

(** A valid destination has no space around it. *)
Lemma valid_TrimSpace (h : string) :
  isIPv4OrCIDR h = true -> Strings.TrimSpace h = h.
Proof.
  unfold isIPv4OrCIDR. destruct (Strings.Contains h "/") eqn:Ec.
  - unfold Net.ParseCIDR.
    destruct (Net.cut "/" h) as [[addr mask]|] eqn:Ecut; [|discriminate].
    apply cut_spec in Ecut.
    destruct (Net.ParseAddr addr) as [a|] eqn:Ea; [|discriminate].
    destruct (isEmpty (Net.Zone a)) eqn:Ez; [|discriminate]. cbn [negb].
    apply isEmpty_true in Ez. destruct (ParseAddr_chars _ _ Ea Ez) as [Haddr Hne].
    destruct (Net.dtoi mask) as [[n i] ok] eqn:Ed.
    destruct ok; [|discriminate]. cbn [negb orb].
    destruct (i =? String.length mask)%nat eqn:Ei; [|discriminate]. intros _.
    apply Nat.eqb_eq in Ei. unfold Net.dtoi in Ed.
    destruct (dtoiLoop_digits _ _ _ _ _ Ed) as [_ Hd]. specialize (Hd Ei).
    assert (Hm : mask <> ""%string) by (intros ->; discriminate).
    destruct (allChars_first _ _ Haddr Hne) as [c1 [Hf H1]].
    destruct (allChars_last _ _ Hd Hm) as [c2 [Hl H2]].
    apply (TrimSpace_plain h c1 c2).
    + subst h. now rewrite firstByte_app.
    + subst h. rewrite lastByte_app by discriminate.
      change (String "/" mask) with ("/" +:+ mask). now rewrite lastByte_app.
    + now apply addrChar_plain.
    + now apply isDigit_plain.
  - destruct (Net.isNil (Net.ParseIP h)) eqn:En; [discriminate|]. intros _.
    apply isNil_false in En.
    assert (Hne : h <> ""%string) by (intros ->; now apply En).
    apply ParseIP_chars in En.
    destruct (allChars_first _ _ En Hne) as [c1 [Hf H1]].
    destruct (allChars_last _ _ En Hne) as [c2 [Hl H2]].
    apply (TrimSpace_plain h c1 c2); auto using addrChar_plain.
Qed.

(** A valid destination is normalized without error. *)
Lemma valid_normalizeHost (h : string) :
  isIPv4OrCIDR h = true -> normalizeHost h = Ok (normalForm h).
Proof.
  intros Hv. unfold normalForm.
  assert (exists n, normalizeHost h = Ok n) as [n ->]; [|reflexivity].
  unfold normalizeHost. rewrite (valid_TrimSpace h Hv).
  destruct (isEmpty h) eqn:Ee.
  { apply isEmpty_true in Ee. subst h. discriminate. }
  unfold isIPv4OrCIDR in Hv. destruct (Strings.Contains h "/").
  - destruct (Net.ParseCIDR h) as [[ip n]|]; [|discriminate].
    apply negb_true_iff in Hv. rewrite Hv. eauto.
  - destruct (Net.isNil (Net.ParseIP h)); [discriminate|].
    apply negb_true_iff in Hv. rewrite Hv. eauto.
Qed.

End Valid.

(** ** Grouping, then flattening *)

Section RoundTrip.

Lemma groupStep_same (k : routeGroupKey) (hs : list string) (r : routes.Route) :
  keyOf r = k -> isIPv4OrCIDR (routes.Host r) = true ->
  groupStep ({[k := hs]}, [k]) r = ({[k := hs ++ [routes.Host r]]}, [k]).
Proof.
  intros Hk Hv. unfold groupStep. rewrite Hv, Hk.
  destruct (isEmpty (routes.Host r)) eqn:Ee.
  { apply isEmpty_true in Ee. rewrite Ee in Hv. discriminate. }
  cbn [negb orb]. rewrite lookup_singleton_eq. cbn [default].
  now rewrite insert_singleton_eq.
Qed.

Lemma fold_groupStep_same (k : routeGroupKey) (rs : list routes.Route) (hs : list string) :
  Forall (fun r => keyOf r = k) rs ->
  Forall (fun r => isIPv4OrCIDR (routes.Host r) = true) rs ->
  fold_left groupStep rs ({[k := hs]}, [k])
  = ({[k := hs ++ map routes.Host rs]}, [k]).
Proof.
  revert hs. induction rs as [|r rs IH]; intros hs Hk Hv; cbn [fold_left map].
  - now rewrite app_nil_r.
  - inversion Hk as [|? ? Hr Hk']; subst. inversion Hv as [|? ? Hvr Hv']; subst.
    rewrite groupStep_same by (reflexivity || assumption).
    rewrite IH by assumption. now rewrite <- app_assoc.
Qed.

Lemma ToYAML_one_group (k : routeGroupKey) (rs : list routes.Route) :
  rs <> [] ->
  Forall (fun r => keyOf r = k) rs ->
  Forall (fun r => isIPv4OrCIDR (routes.Host r) = true) rs ->
  ToYAML rs = {| Routes := [groupWith k (map routes.Host rs)] |}.
Proof.
  intros Hne Hk Hv. destruct rs as [|r rs]; [congruence|].
  inversion Hk as [|? ? Hr Hk']; subst. inversion Hv as [|? ? Hvr Hv']; subst.
  unfold ToYAML. cbn [fold_left].
  assert (Hfirst : groupStep (∅, []) r = ({[keyOf r := [routes.Host r]]}, [keyOf r])).
  { unfold groupStep.
    destruct (isEmpty (routes.Host r)) eqn:Ee.
    { apply isEmpty_true in Ee. rewrite Ee in *. discriminate. }
    rewrite Hvr. cbn [negb orb]. rewrite lookup_empty. cbn [default app].
    now rewrite insert_empty. }
  rewrite Hfirst, fold_groupStep_same by assumption.
  cbn [map]. unfold groupOf, groupWith. now rewrite lookup_singleton_eq.
Qed.

Lemma flattenHosts_valid (g : RouteGroup) (hosts : list string) (out : list routes.Route) :
  Forall (fun h => isIPv4OrCIDR h = true) hosts ->
  flattenHosts g hosts out = Ok (out ++ map (fun h => routeOf g (normalForm h)) hosts).
Proof.
  revert out. induction hosts as [|h hosts IH]; intros out Hv; simpl.
  - now rewrite app_nil_r.
  - inversion Hv; subst. rewrite valid_normalizeHost by assumption.
    rewrite IH by assumption. now rewrite <- app_assoc.
Qed.

End RoundTrip.

(** C6, amended.  For every list of N >= 1 canonical routes that share
    (comment, gateway, interface, auto, reject), with exactly one of gateway
    and interface set and valid IPv4/CIDR destinations, grouping gives
    exactly one group, which holds the N destinations in encounter order;
    flattening it gives the N routes in order with the same attributes and
    each destination in the normal form of [normalizeHost]; so it gives the
    routes back when their destinations are in normal form already. *)
Theorem group_then_flatten (rs : list routes.Route) (k : routeGroupKey) :
  rs <> [] ->
  Forall (fun r => keyOf r = k) rs ->
  Forall (fun r => isIPv4OrCIDR (routes.Host r) = true) rs ->
  isEmpty (gateway k) <> isEmpty (iface k) ->
  ToYAML rs = {| Routes := [groupWith k (map routes.Host rs)] |}
  /\ FlattenToEntries (Some (ToYAML rs)) = Ok (map normalRoute rs)
  /\ (Forall (fun r => normalForm (routes.Host r) = routes.Host r) rs ->
      FlattenToEntries (Some (ToYAML rs)) = Ok rs).
Proof.
  intros Hne Hk Hv Hone.
  assert (Hy := ToYAML_one_group k rs Hne Hk Hv).
  assert (Hflat : FlattenToEntries (Some (ToYAML rs)) = Ok (map normalRoute rs)).
  { rewrite Hy, flattenGroups_nil_file.
    cbn [flattenGroups groupWith Hosts GroupGateway GroupInterface].
    assert (Hlen : (length (map routes.Host rs) =? 0)%nat = false).
    { destruct rs; [congruence|reflexivity]. }
    assert (Heqb : Bool.eqb (negb (isEmpty (gateway k))) (negb (isEmpty (iface k))) = false).
    { destruct (isEmpty (gateway k)), (isEmpty (iface k)); try reflexivity; congruence. }
    rewrite Hlen, Heqb. rewrite flattenHosts_valid by (now apply Forall_map).
    cbn [app]. f_equal. rewrite map_map. unfold routeOf, groupWith.
    cbn [GroupComment GroupGateway GroupInterface GroupAuto GroupReject].
    clear -Hk. induction Hk as [|r rs Hr _ IH]; [reflexivity|].
    cbn [map]. rewrite IH. f_equal.
    destruct r. unfold normalRoute, keyOf in *. subst k. reflexivity. }
  split; [exact Hy|]. split; [exact Hflat|].
  intros Hn. rewrite Hflat. f_equal.
  clear -Hn. induction Hn as [|r rs Hr _ IH]; [reflexivity|].
  cbn [map]. rewrite IH. f_equal. destruct r. unfold normalRoute in *.
  simpl in *. now rewrite Hr.
Qed.

(** Two routes of parser_test.go, in normal form, and a third that is
    not. *)
Lemma group_then_flatten_witness :
  ToYAML [ routes.mkRoute "8.8.8.8" "test" "10.0.0.1" "" true false;
           routes.mkRoute "192.168.0.0/24" "test" "10.0.0.1" "" true false;
           routes.mkRoute "10.0.0.5/8" "test" "10.0.0.1" "" true false ]
  = {| Routes := [ mkRouteGroup "test" "10.0.0.1" "" true false
                     ["8.8.8.8"; "192.168.0.0/24"; "10.0.0.5/8"]%string [] ] |}
  /\ FlattenToEntries
       (Some (ToYAML [ routes.mkRoute "8.8.8.8" "test" "10.0.0.1" "" true false;
                       routes.mkRoute "192.168.0.0/24" "test" "10.0.0.1" "" true false;
                       routes.mkRoute "10.0.0.5/8" "test" "10.0.0.1" "" true false ]))
     = Ok [ routes.mkRoute "8.8.8.8" "test" "10.0.0.1" "" true false;
            routes.mkRoute "192.168.0.0/24" "test" "10.0.0.1" "" true false;
            routes.mkRoute "10.0.0.0/8" "test" "10.0.0.1" "" true false ].
Proof.
  destruct (group_then_flatten
              [ routes.mkRoute "8.8.8.8" "test" "10.0.0.1" "" true false;
                routes.mkRoute "192.168.0.0/24" "test" "10.0.0.1" "" true false;
                routes.mkRoute "10.0.0.5/8" "test" "10.0.0.1" "" true false ]
              (mkKey "test" "10.0.0.1" "" true false)) as [Hy [Hf _]].
  - discriminate.
  - repeat constructor.
  - repeat constructor.
  - discriminate.
  - split; [exact Hy|]. rewrite Hf. vm_compute. reflexivity.
Defined.

(** C6 as stated fails: the canonical route to "10.0.0.5/8" has a valid
    IPv4 CIDR destination and one gateway; grouping gives one group that
    holds it, and flattening that group gives the route to "10.0.0.0/8",
    not the route that was grouped.  And no route gives no group, not
    one. *)
Lemma group_then_flatten_counterexample :
  isIPv4OrCIDR "10.0.0.5/8" = true
  /\ ToYAML [routes.mkRoute "10.0.0.5/8" "test" "10.0.0.1" "" true false]
     = {| Routes := [mkRouteGroup "test" "10.0.0.1" "" true false ["10.0.0.5/8"%string] []] |}
  /\ FlattenToEntries
       (Some (ToYAML [routes.mkRoute "10.0.0.5/8" "test" "10.0.0.1" "" true false]))
     = Ok [routes.mkRoute "10.0.0.0/8" "test" "10.0.0.1" "" true false]
  /\ ToYAML [] = {| Routes := [] |}.
Proof. repeat split; vm_compute; reflexivity. Qed.

(** ** The flexible scalar decoders *)

Section Decoders.

Context {F : Type} `{keenetic.Float64 F}.

Lemma Boolish_cases (b : keenetic.Boolish) (data : string) :
  keenetic.Boolish_UnmarshalJSON (Some b) data =
    (Some (if isNullish data then false
           else if saysTrue data then true
           else if saysFalse data then false
           else match keenetic.ParseFloat (scalarText data) with
                | Some f => negb (keenetic.feq f keenetic.fzero)
                | None => false
                end),
     None).
Proof.
  unfold keenetic.Boolish_UnmarshalJSON, isNullish, saysTrue, saysFalse, scalarText.
  destruct (isEmpty (Strings.TrimSpace data) || String.eqb (Strings.TrimSpace data) "null");
    [reflexivity|].
  cbv zeta.
  destruct (_ || _ || _); [reflexivity|].
  destruct (_ || _ || _); [reflexivity|].
  now destruct (keenetic.ParseFloat _).
Qed.

Lemma Intish_cases (i : keenetic.Intish) (data : string) :
  keenetic.Intish_UnmarshalJSON (Some i) data =
    (Some (if isNullish data then 0
           else match Strconv.Atoi (scalarText data) with
                | Some n => n
                | None =>
                    match keenetic.ParseFloat (scalarText data) with
                    | Some f => if keenetic.feq f (keenetic.Trunc f)
                                then keenetic.toInt f else 0
                    | None => 0
                    end
                end),
     None).
Proof.
  unfold keenetic.Intish_UnmarshalJSON, isNullish, scalarText.
  destruct (isEmpty (Strings.TrimSpace data) || String.eqb (Strings.TrimSpace data) "null");
    [reflexivity|].
  cbv zeta. destruct (Strconv.Atoi _); [reflexivity|].
  destruct (keenetic.ParseFloat _) as [f|]; [|reflexivity].
  now destruct (keenetic.feq f (keenetic.Trunc f)).
Qed.

End Decoders.

(** C9.  On every data -- so on every valid JSON scalar -- and whatever the
    receiver, the boolean and the integer decoder return no error.  The
    boolean decoder gives false on null and on empty data; otherwise, on the
    text trimmed and unquoted, true on "true", "1" and "yes" in any case,
    false on "false", "0" and "no" in any case, and on any other text true
    when [ParseFloat] accepts it with a value that is not zero, and false
    when it accepts it with zero or rejects it.  The integer decoder gives 0
    on null and on empty data, and on a text that [Atoi] and [ParseFloat]
    both reject. *)
Theorem flexible_decoders_never_fail {F : Type} `{keenetic.Float64 F}
    (data : string) (b : option keenetic.Boolish) (i : option keenetic.Intish) :
  snd (keenetic.Boolish_UnmarshalJSON b data) = None
  /\ snd (keenetic.Intish_UnmarshalJSON i data) = None
  /\ (forall b0, (isNullish data = true ->
        fst (keenetic.Boolish_UnmarshalJSON (Some b0) data) = Some false)
      /\ (isNullish data = false -> saysTrue data = true ->
          fst (keenetic.Boolish_UnmarshalJSON (Some b0) data) = Some true)
      /\ (isNullish data = false -> saysTrue data = false -> saysFalse data = true ->
          fst (keenetic.Boolish_UnmarshalJSON (Some b0) data) = Some false)
      /\ (isNullish data = false -> saysTrue data = false -> saysFalse data = false ->
          forall f, keenetic.ParseFloat (scalarText data) = Some f ->
          fst (keenetic.Boolish_UnmarshalJSON (Some b0) data)
          = Some (negb (keenetic.feq f keenetic.fzero)))
      /\ (isNullish data = false -> saysTrue data = false -> saysFalse data = false ->
          keenetic.ParseFloat (scalarText data) = None ->
          fst (keenetic.Boolish_UnmarshalJSON (Some b0) data) = Some false))
  /\ (forall i0, (isNullish data = true ->
        fst (keenetic.Intish_UnmarshalJSON (Some i0) data) = Some 0)
      /\ (Strconv.Atoi (scalarText data) = None ->
          keenetic.ParseFloat (scalarText data) = None ->
          fst (keenetic.Intish_UnmarshalJSON (Some i0) data) = Some 0)).
Proof.
  split; [|split; [|split]].
  - destruct b as [b0|]; [now rewrite Boolish_cases|reflexivity].
  - destruct i as [i0|]; [now rewrite Intish_cases|reflexivity].
  - intros b0. rewrite Boolish_cases. cbn [fst]. repeat split.
    + now intros ->.
    + now intros -> ->.
    + now intros -> -> ->.
    + now intros -> -> -> f ->.
    + now intros -> -> -> ->.
  - intros i0. rewrite Intish_cases. cbn [fst]. split.
    + now intros ->.
    + intros -> ->. now destruct (isNullish data).
Qed.

(** The decoders on the JSON scalars [true], ["YES"], [7], [0], ["no"],
    ["router"], [null] and [""]. *)
Lemma flexible_decoders_never_fail_witness :
  keenetic.Boolish_UnmarshalJSON (Some false) "true" = (Some true, None)
  /\ fst (keenetic.Boolish_UnmarshalJSON (Some false) (String "034" (String.app "YES" (String "034" ""))))
     = Some true
  /\ fst (keenetic.Boolish_UnmarshalJSON (Some false) "7") = Some true
  /\ fst (keenetic.Boolish_UnmarshalJSON (Some true) "0") = Some false
  /\ fst (keenetic.Boolish_UnmarshalJSON (Some true) "router") = Some false
  /\ fst (keenetic.Boolish_UnmarshalJSON (Some true) "null") = Some false
  /\ fst (keenetic.Intish_UnmarshalJSON (Some 5) "null") = Some 0
  /\ fst (keenetic.Intish_UnmarshalJSON (Some 5) "router") = Some 0
  /\ snd (keenetic.Intish_UnmarshalJSON (Some 5) "router") = None.
Proof.
  pose proof (flexible_decoders_never_fail "true" (Some false) None) as [Ht _].
  pose proof (flexible_decoders_never_fail "router" None (Some 5)) as [_ [Hr _]].
  split; [|repeat split; try exact Hr; vm_compute; reflexivity].
  destruct (keenetic.Boolish_UnmarshalJSON (Some false) "true") as [v e] eqn:E.
  simpl in Ht. subst e. vm_compute in E. now inversion E.
Defined.

(** ** JSON texts *)

Section Bytes.

Lemma byteOf_range (c : ascii) : 0 <= byteOf c < 256.
Proof.
  unfold byteOf. pose proof (N_ascii_bounded c). lia.
Qed.

Lemma charOf_byteOf (c : ascii) : charOf (byteOf c) = c.
Proof.
  unfold charOf. pose proof (byteOf_range c) as Hr.
  rewrite Z.mod_small by lia. unfold byteOf. rewrite N2Z.id.
  apply ascii_N_embedding.
Qed.

Lemma byteOf_inj (c : ascii) (b : Z) : byteOf c = b -> c = charOf b.
Proof. intros <-. symmetry. apply charOf_byteOf. Qed.

Lemma forallb_seqZ (P : Z -> bool) (lo n : Z) :
  forallb P (seqZ lo n) = true -> forall z, lo <= z < lo + n -> P z = true.
Proof.
  intros Hall z Hz. rewrite forallb_forall in Hall. apply Hall.
  apply list_elem_of_In, elem_of_seqZ. exact Hz.
Qed.

End Bytes.

Section Runes.

(** The values of the sequences of two, three and four bytes. *)
Definition rune2 (s0 s1 : Z) : Z :=
  Z.lor (Z.shiftl (Z.land s0 31) 6) (Z.land s1 63).
Definition rune3 (s0 s1 s2 : Z) : Z :=
  Z.lor (Z.lor (Z.shiftl (Z.land s0 15) 12) (Z.shiftl (Z.land s1 63) 6)) (Z.land s2 63).
Definition rune4 (s0 s1 s2 s3 : Z) : Z :=
  Z.lor (Z.lor (Z.lor (Z.shiftl (Z.land s0 7) 18) (Z.shiftl (Z.land s1 63) 12))
               (Z.shiftl (Z.land s2 63) 6))
        (Z.land s3 63).

Definition separator (r : Z) : bool := (r =? 8232) || (r =? 8233).

(** Among the valid sequences, U+2028 and U+2029 are E2 80 A8 and E2 80 A9
    only: the check, byte after byte. *)
Definition checked4 (s0 s1 s2 s3 : Z) : bool :=
  negb (separator (rune4 s0 s1 s2 s3)).

Definition checked3 (sz : nat) (s0 s1 s2 : Z) : bool :=
  if (sz =? 3)%nat then
    implb (separator (rune3 s0 s1 s2))
          ((s0 =? 226) && (s1 =? 128) && (s2 =? rune3 s0 s1 s2 - 8064))
  else forallb (checked4 s0 s1 s2) (seqZ 128 64).

Definition checked2 (sz : nat) (s0 s1 : Z) : bool :=
  if (sz =? 2)%nat then negb (separator (rune2 s0 s1))
  else forallb (checked3 sz s0 s1) (seqZ 128 64).

Definition checked1 (s0 : Z) : bool :=
  match Utf8.leading s0 with
  | None => true
  | Some (sz, lo, hi) => forallb (checked2 sz s0) (seqZ lo (hi - lo + 1))
  end.

Lemma separators_checked : forallb checked1 (seqZ 0 256) = true.
Proof. vm_compute. reflexivity. Qed.

Lemma leading_spec (s0 : Z) (sz : nat) (lo hi : Z) :
  Utf8.leading s0 = Some (sz, lo, hi) ->
  194 <= s0 <= 244 /\ 128 <= lo /\ hi <= 191 /\ (sz = 2 \/ sz = 3 \/ sz = 4)%nat.
Proof.
  unfold Utf8.leading. intros Hl.
  destruct ((s0 <? 194) || (244 <? s0)) eqn:E; [discriminate|].
  apply orb_false_iff in E as [E1 E2]. apply Z.ltb_ge in E1, E2.
  assert (Hs0 : 194 <= s0 <= 244) by lia. clear E1 E2.
  destruct (s0 <? 224); [injection Hl as <- <- <-; repeat split; auto; lia|].
  destruct (s0 =? 224); [injection Hl as <- <- <-; repeat split; auto; lia|].
  destruct (s0 =? 237); [injection Hl as <- <- <-; repeat split; auto; lia|].
  destruct (s0 <? 240); [injection Hl as <- <- <-; repeat split; auto; lia|].
  destruct (s0 =? 240); [injection Hl as <- <- <-; repeat split; auto; lia|].
  destruct (s0 =? 244); injection Hl as <- <- <-; repeat split; auto; lia.
Qed.

Lemma separator_cases (s0 s1 s2 s3 : Z) (sz : nat) (lo hi : Z) :
  0 <= s0 < 256 ->
  Utf8.leading s0 = Some (sz, lo, hi) ->
  lo <= s1 <= hi -> 128 <= s2 <= 191 -> 128 <= s3 <= 191 ->
  match sz with
  | 2%nat => separator (rune2 s0 s1) = false
  | 3%nat => separator (rune3 s0 s1 s2) = true ->
             s0 = 226 /\ s1 = 128 /\ s2 = rune3 s0 s1 s2 - 8064
  | _ => separator (rune4 s0 s1 s2 s3) = false
  end.
Proof.
  intros H0 Hl H1 H2 H3.
  pose proof (forallb_seqZ checked1 0 256 separators_checked s0 ltac:(lia)) as Hc.
  unfold checked1 in Hc. rewrite Hl in Hc.
  pose proof (forallb_seqZ (checked2 sz s0) lo (hi - lo + 1) Hc s1 ltac:(lia)) as Hc1.
  clear Hc. unfold checked2 in Hc1.
  destruct (leading_spec _ _ _ _ Hl) as (_ & _ & _ & [-> | [-> | ->]]).
  - change (2 =? 2)%nat with true in Hc1. cbv iota in Hc1.
    now apply negb_true_iff in Hc1.
  - change (3 =? 2)%nat with false in Hc1. cbv iota in Hc1.
    pose proof (forallb_seqZ (checked3 3 s0 s1) 128 64 Hc1 s2 ltac:(lia)) as Hc2.
    clear Hc1. unfold checked3 in Hc2.
    change (3 =? 3)%nat with true in Hc2. cbv iota in Hc2.
    intros Hs. rewrite Hs in Hc2. cbn [implb] in Hc2.
    apply andb_true_iff in Hc2 as [Hc2 Hc3]. apply andb_true_iff in Hc2 as [Hc2 Hc4].
    apply Z.eqb_eq in Hc2, Hc3, Hc4. auto.
  - change (4 =? 2)%nat with false in Hc1. cbv iota in Hc1.
    pose proof (forallb_seqZ (checked3 4 s0 s1) 128 64 Hc1 s2 ltac:(lia)) as Hc2.
    clear Hc1. unfold checked3 in Hc2.
    change (4 =? 3)%nat with false in Hc2. cbv iota in Hc2.
    pose proof (forallb_seqZ (checked4 s0 s1 s2) 128 64 Hc2 s3 ltac:(lia)) as Hc3.
    unfold checked4 in Hc3. now apply negb_true_iff in Hc3.
Qed.

(** The bytes from 128 on. *)
Definition high (c : ascii) : bool := 128 <=? byteOf c.

Lemma EncodeRune_separator (c0 c1 c2 : ascii) (r : Z) :
  separator r = true ->
  byteOf c0 = 226 -> byteOf c1 = 128 -> byteOf c2 = r - 8064 ->
  String c0 (String c1 (String c2 EmptyString)) = Utf8.EncodeRune r.
Proof.
  intros Hs E0 E1 E2. apply byteOf_inj in E0, E1, E2. subst c0 c1 c2.
  unfold separator in Hs. apply orb_true_iff in Hs as [Hs|Hs];
    apply Z.eqb_eq in Hs; subst r; vm_compute; reflexivity.
Qed.

(** What a rune of more than one byte is made of. *)
Lemma DecodeRune_wide (c : ascii) (rest : string) (r : Z) (size : nat) :
  128 <= byteOf c ->
  Utf8.DecodeRuneInString (String c rest) = (r, size) ->
  size <> 1%nat ->
  exists chunk : string,
    String c rest = chunk +:+ Utf8.dropBytes size (String c rest)
    /\ Utf8.takeBytes size (String c rest) = chunk
    /\ String.length chunk = size
    /\ (2 <= size)%nat
    /\ allChars high chunk = true
    /\ (separator r = true -> chunk = Utf8.EncodeRune r).
Proof.
  intros Hc Hd Hsize. unfold Utf8.DecodeRuneInString in Hd.
  pose proof (byteOf_range c) as Hr0.
  destruct (byteOf c <? Utf8.RuneSelf) eqn:E0.
  { apply Z.ltb_lt in E0. unfold Utf8.RuneSelf in E0. lia. }
  destruct (Utf8.leading (byteOf c)) as [[[sz lo] hi]|] eqn:El.
  2:{ inversion Hd; subst. congruence. }
  destruct (leading_spec _ _ _ _ El) as (Hs0 & Hlo & Hhi & Hsz).
  destruct (String.length (String c rest) <? sz)%nat; [inversion Hd; subst; congruence|].
  destruct rest as [|c1 r1]; [inversion Hd; subst; congruence|].
  destruct ((byteOf c1 <? lo) || (hi <? byteOf c1)) eqn:E1;
    [inversion Hd; subst; congruence|].
  apply orb_false_iff in E1 as [E1a E1b]. apply Z.ltb_ge in E1a, E1b.
  assert (Hh0 : high c = true) by (unfold high; apply Z.leb_le; lia).
  assert (Hh1 : high c1 = true) by (unfold high; apply Z.leb_le; lia).
  destruct Hsz as [-> | [-> | ->]]; cbn [Nat.leb] in Hd.
  - inversion Hd; subst. exists (String c (String c1 EmptyString)).
    cbn [Utf8.dropBytes Utf8.takeBytes append String.length allChars].
    rewrite Hh0, Hh1. repeat split; try lia.
    intros Hs.
    pose proof (separator_cases (byteOf c) (byteOf c1) 128 128 _ _ _ Hr0 El
                  ltac:(lia) ltac:(lia) ltac:(lia)) as Hno.
    cbv beta iota in Hno. unfold rune2 in Hno. congruence.
  - destruct r1 as [|c2 r2]; [inversion Hd; subst; congruence|].
    destruct (Utf8.continuation (byteOf c2)) eqn:E2; cbn [negb] in Hd;
      [|inversion Hd; subst; congruence].
    unfold Utf8.continuation in E2. apply andb_true_iff in E2 as [E2a E2b].
    apply Z.leb_le in E2a, E2b.
    assert (Hh2 : high c2 = true) by (unfold high; apply Z.leb_le; lia).
    inversion Hd; subst. exists (String c (String c1 (String c2 EmptyString))).
    cbn [Utf8.dropBytes Utf8.takeBytes append String.length allChars].
    rewrite Hh0, Hh1, Hh2. repeat split; try lia.
    intros Hs.
    pose proof (separator_cases (byteOf c) (byteOf c1) (byteOf c2) 128 _ _ _ Hr0 El
                  ltac:(lia) ltac:(lia) ltac:(lia)) as Hsep.
    cbv beta iota in Hsep. unfold rune3 in Hsep.
    destruct (Hsep Hs) as (H0 & H1 & H2).
    now apply EncodeRune_separator.
  - destruct r1 as [|c2 r2]; [inversion Hd; subst; congruence|].
    destruct (Utf8.continuation (byteOf c2)) eqn:E2; cbn [negb] in Hd;
      [|inversion Hd; subst; congruence].
    unfold Utf8.continuation in E2. apply andb_true_iff in E2 as [E2a E2b].
    apply Z.leb_le in E2a, E2b.
    assert (Hh2 : high c2 = true) by (unfold high; apply Z.leb_le; lia).
    destruct r2 as [|c3 r3]; [inversion Hd; subst; congruence|].
    destruct (Utf8.continuation (byteOf c3)) eqn:E3; cbn [negb] in Hd;
      [|inversion Hd; subst; congruence].
    unfold Utf8.continuation in E3. apply andb_true_iff in E3 as [E3a E3b].
    apply Z.leb_le in E3a, E3b.
    assert (Hh3 : high c3 = true) by (unfold high; apply Z.leb_le; lia).
    inversion Hd; subst.
    exists (String c (String c1 (String c2 (String c3 EmptyString)))).
    cbn [Utf8.dropBytes Utf8.takeBytes append String.length allChars].
    rewrite Hh0, Hh1, Hh2, Hh3. repeat split; try lia.
    intros Hs.
    pose proof (separator_cases (byteOf c) (byteOf c1) (byteOf c2) (byteOf c3) _ _ _
                  Hr0 El ltac:(lia) ltac:(lia) ltac:(lia)) as Hno.
    cbv beta iota in Hno. unfold rune4 in Hno. congruence.
Qed.

End Runes.

Section Literals.

Lemma high_copied (c : ascii) (t : string) :
  high c = true ->
  readChars (String c t)
  = match readChars t with Some u => Some (String c u) | None => None end.
Proof.
  unfold high. intros Hc. apply Z.leb_le in Hc. cbn [readChars].
  destruct (Ascii.eqb c Json.quote) eqn:E1.
  { apply Ascii.eqb_eq in E1. subst c. vm_compute in Hc. congruence. }
  destruct (Ascii.eqb c Json.backslash) eqn:E2.
  { apply Ascii.eqb_eq in E2. subst c. vm_compute in Hc. congruence. }
  destruct (byteOf c <? 32) eqn:E3; [apply Z.ltb_lt in E3; lia|]. reflexivity.
Qed.

Lemma readChars_high (chunk t : string) :
  allChars high chunk = true ->
  readChars (chunk +:+ t)
  = match readChars t with Some u => Some (chunk +:+ u) | None => None end.
Proof.
  induction chunk as [|c chunk IH]; intros Hh.
  - rewrite append_nil_l. now destruct (readChars t).
  - cbn [allChars] in Hh. apply andb_true_iff in Hh as [Hc Hh].
    rewrite append_cons, high_copied, IH by assumption.
    now destruct (readChars t).
Qed.

(** An ASCII byte is read back from what [appendString] writes for it. *)
Lemma readChars_ascii (c : ascii) (t : string) :
  byteOf c < 128 ->
  readChars ((if Json.htmlSafeSet (byteOf c) then String c EmptyString else Json.escape c)
             +:+ t)
  = match readChars t with Some u => Some (String c u) | None => None end.
Proof.
  intros Hc.
  destruct c as [b0 b1 b2 b3 b4 b5 b6 b7].
  destruct b7;
    [exfalso; destruct b0, b1, b2, b3, b4, b5, b6; vm_compute in Hc; discriminate|].
  clear Hc. destruct b0, b1, b2, b3, b4, b5, b6; reflexivity.
Qed.

Lemma separator_written (r : Z) (t : string) :
  separator r = true ->
  readChars (String Json.backslash
               ("u202" +:+ String (Json.hexAt (Z.land r 15)) EmptyString) +:+ t)
  = match readChars t with Some u => Some (Utf8.EncodeRune r +:+ u) | None => None end.
Proof.
  unfold separator. intros Hs. apply orb_true_iff in Hs as [Hs|Hs];
    apply Z.eqb_eq in Hs; subst r; reflexivity.
Qed.

Lemma length_append (s t : string) :
  String.length (s +:+ t) = (String.length s + String.length t)%nat.
Proof.
  induction s as [|c s IH]; [reflexivity|].
  rewrite append_cons. cbn [String.length]. now rewrite IH.
Qed.

Lemma readChars_nil (t : string) :
  readChars t
  = match readChars t with Some u => Some (EmptyString +:+ u) | None => None end.
Proof. now destruct (readChars t). Qed.

(** What [appendString] writes between the quotes for a valid string reads
    back as the string. *)
Lemma readChars_appendRunes (fuel : nat) (s t : string) :
  (String.length s <= fuel)%nat ->
  Utf8.validRunes fuel s = true ->
  readChars (Json.appendRunes fuel s +:+ t)
  = match readChars t with Some u => Some (s +:+ u) | None => None end.
Proof.
  revert s. induction fuel as [|fuel IH]; intros s Hlen Hvalid.
  - destruct s; [|simpl in Hlen; lia]. apply readChars_nil.
  - destruct s as [|c rest]; [apply readChars_nil|].
    cbn [String.length] in Hlen.
    cbn [Json.appendRunes]. cbn [Utf8.validRunes] in Hvalid.
    destruct (byteOf c <? Utf8.RuneSelf) eqn:Ec.
    + apply Z.ltb_lt in Ec. unfold Utf8.RuneSelf in Ec.
      rewrite append_assoc, readChars_ascii by assumption.
      rewrite IH by (assumption || lia). now destruct (readChars t).
    + apply Z.ltb_ge in Ec. unfold Utf8.RuneSelf in Ec.
      destruct (Utf8.DecodeRuneInString (String c rest)) as [r size] eqn:Ed.
      destruct (size =? 1)%nat eqn:Es; [discriminate|].
      apply Nat.eqb_neq in Es.
      destruct (DecodeRune_wide c rest r size Ec Ed Es)
        as (chunk & Hsplit & Htake & Hsize & H2 & Hhigh & Hsep).
      rewrite andb_false_r.
      assert (Hrest : (String.length (Utf8.dropBytes size (String c rest)) <= fuel)%nat).
      { apply (f_equal String.length) in Hsplit. rewrite length_append in Hsplit.
        cbn [String.length] in Hsplit. lia. }
      fold (separator r).
      destruct (separator r) eqn:Er; rewrite append_assoc.
      * rewrite separator_written by assumption.
        rewrite IH by assumption. rewrite <- (Hsep eq_refl).
        destruct (readChars t); [|reflexivity].
        now rewrite <- append_assoc, <- Hsplit.
      * rewrite Htake, readChars_high, IH by assumption.
        destruct (readChars t); [|reflexivity].
        now rewrite <- append_assoc, <- Hsplit.
Qed.

(** A valid string is read back from its literal. *)
Lemma readString_appendString (s : string) :
  Utf8.ValidString s = true -> readString (Json.appendString s) = Some s.
Proof.
  intros Hv. unfold Json.appendString, Json.quoted, readString.
  rewrite Ascii.eqb_refl.
  rewrite (readChars_appendRunes _ s _ (Nat.le_refl _) Hv).
  cbn. now rewrite append_nil_r.
Qed.

Lemma jsonPlain_ascii (c : ascii) : jsonPlain c = true -> byteOf c < 128.
Proof.
  unfold jsonPlain, Json.htmlSafeSet. intros Hp.
  apply andb_true_iff in Hp as [Hp _]. apply andb_true_iff in Hp as [_ Hp].
  now apply Z.ltb_lt in Hp.
Qed.

(** A string of plain characters is written as it is. *)
Lemma appendRunes_plain (fuel : nat) (s : string) :
  (String.length s <= fuel)%nat ->
  allChars jsonPlain s = true -> Json.appendRunes fuel s = s.
Proof.
  revert s. induction fuel as [|fuel IH]; intros s Hlen Hp.
  - destruct s; [reflexivity|simpl in Hlen; lia].
  - destruct s as [|c rest]; [reflexivity|].
    cbn [allChars] in Hp. apply andb_true_iff in Hp as [Hc Hp].
    cbn [String.length] in Hlen. cbn [Json.appendRunes].
    pose proof (jsonPlain_ascii c Hc) as Ha. apply Z.ltb_lt in Ha.
    unfold Utf8.RuneSelf. rewrite Ha. unfold jsonPlain in Hc. rewrite Hc.
    rewrite IH by (assumption || lia). reflexivity.
Qed.

Lemma appendString_plain (s : string) :
  allChars jsonPlain s = true -> Json.appendString s = Json.quoted s.
Proof.
  intros Hp. unfold Json.appendString. now rewrite appendRunes_plain.
Qed.

Lemma validRunes_plain (fuel : nat) (s : string) :
  allChars jsonPlain s = true -> Utf8.validRunes fuel s = true.
Proof.
  revert s. induction fuel as [|fuel IH]; intros s Hp; [now destruct s|].
  destruct s as [|c rest]; [reflexivity|].
  cbn [allChars] in Hp. apply andb_true_iff in Hp as [Hc Hp].
  cbn [Utf8.validRunes]. pose proof (jsonPlain_ascii c Hc) as Ha.
  apply Z.ltb_lt in Ha. unfold Utf8.RuneSelf. rewrite Ha. now apply IH.
Qed.

Lemma readString_quoted (s : string) :
  allChars jsonPlain s = true -> readString (Json.quoted s) = Some s.
Proof.
  intros Hp. rewrite <- appendString_plain by assumption.
  apply readString_appendString, validRunes_plain, Hp.
Qed.

Lemma hexChar_plain (c : ascii) : hexChar c = true -> jsonPlain c = true.
Proof.
  unfold hexChar, jsonPlain, Json.htmlSafeSet. intros Hh.
  apply orb_true_iff in Hh as [Hh|Hh]; apply andb_true_iff in Hh as [H1 H2];
    apply Z.leb_le in H1, H2;
    repeat (apply andb_true_iff; split); try (apply Z.leb_le; lia);
    try (apply Z.ltb_lt; lia);
    apply negb_true_iff; repeat (apply orb_false_iff; split); apply Z.eqb_neq; lia.
Qed.

Lemma hexDigit_hexChar (d : Z) : 0 <= d < 16 -> hexChar (Net.hexDigit d) = true.
Proof.
  intros Hd.
  assert (Hc : d = 0 \/ d = 1 \/ d = 2 \/ d = 3 \/ d = 4 \/ d = 5 \/ d = 6 \/ d = 7
               \/ d = 8 \/ d = 9 \/ d = 10 \/ d = 11 \/ d = 12 \/ d = 13 \/ d = 14
               \/ d = 15) by lia.
  repeat (destruct Hc as [-> | Hc]; [reflexivity|]). subst d. reflexivity.
Qed.

Lemma hexString_hexChars (b : list Z) :
  Forall (fun v => 0 <= v < 256) b -> allChars hexChar (Net.hexString b) = true.
Proof.
  induction 1 as [|v b Hv Hb IH]; [reflexivity|].
  cbn [Net.hexString allChars]. rewrite IH, !hexDigit_hexChar; [reflexivity| |].
  - change 15 with (Z.ones 4). rewrite Z.land_ones by lia.
    apply Z.mod_pos_bound. lia.
  - rewrite Z.shiftr_div_pow2 by lia. change (2 ^ 4) with 16.
    split; [apply Z.div_pos; lia|apply Z.div_lt_upper_bound; lia].
Qed.

Lemma leBytes_range (w : nat) (x : Z) :
  Forall (fun v => 0 <= v < 256) (Crypto.leBytes w x).
Proof.
  revert x. induction w as [|w IH]; intros x; cbn [Crypto.leBytes]; constructor.
  - apply Z.mod_pos_bound. lia.
  - apply IH.
Qed.

Lemma sha256Sum256_range (data : list Z) :
  Forall (fun v => 0 <= v < 256) (Crypto.sha256Sum256 data).
Proof.
  unfold Crypto.sha256Sum256.
  induction (fold_left Crypto.sha256Block _ _) as [|x l IH]; [constructor|].
  cbn [map concat]. apply Forall_app. split; [|exact IH].
  unfold Crypto.beBytes. apply Forall_rev, leBytes_range.
Qed.

(** The digest is made of lower-case hex digits, which are written as they
    are. *)
Lemma passwordDigest_hex (login password realm challenge : string) :
  allChars hexChar (passwordDigest login password realm challenge) = true.
Proof.
  unfold passwordDigest, Crypto.sha256Hex, Crypto.EncodeToString.
  apply hexString_hexChars, sha256Sum256_range.
Qed.

Lemma passwordDigest_plain (login password realm challenge : string) :
  allChars jsonPlain (passwordDigest login password realm challenge) = true.
Proof.
  apply (allChars_impl _ _ _ hexChar_plain), passwordDigest_hex.
Qed.

(** The body of the POST of the handshake, marshalled. *)
Lemma MarshalStringMap_authBody (login password realm challenge : string) :
  Json.MarshalStringMap (keenetic.authBody login password realm challenge)
  = sessionText (Json.appendString login)
      (passwordDigest login password realm challenge).
Proof.
  unfold Json.MarshalStringMap.
  assert (Hdom : dom (keenetic.authBody login password realm challenge)
                 = ({["login"%string; "password"%string]} : gset string)).
  { unfold keenetic.authBody. cbv zeta. rewrite !dom_insert_L, dom_empty_L. set_solver. }
  rewrite Hdom.
  replace (merge_sort (fun a b : string => Is_true (String.leb a b))
             (elements ({["login"%string; "password"%string]} : gset string)))
    with ["login"%string; "password"%string] by (vm_compute; reflexivity).
  cbn [map].
  assert (Hl : keenetic.authBody login password realm challenge !! "login"%string
               = Some login).
  { unfold keenetic.authBody. cbv zeta.
    rewrite lookup_insert_ne by discriminate. apply lookup_insert_eq. }
  assert (Hp : keenetic.authBody login password realm challenge !! "password"%string
               = Some (passwordDigest login password realm challenge)).
  { unfold keenetic.authBody. cbv zeta. apply lookup_insert_eq. }
  rewrite Hl, Hp. cbn [default from_option]. unfold id.
  rewrite (appendString_plain (passwordDigest _ _ _ _)) by apply passwordDigest_plain.
  unfold sessionText, Json.object, Json.member, Json.join, Json.quoted.
  rewrite !append_assoc.
  generalize (Json.appendString login) (passwordDigest login password realm challenge).
  intros literal digest.
  change (String Json.quote (digest +:+ String Json.quote "") +:+ "}")
    with (String Json.quote ((digest +:+ String Json.quote "") +:+ "}")).
  rewrite append_assoc. reflexivity.
Qed.

End Literals.

(** ** The session client *)

Section Session.

Context {S : Type} `{keenetic.Platform S}.

Lemma auth_authed (c : keenetic.Client S) :
  keenetic.authed c = true -> keenetic.auth c = (Ok tt, c, []).
Proof.
  intros Ha. unfold keenetic.auth, keenetic.bind, keenetic.self. now rewrite Ha.
Qed.

(** The handshake after a probe answered 401 with a realm and a
    challenge. *)
Lemma auth_challenge (c : keenetic.Client S) (s1 : S) (probe : keenetic.HttpResponse)
    (realm challenge : string) :
  keenetic.authed c = false ->
  keenetic.Do (keenetic.httpClient c) (authProbe c) = (s1, Ok probe) ->
  keenetic.StatusCode probe = keenetic.StatusUnauthorized ->
  keenetic.HeaderGet (keenetic.Header probe) "X-NDM-Realm" = realm ->
  keenetic.HeaderGet (keenetic.Header probe) "X-NDM-Challenge" = challenge ->
  realm <> ""%string -> challenge <> ""%string ->
  keenetic.auth c =
    let '(s2, r) := keenetic.Do s1 (authPost c realm challenge) in
    (match r with
     | Err e => Err (keenetic.ErrAuthPost e)
     | Ok postResp =>
         if keenetic.StatusCode postResp =? keenetic.StatusOK then Ok tt
         else Err (keenetic.ErrAuthPostStatus (keenetic.StatusCode postResp))
     end,
     withState c s2
       (match r with
        | Ok postResp => keenetic.StatusCode postResp =? keenetic.StatusOK
        | Err _ => false
        end),
     [authProbe c; authPost c realm challenge]).
Proof.
  intros Ha Hdo Hst Hr Hc Hrne Hcne.
  destruct c as [base login password s0 a]. cbn in Ha. subst a.
  unfold authProbe, authPost, withState, keenetic.authURL in *.
  cbn [keenetic.httpClient keenetic.authed keenetic.baseURL keenetic.login
         keenetic.password] in *.
  unfold keenetic.auth, keenetic.authURL. run.
  rewrite Hdo. run.
  rewrite Hst. cbn [Z.eqb keenetic.StatusUnauthorized keenetic.StatusOK Pos.eqb negb].
  rewrite Hr, Hc.
  apply isEmpty_false in Hrne, Hcne. rewrite Hrne, Hcne. cbn [orb]. run.
  rewrite MarshalStringMap_authBody.
  set (post := keenetic.mkRequest keenetic.POST (base +:+ "/auth") "application/json"
                 (Some (sessionText (Json.appendString login)
                          (passwordDigest login password realm challenge)))).
  destruct (keenetic.Do s1 post) as [s2 [postResp|e]]; run.
  - unfold keenetic.StatusOK.
    destruct (keenetic.StatusCode postResp =? 200); reflexivity.
  - reflexivity.
Qed.

(** The handshake after a probe answered 401 without realm or without
    challenge. *)
Lemma auth_missing (c : keenetic.Client S) (s1 : S) (probe : keenetic.HttpResponse) :
  keenetic.authed c = false ->
  keenetic.Do (keenetic.httpClient c) (authProbe c) = (s1, Ok probe) ->
  keenetic.StatusCode probe = keenetic.StatusUnauthorized ->
  keenetic.HeaderGet (keenetic.Header probe) "X-NDM-Realm" = ""%string
  \/ keenetic.HeaderGet (keenetic.Header probe) "X-NDM-Challenge" = ""%string ->
  keenetic.auth c = (Err keenetic.ErrAuthMissing, withState c s1 false, [authProbe c]).
Proof.
  intros Ha Hdo Hst Hmiss.
  destruct c as [base login password s0 a]. cbn in Ha. subst a.
  unfold authProbe, withState, keenetic.authURL in *.
  cbn [keenetic.httpClient keenetic.authed keenetic.baseURL keenetic.login
         keenetic.password] in *.
  unfold keenetic.auth, keenetic.authURL. run.
  rewrite Hdo. run.
  rewrite Hst. cbn [Z.eqb keenetic.StatusUnauthorized keenetic.StatusOK Pos.eqb negb].
  destruct Hmiss as [-> | ->]; cbn [isEmpty orb]; [reflexivity|].
  rewrite orb_true_r. reflexivity.
Qed.

End Session.

(** C1, amended.  When the probe of the handshake is answered 401 with a
    realm and a challenge that are not empty, [auth] sends after the probe
    one POST to the session endpoint, for every login and password.  Its
    body is the JSON object of two members: [login], with the JSON string
    literal of the login, and [password], with the lower-case hex SHA-256
    of the challenge followed by the lower-case hex MD5 of
    "login:realm:password", between quotes.  The password member reads as
    that digest; the login member reads as the login when the login is
    valid UTF-8.  When that POST is answered 200, [auth] succeeds and leaves
    the client authenticated, and further calls of [auth] send nothing.
    When the realm or the challenge is empty (a header that is absent reads
    as empty), [auth] fails after the probe with the error of the missing
    header: it sends no POST and the client is not authenticated. *)
Theorem auth_handshake_digest {S : Type} `{keenetic.Platform S}
    (c : keenetic.Client S) (s1 : S) (probe : keenetic.HttpResponse)
    (realm challenge : string) :
  keenetic.authed c = false ->
  keenetic.Do (keenetic.httpClient c) (authProbe c) = (s1, Ok probe) ->
  keenetic.StatusCode probe = keenetic.StatusUnauthorized ->
  keenetic.HeaderGet (keenetic.Header probe) "X-NDM-Realm" = realm ->
  keenetic.HeaderGet (keenetic.Header probe) "X-NDM-Challenge" = challenge ->
  (realm <> ""%string -> challenge <> ""%string ->
   snd (keenetic.auth c)
   = [ authProbe c;
       keenetic.mkRequest keenetic.POST (keenetic.authURL c) "application/json"
         (Some (sessionText (Json.appendString (keenetic.login c))
                  (passwordDigest (keenetic.login c) (keenetic.password c)
                     realm challenge))) ]
   /\ readString (Json.quoted (passwordDigest (keenetic.login c) (keenetic.password c)
                                 realm challenge))
      = Some (Crypto.sha256Hex
                (challenge +:+ Crypto.md5Hex (keenetic.login c +:+ ":" +:+ realm +:+ ":"
                                              +:+ keenetic.password c)))
   /\ (Utf8.ValidString (keenetic.login c) = true ->
       readString (Json.appendString (keenetic.login c)) = Some (keenetic.login c))
   /\ (forall (s2 : S) (postResp : keenetic.HttpResponse),
         keenetic.Do s1 (authPost c realm challenge) = (s2, Ok postResp) ->
         keenetic.StatusCode postResp = keenetic.StatusOK ->
         keenetic.auth c
         = (Ok tt, withState c s2 true, [authProbe c; authPost c realm challenge])
         /\ keenetic.auth (withState c s2 true) = (Ok tt, withState c s2 true, [])))
  /\ (realm = ""%string \/ challenge = ""%string ->
      keenetic.auth c
      = (Err keenetic.ErrAuthMissing, withState c s1 false, [authProbe c])).
Proof.
  intros Ha Hdo Hst Hr Hc. split.
  - intros Hrne Hcne.
    pose proof (auth_challenge c s1 probe realm challenge Ha Hdo Hst Hr Hc Hrne Hcne)
      as Hauth.
    split; [|split; [|split]].
    + rewrite Hauth. now destruct (keenetic.Do s1 _) as [s2 r].
    + apply readString_quoted, passwordDigest_plain.
    + apply readString_appendString.
    + intros s2 postResp Hpost Hok. split.
      * rewrite Hauth, Hpost, Hok. reflexivity.
      * now apply auth_authed.
  - intros Hmiss. apply (auth_missing c s1 probe Ha Hdo Hst). now rewrite Hr, Hc.
Qed.

(** The scenario of the specification: realm "realm", challenge
    "challenge", login "user", password "pass"; and the same router with an
    empty challenge. *)
Lemma auth_handshake_digest_witness :
  keenetic.auth (exampleClient "user" "realm" "challenge")
  = (Ok tt,
     withState (exampleClient "user" "realm" "challenge")
       (mkSessionRouter "realm" "challenge" "user" "pass" stockText true) true,
     [ authProbe (exampleClient "user" "realm" "challenge");
       keenetic.mkRequest keenetic.POST "http://192.168.1.1/auth" "application/json"
         (Some (fromSingle
                  ("{'login':'user','password':"
                   +:+ "'41e6b43f253367306c008b3f863d9c29f7e33a3d7d8a72e54c251bb6b70bf104'}"))) ])
  /\ keenetic.auth (exampleClient "user" "realm" "")
     = (Err keenetic.ErrAuthMissing, exampleClient "user" "realm" "",
        [authProbe (exampleClient "user" "realm" "")]).
Proof.
  split.
  - destruct (auth_handshake_digest (exampleClient "user" "realm" "challenge")
                (exampleRouter "user" "realm" "challenge")
                (keenetic.mkResponse 401
                   (<["X-NDM-Realm"%string := "realm"%string]>
                      (<["X-NDM-Challenge"%string := "challenge"%string]> ∅)) "")
                "realm" "challenge")
      as [Hpost _];
      [reflexivity|reflexivity|reflexivity|reflexivity|reflexivity|].
    destruct Hpost as (_ & _ & _ & Hpost); [discriminate|discriminate|].
    destruct (Hpost (mkSessionRouter "realm" "challenge" "user" "pass" stockText true)
                (keenetic.mkResponse 200 ∅ "")) as [Hauth _];
      [vm_compute; reflexivity|reflexivity|].
    rewrite Hauth. vm_compute. reflexivity.
  - destruct (auth_handshake_digest (exampleClient "user" "realm" "")
                (exampleRouter "user" "realm" "")
                (keenetic.mkResponse 401
                   (<["X-NDM-Realm"%string := "realm"%string]>
                      (<["X-NDM-Challenge"%string := ""%string]> ∅)) "")
                "realm" "")
      as [_ Hmiss];
      [reflexivity|reflexivity|reflexivity|reflexivity|reflexivity|].
    apply Hmiss. now right.
Defined.

(** C1 as stated fails.  For the empty realm: the probe is answered 401
    with the challenge "challenge" and the realm "", and [auth] fails after
    the probe; it sends no POST and the client is not authenticated.  And
    for a login that is not valid UTF-8, here the byte FF alone: the
    handshake succeeds, but the login member of the body is the literal of
    U+FFFD, which does not read as the login. *)
Lemma auth_handshake_counterexample :
  keenetic.auth (exampleClient "user" "" "challenge")
  = (Err keenetic.ErrAuthMissing, exampleClient "user" "" "challenge",
     [authProbe (exampleClient "user" "" "challenge")])
  /\ (let badLogin := String "255"%char EmptyString in
      snd (keenetic.auth (exampleClient badLogin "realm" "challenge"))
      = [ authProbe (exampleClient badLogin "realm" "challenge");
          keenetic.mkRequest keenetic.POST "http://192.168.1.1/auth" "application/json"
            (Some (sessionText (Json.quoted (String Json.backslash "ufffd"))
                     (passwordDigest badLogin "pass" "realm" "challenge"))) ]
      /\ fst (fst (keenetic.auth (exampleClient badLogin "realm" "challenge"))) = Ok tt
      /\ readString (Json.quoted (String Json.backslash "ufffd"))
         = Some (String "239"%char (String "191"%char (String "189"%char EmptyString)))
      /\ readString (Json.quoted (String Json.backslash "ufffd")) <> Some badLogin).
Proof.
  split; [vm_compute; reflexivity|]. cbv zeta.
  split; [vm_compute; reflexivity|].
  split; [vm_compute; reflexivity|].
  split; [vm_compute; reflexivity|]. vm_compute. discriminate.
Qed.


(** ** The route synchronization protocol *)

Section Sync.

Context {S : Type} `{keenetic.Platform S}.

(** What [auth] leaves: the transport and the flag are all it changes of
    the client, and the flag is set exactly when it succeeds. *)
Lemma auth_outcome (c : keenetic.Client S) :
  exists r s' a tr,
    keenetic.auth c = (r, withState c s' a, tr) /\ a = isOk r.
Proof.
  destruct c as [base login password s0 a]. destruct a.
  - exists (Ok tt), s0, true, []. now rewrite auth_authed.
  - unfold keenetic.auth, keenetic.authURL, withState. run.
    set (probe := keenetic.mkRequest keenetic.GET (base +:+ "/auth") "" None).
    destruct (keenetic.Do s0 probe) as [s1 [resp|e]]; run.
    2:{ now exists (Err (keenetic.ErrAuthGet e)), s1, false, [probe]. }
    destruct (keenetic.StatusCode resp =? keenetic.StatusOK); run.
    { now exists (Ok tt), s1, true, [probe]. }
    destruct (keenetic.StatusCode resp =? keenetic.StatusUnauthorized); cbn [negb]; run.
    2:{ now exists (Err (keenetic.ErrAuthGetStatus (keenetic.StatusCode resp))), s1, false,
          [probe]. }
    destruct (isEmpty _ || isEmpty _); run.
    { now exists (Err keenetic.ErrAuthMissing), s1, false, [probe]. }
    match goal with |- context [keenetic.Do s1 ?p] => set (post := p) end.
    destruct (keenetic.Do s1 post) as [s2 [resp2|e2]]; run.
    2:{ now exists (Err (keenetic.ErrAuthPost e2)), s2, false, [probe; post]. }
    destruct (keenetic.StatusCode resp2 =? keenetic.StatusOK); cbn [negb]; run.
    + now exists (Ok tt), s2, true, [probe; post].
    + now exists (Err (keenetic.ErrAuthPostStatus (keenetic.StatusCode resp2))), s2, false,
        [probe; post].
Qed.

Lemma auth_signed (c c1 : keenetic.Client S) (handshake : list keenetic.HttpRequest) :
  keenetic.auth c = (Ok tt, c1, handshake) ->
  exists s1, c1 = withState c s1 true.
Proof.
  intros Hauth. destruct (auth_outcome c) as (r & s' & a & tr & Ho & Ha).
  rewrite Ho in Hauth. inversion Hauth; subst. now exists s'.
Qed.

(** A request in an open session: one exchange. *)
Lemma Request_signed (inSession : S -> Prop) (c c1 : keenetic.Client S)
    (handshake : list keenetic.HttpRequest) (query : string)
    (body : option (list keenetic.Item)) (u : string) :
  keenetic.auth c = (Ok tt, c1, handshake) ->
  inSession (keenetic.httpClient c1) ->
  accepts inSession u ->
  keenetic.JoinPath (keenetic.baseURL c) query = Ok u ->
  exists s' resp,
    keenetic.Request query body c
    = (Ok (keenetic.RespBody resp), withState c s' true,
       handshake ++ [requestOf u (marshalled body)])
    /\ keenetic.Do (keenetic.httpClient c1) (requestOf u (marshalled body)) = (s', Ok resp)
    /\ inSession s'.
Proof.
  intros Hauth Hin Hacc Hu.
  destruct (auth_signed _ _ _ Hauth) as [s1 ->].
  assert (Hurl : keenetic.ReqURL (requestOf u (marshalled body)) = u)
    by (now destruct body).
  destruct (Hacc _ _ Hin Hurl) as (s' & resp & Hdo & Hst & Hin').
  exists s', resp. split; [|split; assumption].
  unfold keenetic.Request, keenetic.bind at 1. rewrite Hauth.
  destruct c as [base login password s0 a]. unfold withState in *.
  cbn [keenetic.baseURL keenetic.login keenetic.password keenetic.httpClient] in *.
  unfold keenetic.bind at 1, keenetic.self.
  cbn [keenetic.baseURL]. rewrite Hu.
  fold (marshalled body).
  unfold keenetic.doRequest. fold (requestOf u (marshalled body)). run.
  rewrite Hdo. run. rewrite Hst. cbn [Z.eqb keenetic.StatusOK keenetic.StatusUnauthorized
    Pos.eqb negb]. run. reflexivity.
Qed.

Lemma wireRecord_built (e : routes.Route) :
  isIPv4OrCIDR (routes.Host e) = true -> keenetic.buildRoute e = Ok (wireRecord e).
Proof.
  intros Hv. unfold keenetic.buildRoute, wireRecord. unfold isIPv4OrCIDR in Hv.
  destruct (Strings.Contains (routes.Host e) "/") eqn:Es.
  - destruct (Net.ParseCIDR (routes.Host e)) as [[ip n]|]; [|discriminate].
    now destruct (isEmpty (routes.Gateway e)), (isEmpty (routes.Interface e)).
  - destruct (Net.ParseCIDR (routes.Host e)) as [[ip n]|] eqn:Ec.
    { apply ParseCIDR_slash in Ec. congruence. }
    now destruct (isEmpty (routes.Gateway e)), (isEmpty (routes.Interface e)).
Qed.

Lemma batchPayload_valid (batch : list routes.Route) (payload : list keenetic.Item) :
  Forall (fun e => isIPv4OrCIDR (routes.Host e) = true) batch ->
  keenetic.batchPayload batch payload
  = Ok (payload ++ map (fun e => keenetic.EnvelopeItem
                                   (keenetic.routeEnvelope (wireRecord e))) batch).
Proof.
  revert payload. induction batch as [|e batch IH]; intros payload Hv;
    cbn [keenetic.batchPayload map].
  - now rewrite app_nil_r.
  - inversion Hv as [|? ? He Hb]; subst. rewrite wireRecord_built by assumption.
    rewrite IH by assumption. now rewrite <- app_assoc.
Qed.

(** The JSON of an envelope and of the save directive. *)
Lemma MarshalItem_envelope (r : keenetic.Route) :
  keenetic.MarshalItem (keenetic.EnvelopeItem (keenetic.routeEnvelope r)) = envelopeText r.
Proof.
  unfold keenetic.MarshalItem, keenetic.MarshalRouteEnvelope, keenetic.routeEnvelope,
    envelopeText.
  cbn [keenetic.EnvelopeIP keenetic.WrappedRoute].
  generalize (keenetic.MarshalRoute r). intros text.
  unfold Json.object, Json.member, Json.join. rewrite !append_assoc. reflexivity.
Qed.

Lemma MarshalItem_save :
  keenetic.MarshalItem (keenetic.SaveItem keenetic.saveConfigPayload) = persistText.
Proof. reflexivity. Qed.

Lemma MarshalPayload_batch (batch : list routes.Route) :
  keenetic.MarshalPayload
    (map (fun e => keenetic.EnvelopeItem (keenetic.routeEnvelope (wireRecord e))) batch
     ++ [keenetic.SaveItem keenetic.saveConfigPayload])
  = batchText batch.
Proof.
  unfold keenetic.MarshalPayload, batchText. f_equal.
  rewrite map_app, map_map. cbn [map]. rewrite MarshalItem_save. f_equal.
  apply map_ext. intros e. apply MarshalItem_envelope.
Qed.

Lemma batch_slice (entries : list routes.Route) (i : nat) :
  drop i (take (Nat.min (i + keenetic.routeBatchSize) (length entries)) entries)
  = take keenetic.routeBatchSize (drop i entries).
Proof.
  rewrite take_drop_commute. f_equal.
  destruct (Nat.le_ge_cases (i + keenetic.routeBatchSize) (length entries)) as [Hle|Hge].
  - now rewrite Nat.min_l.
  - rewrite Nat.min_r by assumption. now rewrite !take_ge by lia.
Qed.

Lemma addBatches_signed (inSession : S -> Prop) (entries : list routes.Route)
    (u : string) (fuel i : nat) (c c1 : keenetic.Client S)
    (handshake : list keenetic.HttpRequest) :
  accepts inSession u ->
  Forall (fun e => isIPv4OrCIDR (routes.Host e) = true) entries ->
  keenetic.auth c = (Ok tt, c1, handshake) ->
  inSession (keenetic.httpClient c1) ->
  keenetic.JoinPath (keenetic.baseURL c) "rci/" = Ok u ->
  exists c',
    keenetic.addBatches fuel entries i c
    = (Ok tt, c',
       match chunks fuel keenetic.routeBatchSize (drop i entries) with
       | [] => []
       | bs => handshake ++ map (batchRequest u) bs
       end).
Proof.
  intros Hacc Hv. revert i c c1 handshake.
  induction fuel as [|fuel IH]; intros i c c1 handshake Hauth Hin Hu.
  - exists c. cbn [keenetic.addBatches chunks].
    now destruct (negb (i <? length entries)%nat).
  - cbn [keenetic.addBatches chunks].
    destruct (i <? length entries)%nat eqn:Ei; cbn [negb].
    + apply Nat.ltb_lt in Ei.
      destruct (drop i entries) as [|e0 rest] eqn:Ed.
      { apply (f_equal length) in Ed. rewrite length_drop in Ed. simpl in Ed. lia. }
      rewrite <- Ed. rewrite batch_slice, batchPayload_valid.
      2:{ apply Forall_take, Forall_drop. exact Hv. }
      cbn [app].
      set (batch := take keenetic.routeBatchSize (drop i entries)).
      set (payload := map (fun e => keenetic.EnvelopeItem
                                      (keenetic.routeEnvelope (wireRecord e))) batch
                      ++ [keenetic.SaveItem keenetic.saveConfigPayload]).
      destruct (Request_signed inSession c c1 handshake "rci/" (Some payload) u
                  Hauth Hin Hacc Hu) as (s' & resp & Hreq & _ & Hin').
      assert (Hnext : keenetic.auth (withState c s' true)
                      = (Ok tt, withState c s' true, [])) by now apply auth_authed.
      destruct (IH (i + keenetic.routeBatchSize)%nat (withState c s' true)
                  (withState c s' true) [] Hnext Hin' Hu) as [c' Hrest].
      exists c'.
      unfold keenetic.bind, keenetic.wrap. rewrite Hreq, Hrest. rewrite drop_drop.
      cbn [marshalled requestOf]. unfold payload. rewrite MarshalPayload_batch.
      fold (batchRequest u batch). cbn [map].
      f_equal. rewrite <- app_assoc. f_equal. cbn [app]. f_equal.
      destruct (chunks fuel keenetic.routeBatchSize
                  (drop (i + keenetic.routeBatchSize) entries)); reflexivity.
    + apply Nat.ltb_ge in Ei. exists c. now rewrite drop_ge by lia.
Qed.

Lemma chunks_concat {A} (fuel n : nat) (l : list A) :
  (0 < n)%nat -> (length l <= fuel)%nat -> concat (chunks fuel n l) = l.
Proof.
  intros Hn. revert l. induction fuel as [|fuel IH]; intros l Hl.
  - destruct l; [reflexivity|simpl in Hl; lia].
  - destruct l as [|x l]; [reflexivity|]. cbn [chunks concat].
    rewrite IH; [apply take_drop|].
    rewrite length_drop. simpl in *. lia.
Qed.

Lemma chunks_sizes {A} (fuel n : nat) (l : list A) :
  (0 < n)%nat ->
  Forall (fun b => (0 < length b <= n)%nat) (chunks fuel n l).
Proof.
  intros Hn. revert l. induction fuel as [|fuel IH]; intros l; [constructor|].
  destruct l as [|x l]; [constructor|]. cbn [chunks]. constructor; [|apply IH].
  rewrite length_take. simpl. lia.
Qed.

Lemma batches_55 (entries : list routes.Route) :
  length entries = 55%nat ->
  batches entries = [take 50 entries; drop 50 entries]
  /\ length (take 50 entries) = 50%nat /\ length (drop 50 entries) = 5%nat.
Proof.
  intros Hl. unfold batches, keenetic.routeBatchSize. rewrite Hl.
  assert (H50 : length (take 50 entries) = 50%nat) by (rewrite length_take; lia).
  assert (H5 : length (drop 50 entries) = 5%nat) by (rewrite length_drop; lia).
  split; [|split; assumption].
  destruct entries as [|e0 entries]; [discriminate|].
  change (chunks 55 50 (e0 :: entries))
    with (take 50 (e0 :: entries) :: chunks 54 50 (drop 50 (e0 :: entries))).
  f_equal.
  destruct (drop 50 (e0 :: entries)) as [|e1 rest] eqn:Ed; [discriminate|].
  change (chunks 54 50 (e1 :: rest))
    with (take 50 (e1 :: rest) :: chunks 53 50 (drop 50 (e1 :: rest))).
  rewrite take_ge by lia. rewrite drop_ge by lia. reflexivity.
Qed.




End Sync.


(** C2.  On a router that lets the client in ([auth] succeeds, whatever the
    handshake) and from then on answers the requests to rci/ with 200, for
    entries with valid destinations, [AddRoutes] succeeds and sends -- after
    the handshake, and nothing at all for no entry -- exactly one POST a
    batch, in list order; the batches are the pieces of 50 entries, the
    last one maybe shorter.  The body of the POST of a batch is the JSON
    array of the envelopes of the wire records of its entries, in order,
    followed by the persist directive, {"system": {"configuration":
    {"save": true}}}, as last element.  For 55 entries that is exactly 2
    requests, the first of 51 elements (50 route envelopes and the persist
    directive), the second of 6 (5 route envelopes and the persist
    directive). *)
Theorem AddRoutes_batches {S : Type} `{keenetic.Platform S} (inSession : S -> Prop)
    (c c1 : keenetic.Client S) (handshake : list keenetic.HttpRequest)
    (entries : list routes.Route) (u : string) :
  keenetic.auth c = (Ok tt, c1, handshake) ->
  inSession (keenetic.httpClient c1) ->
  accepts inSession u ->
  keenetic.JoinPath (keenetic.baseURL c) "rci/" = Ok u ->
  Forall (fun e => isIPv4OrCIDR (routes.Host e) = true) entries ->
  exists c',
    keenetic.AddRoutes entries c
    = (Ok tt, c',
       (match entries with [] => [] | _ => handshake end)
       ++ map (fun batch =>
                 keenetic.mkRequest keenetic.POST u "application/json"
                   (Some (Json.array (map (fun e => envelopeText (wireRecord e)) batch
                                      ++ [persistText]))))
              (batches entries))
    /\ concat (batches entries) = entries
    /\ Forall (fun b => (0 < length b <= 50)%nat) (batches entries)
    /\ (forall b : list routes.Route,
          length (map (fun e => envelopeText (wireRecord e)) b ++ [persistText])
          = (length b + 1)%nat)
    /\ (length entries = 55%nat ->
        batches entries = [take 50 entries; drop 50 entries]
        /\ length (take 50 entries) = 50%nat
        /\ length (drop 50 entries) = 5%nat).
Proof.
  intros Hauth Hin Hacc Hu Hv.
  assert (Hitems : forall b : list routes.Route,
            length (map (fun e => envelopeText (wireRecord e)) b ++ [persistText])
            = (length b + 1)%nat).
  { intros b. rewrite length_app, length_map. reflexivity. }
  destruct entries as [|e0 entries].
  - exists c. split; [reflexivity|]. split; [reflexivity|]. split; [constructor|].
    split; [exact Hitems|]. discriminate.
  - destruct (addBatches_signed inSession (e0 :: entries) u (length (e0 :: entries)) 0
                c c1 handshake Hacc Hv Hauth Hin Hu) as [c' Hadd].
    exists c'. split; [|split; [|split; [|split]]].
    + unfold keenetic.AddRoutes. cbn [length Nat.eqb]. cbn [length] in Hadd.
      rewrite Hadd. unfold batches. cbn [drop length chunks map]. reflexivity.
    + apply chunks_concat; [unfold keenetic.routeBatchSize; lia|lia].
    + apply chunks_sizes. unfold keenetic.routeBatchSize. lia.
    + exact Hitems.
    + intros Hl. exact (batches_55 _ Hl).
Qed.


Lemma testEntries_valid :
  Forall (fun e => isIPv4OrCIDR (routes.Host e) = true) testEntries.
Proof.
  assert (Hall : forallb (fun e => isIPv4OrCIDR (routes.Host e)) testEntries = true)
    by (vm_compute; reflexivity).
  rewrite forallb_forall in Hall.
  apply Forall_forall. intros e He. now apply Hall, list_elem_of_In.
Qed.

Lemma openRouter_accepts (u : string) : accepts (fun _ : openRouter => True) u.
Proof. intros s req _ _. eexists _, _. repeat split. Qed.

Lemma exampleSession_accepts (u : string) : accepts exampleSession u.
Proof.
  intros s req [Hlog Hlist] _. exists s. eexists. cbn [keenetic.Do sessionRouter_platform].
  unfold sessionDo. rewrite Hlog. repeat split; assumption.
Qed.

(** The 55 entries of the test.  On the server of the test: the probe, then
    two batches of 51 and 6 elements.  On the router with sessions: the two
    requests of the handshake, then the same two batches.  The first entry
    is sent with its host, and a destination with a prefix is sent as a
    network and a mask. *)
Lemma AddRoutes_batches_witness :
  (exists c',
     keenetic.AddRoutes testEntries openClient
     = (Ok tt, c',
        [ authProbe openClient;
          batchRequest "http://192.168.1.1/rci/" (take 50 testEntries);
          batchRequest "http://192.168.1.1/rci/" (drop 50 testEntries) ]))
  /\ (exists c',
        keenetic.AddRoutes testEntries (exampleClient "user" "realm" "challenge")
        = (Ok tt, c',
           [ authProbe (exampleClient "user" "realm" "challenge");
             authPost (exampleClient "user" "realm" "challenge") "realm" "challenge";
             batchRequest "http://192.168.1.1/rci/" (take 50 testEntries);
             batchRequest "http://192.168.1.1/rci/" (drop 50 testEntries) ]))
  /\ keenetic.ReqBody (batchRequest "http://192.168.1.1/rci/" (drop 53 testEntries))
     = Some (fromSingle
               ("[{'ip':{'route':{'host':'10.0.0.54','comment':'',"
                +:+ "'gateway':'10.0.0.1','auto':false}}},"
                +:+ "{'ip':{'route':{'host':'10.0.0.55','comment':'',"
                +:+ "'gateway':'10.0.0.1','auto':false}}},"
                +:+ "{'system':{'configuration':{'save':true}}}]"))
  /\ envelopeText (wireRecord (routes.mkRoute "10.1.2.3/16" "lan" "" "Home" true true))
     = fromSingle
         ("{'ip':{'route':{'network':'10.1.0.0','mask':'255.255.0.0',"
          +:+ "'comment':'lan','interface':'Home','auto':true,'reject':true}}}").
Proof.
  split; [|split; [|split]].
  - destruct (AddRoutes_batches (fun _ : openRouter => True) openClient
                (withState openClient (mkOpenRouter 1) true) [authProbe openClient]
                testEntries "http://192.168.1.1/rci/")
      as (c' & Hadd & _ & _ & _ & H55);
      [reflexivity|exact I|apply openRouter_accepts|reflexivity|apply testEntries_valid|].
    destruct (H55 eq_refl) as (Hb & _ & _).
    exists c'. rewrite Hadd, Hb. reflexivity.
  - destruct (AddRoutes_batches exampleSession (exampleClient "user" "realm" "challenge")
                (withState (exampleClient "user" "realm" "challenge")
                   (mkSessionRouter "realm" "challenge" "user" "pass" stockText true) true)
                [ authProbe (exampleClient "user" "realm" "challenge");
                  authPost (exampleClient "user" "realm" "challenge") "realm" "challenge" ]
                testEntries "http://192.168.1.1/rci/")
      as (c' & Hadd & _ & _ & _ & H55);
      [vm_compute; reflexivity|split; reflexivity|apply exampleSession_accepts
      |reflexivity|apply testEntries_valid|].
    destruct (H55 eq_refl) as (Hb & _ & _).
    exists c'. rewrite Hadd, Hb. reflexivity.
  - vm_compute. reflexivity.
  - vm_compute. reflexivity.
Defined.



(** ** Domain resolution *)

Section Clean.

Lemma digitChar_isDigit (d : Z) : 0 <= d < 10 -> isDigit (Strconv.digitChar d) = true.
Proof.
  intros Hd.
  assert (Hc : d = 0 \/ d = 1 \/ d = 2 \/ d = 3 \/ d = 4 \/ d = 5 \/ d = 6 \/ d = 7
               \/ d = 8 \/ d = 9) by lia.
  destruct Hc as [->|[->|[->|[->|[->|[->|[->|[->|[->| ->]]]]]]]]]; reflexivity.
Qed.

Lemma uitoaAux_first (fuel : nat) (n : Z) (acc : string) :
  exists c, keenetic.firstByte (Strconv.uitoaAux fuel n acc) = Some c
            /\ isDigit c = true.
Proof.
  revert n acc. induction fuel as [|fuel IH]; intros n acc; cbn [Strconv.uitoaAux].
  - eexists. split; [reflexivity|]. apply digitChar_isDigit. apply Z.mod_pos_bound. lia.
  - destruct (n <? 10); [|apply IH].
    eexists. split; [reflexivity|]. apply digitChar_isDigit. apply Z.mod_pos_bound. lia.
Qed.

Lemma uitoaAux_last (fuel : nat) (n : Z) (acc : string) :
  acc <> ""%string ->
  keenetic.lastByte (Strconv.uitoaAux fuel n acc) = keenetic.lastByte acc.
Proof.
  revert n acc. induction fuel as [|fuel IH]; intros n acc Hacc; cbn [Strconv.uitoaAux].
  - destruct acc; [congruence|reflexivity].
  - destruct (n <? 10).
    + destruct acc; [congruence|reflexivity].
    + rewrite IH by discriminate. destruct acc; [congruence|reflexivity].
Qed.

Lemma Uitoa_first (n : Z) :
  exists c, keenetic.firstByte (Strconv.Uitoa n) = Some c /\ isDigit c = true.
Proof. apply uitoaAux_first. Qed.

Lemma Uitoa_last (n : Z) :
  exists c, keenetic.lastByte (Strconv.Uitoa n) = Some c /\ isDigit c = true.
Proof.
  unfold Strconv.Uitoa. destruct (Z.to_nat (Z.log2 n)) as [|fuel]; cbn [Strconv.uitoaAux].
  - eexists. split; [reflexivity|]. apply digitChar_isDigit. apply Z.mod_pos_bound. lia.
  - destruct (n <? 10).
    + eexists. split; [reflexivity|]. apply digitChar_isDigit. apply Z.mod_pos_bound. lia.
    + rewrite uitoaAux_last by discriminate.
      eexists. split; [reflexivity|]. apply digitChar_isDigit. apply Z.mod_pos_bound. lia.
Qed.

Lemma Uitoa_nonempty (n : Z) : Strconv.Uitoa n <> ""%string.
Proof.
  destruct (Uitoa_first n) as [c [Hc _]]. intros E. rewrite E in Hc. discriminate.
Qed.

Lemma string4_clean (a b c d : Z) : clean (Net.string4 a b c d).
Proof.
  unfold Net.string4.
  destruct (Uitoa_first a) as [c1 [Hf H1]]. destruct (Uitoa_last d) as [c2 [Hl H2]].
  split.
  - apply (TrimSpace_plain _ c1 c2); auto using isDigit_plain.
    + rewrite firstByte_app; [exact Hf|apply Uitoa_nonempty].
    + assert (Hne : forall s t : string, s <> ""%string -> s +:+ t <> ""%string).
      { intros s t Hs. destruct s; [congruence|discriminate]. }
      rewrite !lastByte_app; try exact Hl;
        repeat first [apply Uitoa_nonempty | discriminate | apply Hne].
  - intros E. destruct (Strconv.Uitoa a) eqn:Ea; [now apply (Uitoa_nonempty a)|discriminate].
Qed.

Lemma To4_four (x : Net.IP) :
  Net.To4 x <> [] -> exists a b c d, Net.To4 x = [a; b; c; d].
Proof.
  unfold Net.To4, Net.IPv4len, Net.IPv6len.
  destruct (length x =? 4)%nat eqn:E4.
  - apply Nat.eqb_eq in E4. intros _.
    destruct x as [|a [|b [|c [|d [|e x]]]]]; try discriminate. now exists a, b, c, d.
  - destruct ((length x =? 16)%nat && Net.isZeros (take 10 x) && (nth 10 x 0 =? 255) && (nth 11 x 0 =? 255)) eqn:E; [|congruence].
    intros _. apply andb_prop in E as [E _]. apply andb_prop in E as [E _].
    apply andb_prop in E as [E _]. apply Nat.eqb_eq in E.
    do 16 (destruct x as [|? x]; [discriminate|]). destruct x; [|discriminate].
    cbn [drop]. eauto.
Qed.

End Clean.

Section Rerun.

Context {R : Type} `{IPResolver R} (resolver : R).

Lemma merging_nil : merging ∅ [].
Proof. split; [reflexivity|]. split; constructor. Qed.

Lemma merging_snoc (seen : gset string) (merged : list string) (h : string) :
  merging seen merged -> clean h -> h ∉ seen ->
  merging ({[h]} ∪ seen) (merged ++ [h]).
Proof.
  intros [Hs [Hn Hc]] Hh Hnew. subst seen. split; [|split].
  - rewrite list_to_set_app_L. cbn [list_to_set foldr].
    rewrite (right_id_L ∅ (∪)). apply (comm_L (∪)).
  - apply NoDup_app. split; [exact Hn|]. split; [|apply NoDup_singleton].
    intros x Hx Hx'. apply list_elem_of_singleton in Hx'. subst x.
    apply Hnew. now apply elem_of_list_to_set.
  - apply Forall_app. split; [exact Hc|]. now constructor.
Qed.

Lemma IPString_four (a b c d : Z) : Net.IPString [a; b; c; d] = Net.string4 a b c d.
Proof. reflexivity. Qed.

Lemma To4_clean (x : Net.IP) :
  Net.isNil (Net.To4 x) = false -> clean (Net.IPString (Net.To4 x)).
Proof.
  intros Hx. apply isNil_false in Hx. destruct (To4_four x Hx) as [a [b [c [d ->]]]].
  rewrite IPString_four. apply string4_clean.
Qed.

Lemma keepIPv4_clean (addrs : list IPAddr) (seen : gset string) (ips : list string) :
  Forall clean ips -> Forall clean (keepIPv4 addrs seen ips).
Proof.
  revert seen ips. induction addrs as [|addr addrs IH]; intros seen ips Hips;
    cbn [keepIPv4]; [exact Hips|].
  destruct (Net.isNil (Net.To4 (AddrIP addr))) eqn:En; cbn [negb]; [now apply IH|].
  destruct (bool_decide _); apply IH; [exact Hips|].
  apply Forall_app. split; [exact Hips|]. constructor; [|constructor].
  now apply To4_clean.
Qed.

Lemma lookupIPv4_clean (domain : string) (ips : list string) :
  lookupIPv4 resolver domain = Ok ips -> Forall clean ips.
Proof.
  unfold lookupIPv4. destruct (Net.isNil (Net.ParseIP domain)); cbn [negb].
  - destruct (LookupIPAddr resolver domain) as [addrs|e]; [|discriminate].
    intros [= <-]. apply keepIPv4_clean. constructor.
  - destruct (Net.isNil (Net.To4 (Net.ParseIP domain))) eqn:En; cbn [negb]; [discriminate|].
    intros [= <-]. constructor; [|constructor]. now apply To4_clean.
Qed.

Lemma mergeHosts_merging (hosts : list string) (seen : gset string) (merged : list string) :
  merging seen merged ->
  exists ext,
    mergeHosts hosts seen merged = (list_to_set (merged ++ ext), merged ++ ext)
    /\ merging (list_to_set (merged ++ ext)) (merged ++ ext).
Proof.
  revert seen merged. induction hosts as [|h hosts IH]; intros seen merged Hm;
    cbn [mergeHosts].
  - exists []. rewrite app_nil_r. destruct Hm as [-> Hm]. split; [reflexivity|].
    split; [reflexivity|exact Hm].
  - destruct (isEmpty (Strings.TrimSpace h)) eqn:Ee; [now apply IH|].
    case_bool_decide as Hin; [now apply IH|].
    assert (Hc : clean (Strings.TrimSpace h)).
    { split; [apply TrimSpace_idem|now apply isEmpty_false]. }
    destruct (IH _ _ (merging_snoc _ _ _ Hm Hc Hin)) as [ext [Hrun Hinv]].
    exists (Strings.TrimSpace h :: ext).
    replace (merged ++ Strings.TrimSpace h :: ext)
      with ((merged ++ [Strings.TrimSpace h]) ++ ext) by now rewrite <- app_assoc.
    split; assumption.
Qed.

(** Clean hosts without duplicate are merged as they are. *)
Lemma mergeHosts_clean (hosts : list string) (seen : gset string) (merged : list string) :
  seen = list_to_set merged ->
  Forall clean hosts -> NoDup (merged ++ hosts) ->
  mergeHosts hosts seen merged = (list_to_set (merged ++ hosts), merged ++ hosts).
Proof.
  revert seen merged. induction hosts as [|h hosts IH]; intros seen merged Hs Hc Hn;
    cbn [mergeHosts].
  - rewrite app_nil_r. now subst.
  - inversion Hc as [|? ? [Ht Hne] Hc']; subst. rewrite Ht.
    apply isEmpty_false in Hne. rewrite Hne.
    replace (merged ++ h :: hosts) with ((merged ++ [h]) ++ hosts) in *
      by now rewrite <- app_assoc.
    case_bool_decide as Hin.
    { exfalso. apply elem_of_list_to_set in Hin.
      apply NoDup_app in Hn as [Hn _]. apply NoDup_app in Hn as [_ [Hn _]].
      apply (Hn h Hin). now left. }
    apply IH; [|exact Hc'|exact Hn].
    rewrite list_to_set_app_L. cbn [list_to_set foldr].
    rewrite (right_id_L ∅ (∪)). apply (comm_L (∪)).
Qed.

Lemma mergeIPs_merging (ips : list string) (seen : gset string) (merged : list string)
    (sum : ResolveSummary) :
  merging seen merged -> Forall clean ips ->
  exists ext sum',
    mergeIPs ips seen merged sum = (list_to_set (merged ++ ext), merged ++ ext, sum')
    /\ merging (list_to_set (merged ++ ext)) (merged ++ ext)
    /\ (forall ip, ip ∈ ips -> ip ∈ merged ++ ext)
    /\ Groups sum' = Groups sum /\ DomainsResolved sum' = DomainsResolved sum.
Proof.
  revert seen merged sum. induction ips as [|ip ips IH]; intros seen merged sum Hm Hc;
    cbn [mergeIPs].
  - exists [], sum. rewrite app_nil_r. destruct Hm as [-> Hm].
    repeat split; try apply Hm. intros ip Hip. inversion Hip.
  - inversion Hc as [|? ? Hip Hc']; subst. case_bool_decide as Hin.
    + destruct (IH _ _ sum Hm Hc') as [ext [sum' [Hrun [Hinv [Hall Hsum]]]]].
      exists ext, sum'. repeat split; try assumption; try apply Hinv; try apply Hsum.
      intros x [->|Hx]%elem_of_cons; [|now apply Hall].
      destruct Hm as [-> _]. apply elem_of_list_to_set in Hin.
      apply elem_of_app. now left.
    + destruct (IH _ _ {| Groups := Groups sum; DomainsResolved := DomainsResolved sum;
                          IPsAdded := IPsAdded sum + 1 |}
                  (merging_snoc _ _ _ Hm Hip Hin) Hc')
        as [ext [sum' [Hrun [Hinv [Hall Hsum]]]]].
      exists (ip :: ext), sum'.
      replace (merged ++ ip :: ext) with ((merged ++ [ip]) ++ ext)
        by now rewrite <- app_assoc.
      repeat split; try assumption; try apply Hinv; try apply Hsum.
      intros x [->|Hx]%elem_of_cons; [|now apply Hall].
      apply elem_of_app. left. apply elem_of_app. right. now left.
Qed.

(** Addresses that are all seen already are skipped, and none is counted. *)
Lemma mergeIPs_seen (ips : list string) (seen : gset string) (merged : list string)
    (sum : ResolveSummary) :
  (forall ip, ip ∈ ips -> ip ∈ seen) ->
  mergeIPs ips seen merged sum = (seen, merged, sum).
Proof.
  induction ips as [|ip ips IH]; intros Hall; cbn [mergeIPs]; [reflexivity|].
  rewrite bool_decide_eq_true_2 by (apply Hall; now left).
  apply IH. intros x Hx. apply Hall. now right.
Qed.

End Rerun.

Section Idempotence.

Context {R : Type} `{IPResolver R} (resolver : R).

(** A run of the loop over the domains that succeeds keeps the merged
    hosts well formed and only adds to them; and the same loop, started
    again with all these hosts seen, adds nothing and counts the same
    domains. *)
Lemma resolveGroupDomains_rerun (group : RouteGroup) (i : Z) (domains : list string)
    (seenDomains seenHosts : gset string) (merged : list string)
    (sum sum' : ResolveSummary) (merged' : list string) :
  merging seenHosts merged ->
  resolveGroupDomains resolver group i domains seenDomains seenHosts merged sum
  = (sum', Ok merged') ->
  merging (list_to_set merged') merged'
  /\ (exists ext, merged' = merged ++ ext)
  /\ Groups sum' = Groups sum
  /\ forall (group2 : RouteGroup) (i2 : Z) (seenHosts2 : gset string)
            (merged2 : list string) (sum2 : ResolveSummary),
       (forall h, h ∈ merged' -> h ∈ seenHosts2) ->
       exists sum2',
         resolveGroupDomains resolver group2 i2 domains seenDomains seenHosts2 merged2 sum2
         = (sum2', Ok merged2)
         /\ Groups sum2' = Groups sum2
         /\ DomainsResolved sum2' - DomainsResolved sum2
            = DomainsResolved sum' - DomainsResolved sum
         /\ IPsAdded sum2' = IPsAdded sum2.
Proof.
  revert seenDomains seenHosts merged sum.
  induction domains as [|d domains IH]; intros seenDomains seenHosts merged sum Hm;
    cbn [resolveGroupDomains].
  - intros [= <- <-]. destruct Hm as [-> Hm]. split; [split; [reflexivity|exact Hm]|].
    split; [exists []; now rewrite app_nil_r|]. split; [reflexivity|].
    intros group2 i2 seenHosts2 merged2 sum2 _. exists sum2.
    repeat split; lia.
  - destruct (isEmpty (Strings.TrimSpace d)) eqn:Ee; [discriminate|].
    case_bool_decide as Hseen.
    { intros Hrun. destruct (IH _ _ _ _ Hm Hrun) as [Hinv [Hext [Hg Hre]]].
      split; [exact Hinv|]. split; [exact Hext|]. split; [exact Hg|].
      intros group2 i2 seenHosts2 merged2 sum2 Hall.
      now apply Hre. }
    destruct (lookupIPv4 resolver (Strings.TrimSpace d)) as [ips|e] eqn:El; [|discriminate].
    destruct (length ips =? 0)%nat eqn:Elen; [discriminate|].
    pose proof (lookupIPv4_clean resolver _ _ El) as Hclean.
    destruct (mergeIPs_merging ips seenHosts merged
                {| Groups := Groups sum; DomainsResolved := DomainsResolved sum + 1;
                   IPsAdded := IPsAdded sum |} Hm Hclean)
      as [ext1 [sum1 [Hmerge [Hinv1 [Hall1 [Hg1 Hd1]]]]]].
    rewrite Hmerge. intros Hrun.
    destruct (IH _ _ _ _ Hinv1 Hrun) as [Hinv [[ext Hext] [Hg Hre]]].
    split; [exact Hinv|]. split.
    { exists (ext1 ++ ext). now rewrite Hext, <- app_assoc. }
    split; [cbn in Hg1; lia|].
    intros group2 i2 seenHosts2 merged2 sum2 Hall.
    rewrite mergeIPs_seen.
    2:{ intros ip Hip. apply Hall. rewrite Hext. apply elem_of_app. left.
        now apply Hall1. }
    destruct (Hre group2 i2 seenHosts2 merged2
                {| Groups := Groups sum2; DomainsResolved := DomainsResolved sum2 + 1;
                   IPsAdded := IPsAdded sum2 |} Hall)
      as [sum2' [Hrun2 [Hg2 [Hd2 Ha2]]]].
    exists sum2'. split; [exact Hrun2|]. cbn in *. repeat split; lia.
Qed.

End Idempotence.

Section IdempotenceFile.

Context {R : Type} `{IPResolver R} (resolver : R).

Lemma withHosts_again (g : RouteGroup) (hosts : list string) :
  withHosts (withHosts g hosts) hosts = withHosts g hosts.
Proof. reflexivity. Qed.

(** A run of the loop over the groups that succeeds leaves groups on
    which the same loop changes nothing and adds no address. *)
Lemma resolveGroups_rerun (todo done : list RouteGroup) (i : Z)
    (sum sum' : ResolveSummary) (out : list RouteGroup) :
  resolveGroups resolver done todo i sum = (out, sum', None) ->
  exists todo',
    out = done ++ todo'
    /\ map Domains todo' = map Domains todo
    /\ Forall (fun g => Domains g <> [] -> NoDup (Hosts g)) todo'
    /\ forall (done2 : list RouteGroup) (sum2 : ResolveSummary),
         exists sum2',
           resolveGroups resolver done2 todo' i sum2 = (done2 ++ todo', sum2', None)
           /\ Groups sum2' - Groups sum2 = Groups sum' - Groups sum
           /\ DomainsResolved sum2' - DomainsResolved sum2
              = DomainsResolved sum' - DomainsResolved sum
           /\ IPsAdded sum2' = IPsAdded sum2.
Proof.
  revert done i sum. induction todo as [|g todo IH]; intros done i sum;
    cbn [resolveGroups].
  - intros [= <- <-]. exists []. rewrite app_nil_r. repeat split; [constructor|].
    intros done2 sum2. exists sum2. cbn [resolveGroups]. rewrite app_nil_r.
    repeat split; lia.
  - destruct (length (Domains g) =? 0)%nat eqn:Elen.
    { intros Hrun. destruct (IH _ _ _ Hrun) as [todo' [Hout [Hdom [Hnd Hre]]]].
      exists (g :: todo'). split; [now rewrite Hout, <- app_assoc|].
      split; [cbn [map]; now rewrite Hdom|]. split.
      { constructor; [|exact Hnd]. intros Hne. destruct (Domains g); [congruence|discriminate]. }
      intros done2 sum2. cbn [resolveGroups]. rewrite Elen.
      destruct (Hre (done2 ++ [g]) sum2) as [sum2' [Hrun2 Hsum2]].
      exists sum2'. rewrite Hrun2, <- app_assoc. split; [reflexivity|exact Hsum2]. }
    destruct (Bool.eqb (isEmpty (GroupGateway g)) (isEmpty (GroupInterface g))) eqn:Erule;
      [discriminate|].
    destruct (mergeHosts_merging (Hosts g) ∅ [] merging_nil) as [ext0 [Hmerge0 Hinv0]].
    rewrite Hmerge0. cbn [app] in *.
    destruct (resolveGroupDomains resolver g i (Domains g) ∅ (list_to_set ext0) ext0
                {| Groups := Groups sum + 1; DomainsResolved := DomainsResolved sum;
                   IPsAdded := IPsAdded sum |}) as [sum1 [merged1|e]] eqn:Ergd;
      [|discriminate].
    destruct (resolveGroupDomains_rerun resolver _ _ _ _ _ _ _ _ _ Hinv0 Ergd)
      as [Hinv1 [_ [Hg1 Hre1]]].
    intros Hrun. destruct (IH _ _ _ Hrun) as [todo' [Hout [Hdom [Hnd Hre]]]].
    exists (withHosts g merged1 :: todo'). split; [now rewrite Hout, <- app_assoc|].
    split; [cbn [map]; now rewrite Hdom|]. split.
    { constructor; [|exact Hnd]. intros _. apply Hinv1. }
    intros done2 sum2. cbn [resolveGroups withHosts Domains Hosts GroupGateway GroupInterface].
    rewrite Elen, Erule.
    destruct Hinv1 as [_ [Hnodup Hclean]].
    rewrite (mergeHosts_clean merged1 ∅ [] eq_refl Hclean Hnodup). cbn [app].
    destruct (Hre1 (withHosts g merged1) i (list_to_set merged1) merged1
                {| Groups := Groups sum2 + 1; DomainsResolved := DomainsResolved sum2;
                   IPsAdded := IPsAdded sum2 |})
      as [sum2a [Hrgd2 [Hg2 [Hd2 Ha2]]]].
    { intros h Hh. now apply elem_of_list_to_set. }
    destruct (Hre (done2 ++ [withHosts g merged1]) sum2a) as [sum2' [Hrun2 [Hg3 [Hd3 Ha3]]]].
    exists sum2'. rewrite Hrgd2, withHosts_again, Hrun2, <- app_assoc.
    split; [reflexivity|].
    cbn [Groups DomainsResolved IPsAdded] in *. repeat split; lia.
Qed.

(** The groups keep their domains, whatever the outcome. *)
Lemma resolveGroups_domains (todo done : list RouteGroup) (i : Z) (sum : ResolveSummary) :
  map Domains (fst (fst (resolveGroups resolver done todo i sum)))
  = map Domains (done ++ todo).
Proof.
  revert done i sum. induction todo as [|g todo IH]; intros done i sum;
    cbn [resolveGroups].
  - now rewrite app_nil_r.
  - destruct (length (Domains g) =? 0)%nat.
    { rewrite IH. now rewrite <- app_assoc. }
    destruct (Bool.eqb _ _); [reflexivity|].
    destruct (mergeHosts (Hosts g) ∅ []) as [seen merged].
    destruct (resolveGroupDomains _ _ _ _ _ _ _ _) as [sum1 [merged1|e]]; [|reflexivity].
    rewrite IH. rewrite !map_app, <- app_assoc. reflexivity.
Qed.

End IdempotenceFile.

(** C8.  Resolution never clears or changes the domain lists.  When a run
    succeeds -- the domains resolve -- a second run on the file it left,
    with the same DNS answers, succeeds too, leaves every host list as it
    is, so that no address is added twice, counts the same groups and
    domains and reports 0 for [IPsAdded]; and the hosts of every group
    that has domains are without duplicate. *)
Theorem ResolveDomains_idempotent {R : Type} `{IPResolver R} (resolver : R)
    (rf rf1 : RoutesFile) (s1 : ResolveSummary) (e1 : option routes.Error) :
  ResolveDomainsWithResolver (Some rf) resolver = (Some rf1, s1, e1) ->
  map Domains (Routes rf1) = map Domains (Routes rf)
  /\ (e1 = None ->
      exists s2,
        ResolveDomainsWithResolver (Some rf1) resolver = (Some rf1, s2, None)
        /\ IPsAdded s2 = 0
        /\ Groups s2 = Groups s1
        /\ DomainsResolved s2 = DomainsResolved s1
        /\ Forall (fun g => Domains g <> [] -> NoDup (Hosts g)) (Routes rf1)).
Proof.
  destruct rf as [groups]. rewrite ResolveDomains_groups.
  destruct (resolveGroups resolver [] groups 0 (mkSummary 0 0 0)) as [[out s] err] eqn:E.
  intros [= <- <- <-]. cbn [Routes]. split.
  - pose proof (resolveGroups_domains resolver groups [] 0 (mkSummary 0 0 0)) as Hd.
    rewrite E in Hd. exact Hd.
  - intros ->. destruct (resolveGroups_rerun resolver _ _ _ _ _ _ E)
      as [todo' [Hout [_ [Hnd Hre]]]].
    cbn [app] in Hout. subst out.
    destruct (Hre [] (mkSummary 0 0 0)) as [s2 [Hrun [Hg [Hdm Ha]]]].
    exists s2. rewrite ResolveDomains_groups, Hrun. cbn in *.
    repeat split; try lia. exact Hnd.
Qed.

Lemma ResolveDomains_idempotent_witness :
  ResolveDomainsWithResolver (Some {| Routes := [groupDNS] |}) dnsAnswers
  = (Some {| Routes := [groupDNSResolved] |}, mkSummary 1 2 2, None)
  /\ ResolveDomainsWithResolver (Some {| Routes := [groupDNSResolved] |}) dnsAnswers
     = (Some {| Routes := [groupDNSResolved] |}, mkSummary 1 2 0, None).
Proof.
  assert (Hfirst : ResolveDomainsWithResolver (Some {| Routes := [groupDNS] |}) dnsAnswers
                   = (Some {| Routes := [groupDNSResolved] |}, mkSummary 1 2 2, None))
    by (vm_compute; reflexivity).
  split; [exact Hfirst|].
  destruct (ResolveDomains_idempotent dnsAnswers _ _ _ _ Hfirst) as [_ Hagain].
  destruct (Hagain eq_refl) as [s2 [Hrun [Ha [Hg Hd]]]].
  rewrite Hrun. destruct s2 as [g d a]. cbn in *. destruct Hd as [Hd _]. now subst.
Defined.

